(** * breakhis_gradcam.utils: training-loop utilities

    A shallow embedding of [src/breakhis_gradcam/utils.py]: the mixup batch
    construction, the training and validation epoch loops, the construction
    of per-group learning rates, the optimizer/scheduler factory and the
    checkpoint writer.

    Conventions of the embedding.
    - A tensor is a shape and its row-major data, as a contiguous torch
      tensor is.  Element types are not tracked: float, integer and boolean
      tensors all hold exact rationals ([Qc]), so every result below is about
      exact arithmetic, not about IEEE rounding, infinities or nan.
    - A Python float that takes part in tensor arithmetic is a 0-d tensor.
    - An exception is an outcome [Raise e]; [NotANumber] stands for a nan
      produced by a reduction over no element, which has no rational value.
    - The random number generators, the network with its optimizer and
      scheduler, and the loss are external: they are operations on abstract
      state, given as records of functions.
    - Moving data to the GPU ([.cuda()]) does not change values and is left
      out.
    - Learning rates are real numbers ([R]), because [numpy.geomspace] takes
      roots. *)

From Stdlib Require Import QArith Qcanon Reals Lqa Lra Lia.
From Stdlib Require Import Ascii String.
From stdpp Require Import base numbers list strings gmap pretty.

(* ===================================================================== *)
(** * Part I: definitions *)
(* ===================================================================== *)

(** ** Outcomes *)

Inductive exn : Type :=
| IndexError | ValueError | RuntimeError | TypeError | ZeroDivisionError
| NotANumber.

Inductive result (A : Type) : Type :=
| Ok (a : A)
| Raise (e : exn).
Arguments Ok {A} a.
Arguments Raise {A} e.

#[global] Instance result_ret : MRet result := fun A a => Ok a.
#[global] Instance result_bind : MBind result := fun A B f m =>
  match m with Ok a => f a | Raise e => Raise e end.

#[global] Instance exn_eq_dec : EqDecision exn.
Proof. solve_decision. Defined.
#[global] Instance result_eq_dec `{EqDecision A} : EqDecision (result A).
Proof. solve_decision. Defined.

(** ** Numbers *)

Local Open Scope Qc_scope.

Definition Qc_of_nat (n : nat) : Qc := Qc_of_Z (Z.of_nat n).
Definition Qcmax (a b : Qc) : Qc := if decide (a < b) then b else a.
Definition Qcsum (l : list Qc) : Qc := foldr Qcplus 0 l.
Definition Qcmax_list (l : list Qc) : Qc :=
  match l with [] => 0 | v :: r => foldl Qcmax v r end.

(** The mean of a list, as [.mean()] takes it of a tensor that is not empty. *)
Definition Qcmean (l : list Qc) : Qc := Qcsum l / Qc_of_nat (length l).

(** Python's [a / b] on numbers. *)
Definition py_div (a b : Qc) : result Qc :=
  if decide (b = 0) then Raise ZeroDivisionError else Ok (a / b).

(** Index of the first maximal element, as [torch.argmax] reports it. *)
Fixpoint argmax_from (best_i : nat) (best : Qc) (i : nat) (l : list Qc) : nat :=
  match l with
  | [] => best_i
  | v :: r =>
      if decide (best < v) then argmax_from i v (S i) r
      else argmax_from best_i best (S i) r
  end.
Definition argmax_list (l : list Qc) : nat :=
  match l with [] => 0%nat | v :: r => argmax_from 0 v 1 r end.

(** ** Tensors *)

Record tensor : Type := Tensor { shape : list nat; data : list Qc }.

#[global] Instance tensor_eq_dec : EqDecision tensor.
Proof. solve_decision. Defined.

Fixpoint numel (s : list nat) : nat :=
  match s with [] => 1%nat | d :: r => (d * numel r)%nat end.

(** Row-major position of a multi-index, and back. *)
Fixpoint ravel (s idx : list nat) : nat :=
  match s, idx with
  | _ :: r, i :: js => (i * numel r + ravel r js)%nat
  | _, _ => 0%nat
  end.
Fixpoint unravel (s : list nat) (k : nat) : list nat :=
  match s with
  | [] => []
  | _ :: r => (k / numel r)%nat :: unravel r (k mod numel r)
  end.

Definition wf (t : tensor) : Prop := length (data t) = numel (shape t).
Definition in_bounds (s idx : list nat) : Prop := Forall2 lt idx s.

#[global] Instance wf_dec t : Decision (wf t).
Proof. unfold wf. apply _. Defined.
#[global] Instance in_bounds_dec s idx : Decision (in_bounds s idx).
Proof. unfold in_bounds. apply _. Defined.

(** [tget] is the checked read [t[i0, i1, ...]]; [tnth] the unchecked one
    the operations use on indices they have already bounded. *)
Definition tnth (t : tensor) (idx : list nat) : Qc :=
  default 0 (data t !! ravel (shape t) idx).
Definition tget (t : tensor) (idx : list nat) : option Qc :=
  if decide (in_bounds (shape t) idx) then data t !! ravel (shape t) idx
  else None.

(** The tensor of shape [s] whose element at [idx] is [f idx]. *)
Definition build (s : list nat) (f : list nat -> Qc) : tensor :=
  Tensor s ((fun k => f (unravel s k)) <$> seq 0 (numel s)).

Definition scalar (q : Qc) : tensor := Tensor [] [q].
Definition rank (t : tensor) : nat := length (shape t).

(** [len(t)]: the first dimension; a 0-d tensor has no length. *)
Definition len (t : tensor) : result nat :=
  match shape t with [] => Raise TypeError | n :: _ => Ok n end.

(** *** Broadcasting *)

(** Shapes are aligned at their last dimension; two dimensions agree when
    they are equal or one of them is 1. *)
Definition broadcast_dim (a b : nat) : option nat :=
  if decide (a = b) then Some a
  else if decide (a = 1%nat) then Some b
  else if decide (b = 1%nat) then Some a
  else None.
Fixpoint broadcast_rev (r1 r2 : list nat) : option (list nat) :=
  match r1, r2 with
  | [], r => Some r
  | r, [] => Some r
  | a :: r1', b :: r2' =>
      match broadcast_dim a b, broadcast_rev r1' r2' with
      | Some d, Some r => Some (d :: r)
      | _, _ => None
      end
  end.
Definition broadcast_shapes (s1 s2 : list nat) : option (list nat) :=
  reverse <$> broadcast_rev (reverse s1) (reverse s2).

(** The index an operand of shape [s] is read at, for the index [idx] of
    the broadcast result. *)
Definition bidx (s idx : list nat) : list nat :=
  zip_with (fun d i => if decide (d = 1%nat) then 0%nat else i)
    s (drop (length idx - length s) idx).

Definition map2b (op : Qc -> Qc -> Qc) (a b : tensor) : result tensor :=
  match broadcast_shapes (shape a) (shape b) with
  | Some s =>
      Ok (build s (fun idx =>
            op (tnth a (bidx (shape a) idx)) (tnth b (bidx (shape b) idx))))
  | None => Raise RuntimeError
  end.

Definition tadd : tensor -> tensor -> result tensor := map2b Qcplus.
Definition tsub : tensor -> tensor -> result tensor := map2b Qcminus.
Definition tmul : tensor -> tensor -> result tensor := map2b Qcmult.
(** [a == b], elementwise, with 1 for true. *)
Definition teq : tensor -> tensor -> result tensor :=
  map2b (fun u v => if decide (u = v) then 1 else 0).

(** *** Reductions *)

(** [t.sum()] and [t.mean()] over all elements. *)
Definition tsum (t : tensor) : tensor := scalar (Qcsum (data t)).
Definition tmean (t : tensor) : result tensor :=
  if decide (numel (shape t) = 0%nat) then Raise NotANumber
  else Ok (scalar (Qcsum (data t) / Qc_of_nat (numel (shape t)))).

(** [t.item()]: the value of a tensor of one element. *)
Definition item (t : tensor) : result Qc :=
  match data t with [q] => Ok q | _ => Raise RuntimeError end.

Definition insert_at (ax j : nat) (idx : list nat) : list nat :=
  take ax idx ++ j :: drop ax idx.

(** The values along axis [ax] at the position [idx] of the other axes. *)
Definition fiber (t : tensor) (ax d : nat) (idx : list nat) : list Qc :=
  (fun j => tnth t (insert_at ax j idx)) <$> seq 0 d.

(** [t.mean(ax)] of torch and [t.max(ax)] of numpy. *)
Definition mean_axis (ax : nat) (t : tensor) : result tensor :=
  match shape t !! ax with
  | None => Raise IndexError
  | Some d =>
      if decide (d = 0%nat) then Raise NotANumber
      else Ok (build (delete ax (shape t)) (fun idx =>
                 Qcsum (fiber t ax d idx) / Qc_of_nat d))
  end.
Definition np_max (ax : nat) (t : tensor) : result tensor :=
  match shape t !! ax with
  | None => Raise ValueError
  | Some d =>
      if decide (d = 0%nat) then Raise ValueError
      else Ok (build (delete ax (shape t)) (fun idx =>
                 Qcmax_list (fiber t ax d idx)))
  end.

(** [torch.argmax(t, -1)]. *)
Definition torch_argmax (t : tensor) : result tensor :=
  match reverse (shape t) with
  | [] => Ok (scalar 0)
  | d :: rs =>
      if decide (d = 0%nat) then Raise IndexError
      else Ok (build (reverse rs) (fun idx =>
                 Qc_of_nat (argmax_list (fiber t (length rs) d idx))))
  end.

(** *** Indexing and reshaping *)

(** [t[index]] for an index tensor: the rows of [t] in the order of
    [index]. *)
Definition index_rows (t : tensor) (index : list nat) : result tensor :=
  match shape t with
  | [] => Raise IndexError
  | n :: r =>
      if decide (Forall (fun i => (i < n)%nat) index) then
        Ok (build (length index :: r) (fun idx =>
              match idx with
              | i :: js => tnth t (default 0%nat (index !! i) :: js)
              | [] => 0
              end))
      else Raise IndexError
  end.
(** [t[index, :]]: as above, on a tensor of at least two dimensions. *)
Definition index_rows_all (t : tensor) (index : list nat) : result tensor :=
  if decide (2 <= rank t)%nat then index_rows t index else Raise IndexError.

(** [t[:, None]] and the like: a new axis of size 1 at position [ax]. *)
Definition new_axis (ax : nat) (t : tensor) : result tensor :=
  if decide (ax <= rank t)%nat then Ok (Tensor (insert_at ax 1%nat (shape t)) (data t))
  else Raise IndexError.

(** [np.concatenate([a, b], ax)]. *)
Definition np_concatenate (ax : nat) (a b : tensor) : result tensor :=
  match shape a !! ax, shape b !! ax with
  | Some da, Some db =>
      if decide (delete ax (shape a) = delete ax (shape b)) then
        Ok (build (<[ax := (da + db)%nat]> (shape a)) (fun idx =>
              match idx !! ax with
              | Some j =>
                  if decide (j < da)%nat then tnth a idx
                  else tnth b (<[ax := (j - da)%nat]> idx)
              | None => 0
              end))
      else Raise ValueError
  | _, _ => Raise ValueError
  end.

(** [t.view(dims)], where one dimension may be -1 and is then inferred. *)
Definition view_shape (total : nat) (dims : list Z) : option (list nat) :=
  let known := filter (fun d => d ≠ (-1)%Z) dims in
  let p := numel (Z.to_nat <$> known) in
  if decide (Forall (fun d => (0 <= d)%Z) known) then
    match (length dims - length known)%nat with
    | 0%nat =>
        if decide (p = total) then Some (Z.to_nat <$> dims) else None
    | 1%nat =>
        if decide (p ≠ 0%nat ∧ (total mod p = 0)%nat) then
          Some ((fun d => if decide (d = (-1)%Z) then (total / p)%nat
                          else Z.to_nat d) <$> dims)
        else None
    | _ => None
    end
  else None.
Definition view (t : tensor) (dims : list Z) : result tensor :=
  match view_shape (length (data t)) dims with
  | Some s => Ok (Tensor s (data t))
  | None => Raise RuntimeError
  end.

(** [t[:, j, :]] and [t[:, :n, :]] along axis [ax]. *)
Definition select (ax j : nat) (t : tensor) : result tensor :=
  match shape t !! ax with
  | Some d =>
      if decide (j < d)%nat then
        Ok (build (delete ax (shape t)) (fun idx => tnth t (insert_at ax j idx)))
      else Raise IndexError
  | None => Raise IndexError
  end.
Definition narrow (ax n : nat) (t : tensor) : result tensor :=
  match shape t !! ax with
  | Some d => Ok (build (<[ax := (n `min` d)%nat]> (shape t)) (tnth t))
  | None => Raise IndexError
  end.

(** ** External collaborators *)

(** The two random number generators, as one state of type [G]:
    [np.random.beta(a, b, size)] and [torch.randperm(n)]. *)
Record rng_ops (G : Type) : Type := RngOps {
  np_random_beta : Qc -> Qc -> nat -> G -> list Qc * G;
  torch_randperm : nat -> G -> list nat * G
}.
Arguments np_random_beta {G} _ _ _ _ _.
Arguments torch_randperm {G} _ _ _.

(** The network with its optimizer and scheduler, as one state of type
    [L].  [backward_and_step] is [loss.backward(); optimizer.step()] for the
    loss function it is given, evaluated at the given input. *)
Record learner_ops (L : Type) : Type := LearnerOps {
  set_training : bool -> L -> L;
  forward : L -> tensor -> tensor * L;
  zero_grad : L -> L;
  backward_and_step : L -> tensor -> (tensor -> result tensor) -> L;
  scheduler_step : L -> L
}.
Arguments set_training {L} _ _ _.
Arguments forward {L} _ _ _.
Arguments zero_grad {L} _ _.
Arguments backward_and_step {L} _ _ _ _.
Arguments scheduler_step {L} _ _.

(** [criterion(pred, target)]. *)
Definition criterion_fn : Type := tensor -> tensor -> tensor.

(** ** mixup_data *)

Record mixup : Type := Mixup {
  mixed_x : tensor;
  y_a : tensor;
  y_b : tensor;
  lam : tensor;
  mixup_criterion : tensor -> result tensor;
  mixup_acc : tensor -> result Qc
}.

(** [x.size()[0]]. *)
Definition size0 (t : tensor) : result nat :=
  match shape t with [] => Raise IndexError | n :: _ => Ok n end.

(** Lines 24-28: the per-example coefficients, of shape [(n, 1, 1, 1)]. *)
Definition mixup_lam (batch_size : nat) (draws : list Qc) : result tensor :=
  let lam := Tensor [batch_size] draws in
  col ← new_axis 1 lam;
  col1 ← new_axis 1 lam;
  comp ← tsub (scalar 1) col1;
  cat ← np_concatenate 1 col comp;
  m ← np_max 1 cat;
  l1 ← new_axis 1 m;
  l2 ← new_axis 2 l1;
  new_axis 3 l2.

Definition mixup_data {G : Type} (rng : rng_ops G) (x y : tensor)
    (criterion : criterion_fn) (alpha : Qc) (g : G) : result (mixup * G) :=
  batch_size ← size0 x;
  '(lam, g) ← (if decide (0 < alpha) then
                 let '(draws, g') := np_random_beta rng alpha alpha batch_size g in
                 lam ← mixup_lam batch_size draws;
                 Ok (lam, g')
               else Ok (scalar 1, g));
  let '(index, g) := torch_randperm rng batch_size g in
  a ← tmul lam x;
  oml ← tsub (scalar 1) lam;
  xi ← index_rows_all x index;
  b ← tmul oml xi;
  mixed_x ← tadd a b;
  let y_a := y in
  y_b ← index_rows y index;
  p ← tmul lam y_a;
  oml' ← tsub (scalar 1) lam;
  q ← tmul oml' y_b;
  mixed_y ← tadd p q;
  let mixup_criterion := fun pred =>
    u ← tmul lam (criterion pred y_a);
    oml ← tsub (scalar 1) lam;
    v ← tmul oml (criterion pred y_b);
    s ← tadd u v;
    tmean s in
  let mixup_acc := fun pred =>
    e ← teq pred mixed_y;
    item (tsum e) in
  Ok (Mixup mixed_x y_a y_b lam mixup_criterion mixup_acc, g).

(** The coefficient made of one draw [d]: the larger of [d] and [1 - d]. *)
Definition lam_of (d : Qc) : Qc := Qcmax d (1 - d).

(** What the callers may expect of the generators: a Beta sample is a
    list of [size] numbers of the unit interval, and [randperm n] is a
    permutation of [0 .. n-1]. *)
Definition beta_sample (n : nat) (draws : list Qc) : Prop :=
  length draws = n /\ Forall (fun d => 0 <= d /\ d <= 1) draws.
Definition permutation_of_range (n : nat) (index : list nat) : Prop :=
  index ≡ₚ seq 0 n.

(** A loss whose shape does not depend on the targets. *)
Definition regular_loss (criterion : criterion_fn) : Prop :=
  forall pred t1 t2,
    wf (criterion pred t1) /\ shape (criterion pred t1) = shape (criterion pred t2).

(** ** train and validate *)

Record dataloader : Type := DataLoader {
  batches : list (tensor * tensor);
  dataset_len : nat
}.

Inductive phase : Type := Training | Validation.

(** What [log.debug] and [log.info] are called with. *)
Inductive log_entry : Type :=
| LogDebug (ph : phase) (epoch : Z) (i n_batches : nat) (loss acc projected : Qc)
| LogInfo (ph : phase) (loss acc : Qc) (epoch : Z).

#[global] Instance phase_eq_dec : EqDecision phase.
Proof. solve_decision. Defined.
#[global] Instance log_entry_eq_dec : EqDecision log_entry.
Proof. solve_decision. Defined.

Record stats : Type := Stats {
  total : nat;
  total_loss : Qc;
  total_correct : Qc
}.

(** The number of positions at which two tensors of one shape agree: the
    correct predictions, when they are the predictions and the labels. *)
Definition count_equal (a b : tensor) : nat :=
  length (filter (fun p => p.1 = p.2) (zip (data a) (data b))).

(** What one batch adds to the statistics: its loss, its count of correct
    predictions and its number of examples. *)
Record measure : Type := Measure {
  m_loss : Qc;
  m_correct : Qc;
  m_size : nat
}.
Definition add_measure (st : stats) (m : measure) : stats :=
  Stats (total st + m_size m)
        (total_loss st + m_loss m * Qc_of_nat (m_size m))
        (total_correct st + m_correct m).

Record world (G L : Type) : Type := World {
  w_rng : G;
  w_learner : L;
  w_log : list log_entry
}.
Arguments World {G L} _ _ _.
Arguments w_rng {G L} _.
Arguments w_learner {G L} _.
Arguments w_log {G L} _.

#[global] Instance world_eq_dec `{EqDecision G, EqDecision L} : EqDecision (world G L).
Proof. solve_decision. Defined.

(** Python's [a % b] on integers. *)
Definition py_mod (a b : Z) : result Z :=
  if decide (b = 0%Z) then Raise ZeroDivisionError else Ok (a `mod` b)%Z.

(** The [if i % logging_frequency == 0 and i > 0: log.debug(...)] block,
    which [train] and [validate] both have. *)
Definition log_progress (ph : phase) (epoch : Z) (i : nat) (dl : dataloader)
    (logging_frequency : Z) (st : stats) (log : list log_entry)
    : result (list log_entry) :=
  r ← py_mod (Z.of_nat i) logging_frequency;
  if decide (r = 0%Z ∧ (0 < i)%nat) then
    loss ← py_div (total_loss st) (Qc_of_nat (total st));
    acc ← py_div (total_correct st) (Qc_of_nat (dataset_len dl));
    acc' ← py_div (total_correct st) (Qc_of_nat (dataset_len dl));
    frac ← py_div (Qc_of_nat i) (Qc_of_nat (length (batches dl)));
    proj ← py_div acc' frac;
    Ok (log ++ [LogDebug ph epoch i (length (batches dl)) loss acc proj])
  else Ok log.

(** The last two statements before [return]. *)
Definition report (ph : phase) (epoch : Z) (st : stats) (log : list log_entry)
    : result ((Qc * Qc) * list log_entry) :=
  final_loss ← py_div (total_loss st) (Qc_of_nat (total st));
  final_acc ← py_div (total_correct st) (Qc_of_nat (total st));
  Ok ((final_loss, final_acc), log ++ [LogInfo ph final_loss final_acc epoch]).

(** Lines 146-150: the output of a batch of augmented views. *)
Definition tta_output {L : Type} (ops : learner_ops L) (l : L) (x : tensor)
    (tta_mixing : Qc) : result (tensor * L) :=
  match shape x with
  | [bs; n_aug; c; h; w] =>
      flat ← view x [(-1)%Z; Z.of_nat c; Z.of_nat h; Z.of_nat w];
      let '(out, l) := forward ops l flat in
      output ← view out [Z.of_nat bs; Z.of_nat n_aug; (-1)%Z];
      last ← select 1 (n_aug - 1) output;
      a ← tmul (scalar (1 - tta_mixing)) last;
      rest ← narrow 1 (n_aug - 1) output;
      rest_mean ← mean_axis 1 rest;
      b ← tmul (scalar tta_mixing) rest_mean;
      output ← tadd a b;
      Ok (output, l)
  | _ => Raise ValueError
  end.

Section Loops.
Context {G L : Type} (rng : rng_ops G) (ops : learner_ops L).
Context (criterion : criterion_fn).

(** The body of the loop of [train]. *)
Definition train_batch (epoch : Z) (dl : dataloader) (has_scheduler mixup : bool)
    (alpha : Qc) (logging_frequency : Z) (i : nat) (xy : tensor * tensor)
    (acc : stats * world G L) : result (stats * world G L) :=
  let '(st, w) := acc in
  let '(x, y) := xy in
  '(m, g) ← mixup_data rng x y criterion (if mixup then alpha else 0) (w_rng w);
  let l := zero_grad ops (w_learner w) in
  let '(output, l) := forward ops l (mixed_x m) in
  prediction ← torch_argmax output;
  loss ← mixup_criterion m output;
  loss_item ← item loss;
  n ← len y;
  let tl := total_loss st + loss_item * Qc_of_nat n in
  correct ← mixup_acc m prediction;
  let tc := total_correct st + correct in
  n' ← len y;
  let st := Stats (total st + n') tl tc in
  let l := backward_and_step ops l (mixed_x m) (mixup_criterion m) in
  let l := if has_scheduler then scheduler_step ops l else l in
  log ← log_progress Training epoch i dl logging_frequency st (w_log w);
  Ok (st, World g l log).

(** Lines 153-175: what the loop of [validate] does with the output. *)
Definition validate_score (epoch : Z) (dl : dataloader) (logging_frequency : Z)
    (i : nat) (y output : tensor) (l : L) (st : stats) (w : world G L)
    : result (stats * world G L) :=
  prediction ← torch_argmax output;
  let loss := criterion output y in
  loss_item ← item loss;
  n ← len y;
  let tl := total_loss st + loss_item * Qc_of_nat n in
  e ← teq prediction y;
  correct ← item (tsum e);
  let tc := total_correct st + correct in
  n' ← len y;
  let st := Stats (total st + n') tl tc in
  log ← log_progress Validation epoch i dl logging_frequency st (w_log w);
  Ok (st, World (w_rng w) l log).

(** The body of the loop of [validate]. *)
Definition validate_batch (epoch : Z) (dl : dataloader) (tta : bool)
    (tta_mixing : Qc) (logging_frequency : Z) (i : nat) (xy : tensor * tensor)
    (acc : stats * world G L) : result (stats * world G L) :=
  let '(st, w) := acc in
  let '(x, y) := xy in
  '(output, l) ← (if tta then tta_output ops (w_learner w) x tta_mixing
                  else Ok (forward ops (w_learner w) x));
  validate_score epoch dl logging_frequency i y output l st w.

(** [for i, (x, y) in enumerate(dataloader): body]. *)
Fixpoint for_enumerate {St : Type}
    (body : nat -> tensor * tensor -> St -> result St)
    (i : nat) (bs : list (tensor * tensor)) (s : St) : result St :=
  match bs with
  | [] => Ok s
  | xy :: rest => s' ← body i xy s; for_enumerate body (S i) rest s'
  end.

Definition train (epoch : Z) (dl : dataloader) (has_scheduler mixup : bool)
    (alpha : Qc) (logging_frequency : Z) (w : world G L)
    : result ((Qc * Qc) * world G L) :=
  let w := World (w_rng w) (set_training ops true (w_learner w)) (w_log w) in
  '(st, w) ← for_enumerate
      (train_batch epoch dl has_scheduler mixup alpha logging_frequency)
      0 (batches dl) (Stats 0 0 0, w);
  '(res, log) ← report Training epoch st (w_log w);
  Ok (res, World (w_rng w) (w_learner w) log).

Definition validate (epoch : Z) (dl : dataloader) (tta : bool) (tta_mixing : Qc)
    (logging_frequency : Z) (w : world G L) : result ((Qc * Qc) * world G L) :=
  let w := World (w_rng w) (set_training ops false (w_learner w)) (w_log w) in
  '(st, w) ← for_enumerate
      (validate_batch epoch dl tta tta_mixing logging_frequency)
      0 (batches dl) (Stats 0 0 0, w);
  '(res, log) ← report Validation epoch st (w_log w);
  Ok (res, World (w_rng w) (w_learner w) log).

End Loops.

(** ** get_param_lr_maps *)

Local Close Scope Qc_scope.
Local Open Scope R_scope.

(** A [torch.nn.Parameter], by identity. *)
Definition parameter : Type := nat.

(** What the code asks of the model: [model.named_parameters()] and
    [model.out_fc.parameters()]. *)
Record model : Type := Model {
  named_parameters : list (string * parameter);
  out_fc_parameters : list parameter
}.

(** The value under ['params'] in a group: in the source it is the list
    [body_parameters] of (name, parameter) pairs, one parameter, or the
    iterator [model.out_fc.parameters()]. *)
Inductive params_value : Type :=
| NamedParams (l : list (string * parameter))
| OneParam (p : parameter)
| ParamIter (l : list parameter).

Record param_group : Type := ParamGroup {
  params : params_value;
  lr : R
}.

(** [finetune_body_factor]: a float, or a pair to unpack. *)
Inductive body_factor : Type :=
| FloatFactor (f : R)
| FactorRange (lower_bound_factor upper_bound_factor : R).

(** [s.split(sep)] for a separator of one character. *)
Fixpoint split (sep : Ascii.ascii) (s : string) : list string :=
  match s with
  | EmptyString => [EmptyString]
  | String c r =>
      if decide (c = sep) then EmptyString :: split sep r
      else match split sep r with
           | h :: t => String c h :: t
           | [] => [String c EmptyString]
           end
  end.

(** [param.split('.')[0] != 'out_fc']. *)
Definition is_body (name : string) : bool :=
  bool_decide (default EmptyString (head (split "."%char name)) ≠ "out_fc"%string).

Definition body_parameters (m : model) : list (string * parameter) :=
  filter (fun np => is_body np.1 = true) (named_parameters m).

(** The points of the geometric progression from [a] to [b] in [num]
    steps. *)
Definition geom_point (a b : R) (num i : nat) : R :=
  a * Rpower (b / a) (INR i / INR (num - 1)).

(** [numpy.geomspace(start, stop, num)], after numpy's documentation:
    [num] points of a geometric progression from [start] to [stop], both
    included and both returned as they were given.  A zero endpoint is
    refused; endpoints of opposite signs make every interior point nan. *)
Definition geomspace (start stop : R) (num : nat) : result (list R) :=
  if Req_dec_T start 0 then Raise ValueError
  else if Req_dec_T stop 0 then Raise ValueError
  else
    let sgn := if Rlt_dec start 0 then (if Rlt_dec stop 0 then -1 else 1) else 1 in
    let a := sgn * start in
    let b := sgn * stop in
    if Rlt_dec (start * stop) 0 then
      if decide (2 < num)%nat then Raise NotANumber
      else Ok (take num [start; stop])
    else
      let pts := geom_point a b num <$> seq 0 num in
      let pts := <[0%nat := a]> pts in
      let pts := if decide (1 < num)%nat then <[(num - 1)%nat := b]> pts else pts in
      Ok (Rmult sgn <$> pts).

Definition get_param_lr_maps (m : model) (base_lr : R)
    (finetune_body_factor : body_factor) : result (list param_group) :=
  let body_parameters := body_parameters m in
  match finetune_body_factor with
  | FloatFactor f =>
      Ok [ ParamGroup (NamedParams body_parameters) (base_lr * f);
           ParamGroup (ParamIter (out_fc_parameters m)) base_lr ]
  | FactorRange lower_bound_factor upper_bound_factor =>
      lrs ← geomspace (base_lr * lower_bound_factor)
                      (base_lr * upper_bound_factor) (length body_parameters);
      let param_lr_maps :=
        zip_with (fun np lr => ParamGroup (OneParam np.2) lr) body_parameters lrs in
      Ok (param_lr_maps ++ [ParamGroup (ParamIter (out_fc_parameters m)) base_lr])
  end.

(** ** setup_optimizer_and_scheduler *)

(** [torch.optim.AdamW] and [torch.optim.lr_scheduler.OneCycleLR] belong to
    torch.  The two constructors are written after torch's documentation and
    source, for the arguments this code passes and the defaults it leaves:
    what they refuse, and what they leave in the parameter groups of the
    optimizer.  Integer arguments are integers ([Z]). *)

(** A parameter group of an optimizer: its parameters and the options
    that this code or the scheduler sets.  The keys [initial_lr], [max_lr],
    [min_lr], [max_momentum] and [base_momentum] are absent until a
    scheduler adds them.  The other options of AdamW ([eps],
    [weight_decay], [amsgrad] and the like) keep their defaults and are not
    listed. *)
Record optimizer_group : Type := OptimizerGroup {
  group_params : list parameter;
  group_lr : R;
  group_betas : R * R;
  group_initial_lr : option R;
  group_max_lr : option R;
  group_min_lr : option R;
  group_max_momentum : option R;
  group_base_momentum : option R
}.

(** An optimizer: its parameter groups and the default learning rate. *)
Record optimizer : Type := Optimizer {
  param_groups : list optimizer_group;
  defaults_lr : R
}.

(** A OneCycleLR scheduler.  It holds the optimizer it changes: the field
    [sched_optimizer] is that one object, in the state the scheduler left it. *)
Record scheduler : Type := Scheduler {
  sched_optimizer : optimizer;
  sched_total_steps : Z;
  sched_step_size_up : R;
  sched_step_size_down : R;
  sched_last_epoch : Z
}.









Local Close Scope R_scope.

(** ** checkpoint_state *)

Section Checkpoint.
(** State dictionaries are opaque values of type [SD]. *)
Context {SD : Type}.

Inductive py_value : Type :=
| PyNone
| PyInt (z : Z)
| PyFloat (q : Qc)
| PyStateDict (sd : SD).

(** An object with a [state_dict()] method; the model also has [save_dir]. *)
Record stateful : Type := Stateful { state_dict : SD }.
Record saved_model : Type := SavedModel {
  model_state_dict : SD;
  save_dir : string
}.

(** [s.endswith(c)] for one character. *)
Fixpoint endswith (c : Ascii.ascii) (s : string) : bool :=
  match s with
  | EmptyString => false
  | String a EmptyString => bool_decide (a = c)
  | String _ r => endswith c r
  end.

(** [os.path.join(a, b)] of posixpath. *)
Definition os_path_join (a b : string) : string :=
  if String.prefix "/" b then b
  else if bool_decide (a = EmptyString) || endswith "/" a then (a +:+ b)%string
  else (a +:+ "/" +:+ b)%string.

(** ['epoch_%d.pth' % epoch]. *)
Definition checkpoint_name (epoch : Z) : string :=
  ("epoch_" +:+ pretty epoch +:+ ".pth")%string.

(** The file system: what [torch.save(obj, path)] has put under each path. *)
Definition torch_save (obj : gmap string py_value) (path : string)
    (fs : gmap string (gmap string py_value)) : gmap string (gmap string py_value) :=
  <[path := obj]> fs.

Definition checkpoint_state (model : saved_model) (epoch : Z)
    (optimizer : stateful) (scheduler : option stateful)
    (train_loss train_acc val_loss val_acc : Qc)
    (fs : gmap string (gmap string py_value)) : gmap string (gmap string py_value) :=
  torch_save
    (list_to_map
       [ ("model_state_dict"%string, PyStateDict (model_state_dict model));
         ("optimizer_state_dict"%string, PyStateDict (state_dict optimizer));
         ("scheduler_state_dict"%string,
            match scheduler with
            | None => PyNone
            | Some s => PyStateDict (state_dict s)
            end);
         ("train_loss"%string, PyFloat train_loss);
         ("train_acc"%string, PyFloat train_acc);
         ("val_loss"%string, PyFloat val_loss);
         ("val_acc"%string, PyFloat val_acc);
         ("epoch"%string, PyInt epoch) ])
    (os_path_join (save_dir model) (checkpoint_name epoch))
    fs.

End Checkpoint.
Arguments py_value : clear implicits.
Arguments stateful : clear implicits.
Arguments saved_model : clear implicits.

Local Open Scope Qc_scope.

(** The average of the outputs of the [n_aug] views of example [b], each
    view counting the same, at class [k]; [out] holds one row per view. *)
Definition view_average (out : tensor) (n_aug b k : nat) : Qc :=
  Qcmean ((fun a => tnth out [(b * n_aug + a)%nat; k]) <$> seq 0 n_aug).

(** ** Example inputs *)

Definition example_rng : rng_ops nat :=
  RngOps nat
    (fun _ _ n g => (take n [Q2Qc (3 # 10); Q2Qc (9 # 10); Q2Qc (1 # 2); 0], S g))
    (fun n g => (reverse (seq 0 n), S g)).

(** A network that scores class 0 above class 1 for every example, and
    whose state counts the updates. *)
Definition example_ops : learner_ops nat :=
  LearnerOps nat
    (fun _ l => l)
    (fun l x => (Tensor [hd 0%nat (shape x); 2%nat]
                   (mjoin (replicate (hd 0%nat (shape x)) [1; 0])), l))
    (fun l => l)
    (fun l _ _ => S l)
    (fun l => l).

(** A network on images of one pixel whose single output is the pixel. *)
Definition pixel_ops : learner_ops unit :=
  LearnerOps unit
    (fun _ l => l)
    (fun l x => (Tensor [hd 0%nat (shape x); 1%nat] (data x), l))
    (fun l => l)
    (fun l _ _ => l)
    (fun l => l).

Definition example_criterion : criterion_fn :=
  fun pred target => scalar (Qcsum (data target) + 1).

(** A loss per example: the squared error, not reduced. *)
Definition example_squared_error : criterion_fn :=
  fun pred target =>
    Tensor (shape target)
      (zip_with (fun p t => (p - t) * (p - t)) (data pred) (data target)).

Definition example_x : tensor := Tensor [2; 1; 1; 2]%nat [1; 2; 1 + 2; 2 + 2].
Definition example_y : tensor := Tensor [2]%nat [0; 0].
Definition example_loader : dataloader := DataLoader [(example_x, example_y)] 2.
Definition example_world : world nat nat := World 0%nat 0%nat [].

(** One example seen under three views, whose pixels are 0, 0 and 1. *)
Definition example_views : tensor := Tensor [1; 3; 1; 1; 1]%nat [0; 0; 1].

Definition example_model : model :=
  Model [ ("conv1.weight"%string, 0%nat); ("conv1.bias"%string, 1%nat);
          ("layer1.0.weight"%string, 2%nat);
          ("out_fc.weight"%string, 3%nat); ("out_fc.bias"%string, 4%nat) ]
        [3%nat; 4%nat].

(** ** setup_logging_streams *)

(** The [logging] module belongs to Python: a handler is an object with an
    identity, made by [logging.FileHandler(path)] or
    [logging.StreamHandler(stream=sys.stdout)]; a logger keeps the list of
    the handlers added to it.  Opening the log file is left out. *)
Inductive stream_target : Type :=
| FileTarget (path : string)
| StdoutTarget.

Inductive log_level : Type := NOTSET | DEBUG.

Record log_formatter : Type := LogFormatter {
  fmt : string;
  datefmt : string
}.

Record log_handler : Type := LogHandler {
  h_target : stream_target;
  h_level : log_level;
  h_formatter : option log_formatter;
  h_closed : bool
}.

#[global] Instance stream_target_eq_dec : EqDecision stream_target.
Proof. solve_decision. Defined.
#[global] Instance log_level_eq_dec : EqDecision log_level.
Proof. solve_decision. Defined.
#[global] Instance log_formatter_eq_dec : EqDecision log_formatter.
Proof. solve_decision. Defined.
#[global] Instance log_handler_eq_dec : EqDecision log_handler.
Proof. solve_decision. Defined.

(** The handler objects, the handlers of the logger [log], and what has
    been printed. *)
Record logging_state : Type := LoggingState {
  handler_objects : gmap nat log_handler;
  log_handlers : list nat;
  printed : list string
}.

Record logged_model : Type := LoggedModel { log_dir : string }.

(** A new handler object, open, at level NOTSET and without formatter. *)
Definition new_handler (t : stream_target) (s : logging_state)
    : nat * logging_state :=
  let h := fresh (dom (handler_objects s)) in
  (h, LoggingState (<[h := LogHandler t NOTSET None false]> (handler_objects s))
        (log_handlers s) (printed s)).

Definition setLevel (h : nat) (lvl : log_level) (s : logging_state)
    : logging_state :=
  LoggingState
    (alter (fun o => LogHandler (h_target o) lvl (h_formatter o) (h_closed o))
       h (handler_objects s))
    (log_handlers s) (printed s).

Definition setFormatter (h : nat) (f : log_formatter) (s : logging_state)
    : logging_state :=
  LoggingState
    (alter (fun o => LogHandler (h_target o) (h_level o) (Some f) (h_closed o))
       h (handler_objects s))
    (log_handlers s) (printed s).

Definition close (h : nat) (s : logging_state) : logging_state :=
  LoggingState
    (alter (fun o => LogHandler (h_target o) (h_level o) (h_formatter o) true)
       h (handler_objects s))
    (log_handlers s) (printed s).

(** [log.addHandler(h)] adds [h] unless the logger has it already. *)
Definition addHandler (h : nat) (s : logging_state) : logging_state :=
  if decide (h ∈ log_handlers s) then s
  else LoggingState (handler_objects s) (log_handlers s ++ [h]) (printed s).

(** [l.remove(h)] when [h] is in [l]: its first occurrence goes. *)
Fixpoint list_remove (h : nat) (l : list nat) : list nat :=
  match l with
  | [] => []
  | a :: r => if decide (a = h) then r else a :: list_remove h r
  end.

(** [log.removeHandler(h)] removes [h] if the logger has it. *)
Definition removeHandler (h : nat) (s : logging_state) : logging_state :=
  if decide (h ∈ log_handlers s) then
    LoggingState (handler_objects s) (list_remove h (log_handlers s)) (printed s)
  else s.

Definition print (line : string) (s : logging_state) : logging_state :=
  LoggingState (handler_objects s) (log_handlers s) (printed s ++ [line]).

(** The closure [clear_handlers], for the list [handlers] it has captured. *)
Definition clear_handlers (handlers : list nat) (s : logging_state)
    : logging_state :=
  let s := foldl (fun s handler => removeHandler handler (close handler s))
             s handlers in
  print "Cleared all logging handlers" s.

Definition setup_logging_streams (model : logged_model)
    (log_to_file log_to_stdout : bool) (s : logging_state)
    : (logging_state -> logging_state) * logging_state :=
  let formatter :=
    LogFormatter "[%(name)s][%(asctime)s][%(levelname)s]: %(message)s"
                 "%m:%d:%Y:%I:%M:%S" in
  let handlers := [] in
  let '(handlers, s) :=
    if log_to_file then
      let '(fh, s) :=
        new_handler (FileTarget (os_path_join (log_dir model) "metrics.log")) s in
      let s := setLevel fh DEBUG s in
      let s := setFormatter fh formatter s in
      let s := addHandler fh s in
      let s := print ("Logging to " +:+ os_path_join (log_dir model) "metrics.log") s in
      (handlers ++ [fh], s)
    else (handlers, s) in
  let '(handlers, s) :=
    if log_to_stdout then
      let '(ch, s) := new_handler StdoutTarget s in
      let s := setLevel ch DEBUG s in
      let s := setFormatter ch formatter s in
      let s := addHandler ch s in
      let s := print "Logging to STDOUT" s in
      (handlers ++ [ch], s)
    else (handlers, s) in
  (clear_handlers handlers, s).

(** A logger knows only handlers that exist. *)
Definition logging_wf (s : logging_state) : Prop :=
  Forall (fun h => h ∈ dom (handler_objects s)) (log_handlers s).

(** ** What the loop of validate measures *)

Local Open Scope Qc_scope.

(** The measure of each batch when [validate] runs without augmented
    views: the loss of the batch, the number of predictions that equal the
    label, and the number of examples, for the state the network is in when
    the batch comes. *)
Fixpoint validate_measures {L : Type} (ops : learner_ops L)
    (criterion : criterion_fn) (l : L) (bs : list (tensor * tensor))
    : list measure :=
  match bs with
  | [] => []
  | (x, y) :: rest =>
      let '(output, l') := forward ops l x in
      let prediction :=
        match torch_argmax output with Ok p => p | Raise _ => scalar 0 end in
      Measure (default 0 (head (data (criterion output y))))
              (Qc_of_nat (count_equal prediction y))
              (hd 0%nat (shape y))
      :: validate_measures ops criterion l' rest
  end.

(** The weighted mean loss and the accuracy of a list of measures. *)
Definition mean_loss (ms : list measure) : Qc :=
  Qcsum ((fun m => m_loss m * Qc_of_nat (m_size m)) <$> ms)
  / Qc_of_nat (sum_list (m_size <$> ms)).
Definition accuracy (ms : list measure) : Qc :=
  Qcsum (m_correct <$> ms) / Qc_of_nat (sum_list (m_size <$> ms)).

(** ** Example logger *)

Definition example_logged_model : logged_model := LoggedModel "runs/exp".

(** A logger that already has one handler. *)
Definition example_logging_state : logging_state :=
  LoggingState {[ 0%nat := LogHandler StdoutTarget NOTSET None false ]} [0%nat] [].

(** ** Batches of a classifier *)

(** A batch of [n] labels, [n] not 0, for which the network, in whatever
    state, gives one score per example and class, [K] classes, and the
    criterion one number. *)
Definition scored_batch {L : Type} (ops : learner_ops L)
    (criterion : criterion_fn) (K : nat) (xy : tensor * tensor) : Prop :=
  wf xy.2 /\
  exists n, (0 < n)%nat /\ shape xy.2 = [n] /\
    forall l, shape (forward ops l xy.1).1 = [n; K] /\
              length (data (criterion (forward ops l xy.1).1 xy.2)) = 1%nat.

(** Three batches, the same one three times. *)
Definition example_loader3 : dataloader :=
  DataLoader [(example_x, example_y); (example_x, example_y); (example_x, example_y)] 6.

(** ** What the loop of train measures without mixup *)

(** The measure of each batch when [train] runs with [mixup] off: the mean
    of what the criterion gives for the batch, the number of predictions
    that equal the label, and the number of examples, for the states the
    generator and the network are in when the batch comes. *)
Fixpoint train_measures {G L : Type} (rng : rng_ops G) (ops : learner_ops L)
    (criterion : criterion_fn) (has_scheduler : bool) (g : G) (l : L)
    (bs : list (tensor * tensor)) : list measure :=
  match bs with
  | [] => []
  | (x, y) :: rest =>
      match mixup_data rng x y criterion 0 g with
      | Raise _ => []
      | Ok (m, g') =>
          let '(output, l1) := forward ops (zero_grad ops l) x in
          let prediction :=
            match torch_argmax output with Ok p => p | Raise _ => scalar 0 end in
          let l2 := backward_and_step ops l1 x (mixup_criterion m) in
          let l3 := if has_scheduler then scheduler_step ops l2 else l2 in
          Measure (Qcmean (data (criterion output y)))
                  (Qc_of_nat (count_equal prediction y))
                  (hd 0%nat (shape y))
          :: train_measures rng ops criterion has_scheduler g' l3 rest
      end
  end.

(** A batch of [n] images and [n] labels, [n] not 0, for which the network,
    in whatever state, gives one score per example and class, [K] classes,
    and the criterion at least one number. *)
Definition image_batch {L : Type} (ops : learner_ops L)
    (criterion : criterion_fn) (K : nat) (xy : tensor * tensor) : Prop :=
  wf xy.1 /\ wf xy.2 /\
  exists n rx, (0 < n)%nat /\ shape xy.1 = n :: rx /\ rx <> [] /\ shape xy.2 = [n] /\
    forall l, shape (forward ops l xy.1).1 = [n; K] /\
              data (criterion (forward ops l xy.1).1 xy.2) <> [].

(** Two examples of two features each. *)
Definition example_vectors : tensor := Tensor [2; 2]%nat [1; 2; 1 + 2; 2 + 2].

(* ===================================================================== *)
(** * Part II: properties *)
(* ===================================================================== *)

(** ** Row-major indexing *)

Lemma ravel_lt s idx : in_bounds s idx -> (ravel s idx < numel s)%nat.
Proof.
  unfold in_bounds. intros H.
  induction H as [|i d js r Hi _ IH]; simpl; [lia|nia].
Qed.

Lemma unravel_ravel s idx : in_bounds s idx -> unravel s (ravel s idx) = idx.
Proof.
  unfold in_bounds. intros H.
  induction H as [|i d js r Hi Hr IH]; simpl; [done|].
  pose proof (ravel_lt r js Hr) as Hlt.
  rewrite Nat.div_add_l by lia.
  rewrite (Nat.div_small (ravel r js)) by done.
  rewrite (Nat.add_comm (i * numel r)), Nat.Div0.mod_add, Nat.mod_small by done.
  by rewrite IH, Nat.add_0_r.
Qed.

Lemma numel_pos_of_lt s k : (k < numel (s))%nat -> forall d r, s = d :: r -> numel r <> 0%nat.
Proof. intros Hk d r ->. simpl in Hk. intros E. rewrite E in Hk. lia. Qed.

Lemma unravel_in_bounds s k : (k < numel s)%nat -> in_bounds s (unravel s k).
Proof.
  unfold in_bounds. revert k.
  induction s as [|d r IH]; intros k Hk; simpl; [constructor|].
  pose proof (numel_pos_of_lt _ _ Hk d r eq_refl) as Hr. simpl in Hk.
  constructor.
  - apply Nat.Div0.div_lt_upper_bound. lia.
  - apply IH. by apply Nat.mod_upper_bound.
Qed.

Lemma ravel_unravel s k : (k < numel s)%nat -> ravel s (unravel s k) = k.
Proof.
  revert k. induction s as [|d r IH]; intros k Hk; simpl; [simpl in Hk; lia|].
  pose proof (numel_pos_of_lt _ _ Hk d r eq_refl) as Hr.
  rewrite IH by (by apply Nat.mod_upper_bound).
  rewrite (Nat.div_mod_eq k (numel r)) at 3. lia.
Qed.

Lemma in_bounds_length s idx : in_bounds s idx -> length idx = length s.
Proof. apply Forall2_length. Qed.

(** ** Building and reading tensors *)

Lemma wf_build s f : wf (build s f).
Proof. unfold wf, build; simpl. by rewrite length_fmap, length_seq. Qed.

Lemma tnth_build s f idx : in_bounds s idx -> tnth (build s f) idx = f idx.
Proof.
  intros H. unfold tnth, build; simpl.
  rewrite list_lookup_fmap, lookup_seq_lt by (by apply ravel_lt). simpl.
  by rewrite unravel_ravel.
Qed.

Lemma tget_tnth t idx :
  wf t -> in_bounds (shape t) idx -> tget t idx = Some (tnth t idx).
Proof.
  intros Hw Hb. unfold tget, tnth. rewrite decide_True by done.
  destruct (lookup_lt_is_Some_2 (data t) (ravel (shape t) idx)) as [q ->]; [|done].
  rewrite Hw. by apply ravel_lt.
Qed.

Lemma tensor_ext a b :
  wf a -> wf b -> shape a = shape b ->
  (forall idx, in_bounds (shape a) idx -> tnth a idx = tnth b idx) -> a = b.
Proof.
  destruct a as [s da], b as [s' db]; unfold wf, tnth; simpl. intros Ha Hb <- H.
  f_equal. apply list_eq_same_length with (numel s); [done..|].
  intros k x y Hk Hx Hy.
  specialize (H (unravel s k) (unravel_in_bounds s k Hk)).
  rewrite ravel_unravel, Hx, Hy in H by done. done.
Qed.

Lemma build_ext s f g :
  (forall idx, in_bounds s idx -> f idx = g idx) -> build s f = build s g.
Proof.
  intros H. unfold build. f_equal. apply list_eq. intros k.
  rewrite !list_lookup_fmap.
  destruct (seq 0 (numel s) !! k) as [j|] eqn:E; simpl; [|done].
  apply lookup_seq in E as [-> Hlt]. f_equal. apply H.
  by apply unravel_in_bounds.
Qed.

(** Mapping over the data is building from the reads. *)
Lemma build_tnth t h :
  wf t -> build (shape t) (fun idx => h (tnth t idx)) = Tensor (shape t) (h <$> data t).
Proof.
  intros Hw. apply tensor_ext; simpl.
  - apply wf_build.
  - unfold wf; simpl. by rewrite length_fmap.
  - done.
  - intros idx Hb. rewrite tnth_build by done.
    unfold tnth at 2; simpl. rewrite list_lookup_fmap.
    unfold tnth.
    destruct (lookup_lt_is_Some_2 (data t) (ravel (shape t) idx)) as [q ->]; [|done].
    rewrite Hw. by apply ravel_lt.
Qed.

(** ** Broadcasting *)

Lemma broadcast_rev_nil_r r : broadcast_rev r [] = Some r.
Proof. by destruct r. Qed.

Lemma broadcast_shapes_nil_l s : broadcast_shapes [] s = Some s.
Proof. unfold broadcast_shapes. simpl. by rewrite reverse_involutive. Qed.

Lemma broadcast_shapes_nil_r s : broadcast_shapes s [] = Some s.
Proof.
  unfold broadcast_shapes. rewrite reverse_nil, broadcast_rev_nil_r. simpl.
  by rewrite reverse_involutive.
Qed.

Lemma broadcast_dim_refl a : broadcast_dim a a = Some a.
Proof. unfold broadcast_dim. by rewrite decide_True. Qed.

Lemma broadcast_dim_1_l a : broadcast_dim 1 a = Some a.
Proof.
  unfold broadcast_dim. destruct (decide (1%nat = a)) as [<-|]; [done|].
  by rewrite decide_True.
Qed.

Lemma broadcast_rev_refl r : broadcast_rev r r = Some r.
Proof.
  induction r as [|a r IH]; simpl; [done|]. by rewrite broadcast_dim_refl, IH.
Qed.

Lemma broadcast_shapes_refl s : broadcast_shapes s s = Some s.
Proof.
  unfold broadcast_shapes. rewrite broadcast_rev_refl. simpl.
  by rewrite reverse_involutive.
Qed.

(** The shape of the coefficients against a batch of images. *)
Lemma broadcast_shapes_lam_x n c h w :
  broadcast_shapes [n; 1; 1; 1]%nat [n; c; h; w] = Some [n; c; h; w].
Proof.
  unfold broadcast_shapes.
  change (reverse [n; 1; 1; 1]%nat) with [1; 1; 1; n]%nat.
  change (reverse [n; c; h; w]) with [w; h; c; n]. simpl.
  by rewrite !broadcast_dim_1_l, broadcast_dim_refl.
Qed.

Lemma bidx_same s idx : in_bounds s idx -> bidx s idx = idx.
Proof.
  intros H. unfold bidx. rewrite (in_bounds_length _ _ H), Nat.sub_diag, drop_0.
  unfold in_bounds in H. induction H as [|i d js r Hi _ IH]; simpl; [done|].
  rewrite IH. f_equal. case_decide; lia.
Qed.

Lemma bidx_lam_x n c h w i jc jh jw :
  in_bounds [n; c; h; w] [i; jc; jh; jw] ->
  bidx [n; 1; 1; 1]%nat [i; jc; jh; jw] = [i; 0; 0; 0]%nat.
Proof.
  intros H. unfold bidx; simpl. f_equal.
  apply Forall2_cons_1 in H as [Hi _]. case_decide; lia.
Qed.

Lemma tnth_scalar q idx : tnth (scalar q) idx = q.
Proof. unfold tnth, scalar; simpl. by destruct idx. Qed.

Lemma map2b_scalar_l op q b :
  wf b -> map2b op (scalar q) b = Ok (Tensor (shape b) (op q <$> data b)).
Proof.
  intros Hw. unfold map2b. simpl shape at 1. rewrite broadcast_shapes_nil_l.
  f_equal. rewrite <- (build_tnth b (op q) Hw). apply build_ext.
  intros idx Hb. by rewrite tnth_scalar, bidx_same.
Qed.

Lemma map2b_same_shape op a b :
  wf a -> wf b -> shape a = shape b ->
  map2b op a b = Ok (Tensor (shape a) (zip_with op (data a) (data b))).
Proof.
  intros Ha Hb Hs. unfold map2b. rewrite <- Hs, broadcast_shapes_refl. f_equal.
  apply tensor_ext; simpl.
  - apply wf_build.
  - unfold wf; simpl. rewrite length_zip_with. unfold wf in *. rewrite Ha, Hb, Hs. lia.
  - done.
  - intros idx Hi. rewrite tnth_build, bidx_same by done.
    unfold tnth; simpl. rewrite lookup_zip_with, <- Hs.
    pose proof (ravel_lt _ _ Hi) as Hlt.
    destruct (lookup_lt_is_Some_2 (data a) (ravel (shape a) idx)) as [u ->];
      [by rewrite Ha|].
    destruct (lookup_lt_is_Some_2 (data b) (ravel (shape a) idx)) as [v ->];
      [by rewrite Hb, <- Hs|].
    done.
Qed.

(** ** mixup_data *)

#[local] Arguments build : simpl never.
#[local] Arguments tnth : simpl never.
#[local] Arguments scalar : simpl never.
#[local] Arguments map2b : simpl never.
#[local] Arguments numel : simpl never.
#[local] Arguments new_axis : simpl never.
#[local] Arguments np_max : simpl never.
#[local] Arguments np_concatenate : simpl never.
#[local] Arguments unravel : simpl never.
#[local] Arguments ravel : simpl never.
#[local] Arguments fiber : simpl never.
#[local] Arguments Nat.div : simpl never.
#[local] Arguments Nat.modulo : simpl never.
#[local] Arguments tmul : simpl never.
#[local] Arguments tsub : simpl never.
#[local] Arguments tadd : simpl never.
#[local] Arguments teq : simpl never.
#[local] Arguments tmean : simpl never.
#[local] Arguments tsum : simpl never.
#[local] Arguments item : simpl never.
#[local] Arguments index_rows : simpl never.
#[local] Arguments index_rows_all : simpl never.

Ltac qc_to_q :=
  unfold Qcle, Qclt, Qcminus, Qcplus, Qcopp, Qcmult, Q2Qc in *; simpl in *;
  rewrite ?Qred_correct in *.

Lemma lam_of_bounds d : 0 <= d /\ d <= 1 -> Q2Qc (1 # 2) <= lam_of d /\ lam_of d <= 1.
Proof.
  intros [H0 H1]. unfold lam_of, Qcmax. case_decide as Hlt.
  - qc_to_q. split; Lqa.lra.
  - apply Qcnot_lt_le in Hlt. qc_to_q. split; Lqa.lra.
Qed.

Lemma bind_Ok {A B} (a : A) (f : A -> result B) : (Ok a ≫= f) = f a.
Proof. done. Qed.

Lemma new_axis_ok ax t :
  (ax <= rank t)%nat ->
  new_axis ax t = Ok (Tensor (insert_at ax 1%nat (shape t)) (data t)).
Proof. intros H. unfold new_axis. by rewrite decide_True. Qed.

Lemma tnth_data t idx v :
  data t !! ravel (shape t) idx = Some v -> tnth t idx = v.
Proof. unfold tnth. by intros ->. Qed.

(** Lines 24-28 compute, for each draw, the larger of the draw and its
    complement. *)
Lemma mixup_lam_eq n draws :
  length draws = n ->
  mixup_lam n draws = Ok (Tensor [n; 1; 1; 1]%nat (lam_of <$> draws)).
Proof.
  intros Hn. unfold mixup_lam.
  rewrite !new_axis_ok by (unfold rank; simpl; lia). rewrite !bind_Ok.
  change (insert_at 1 1%nat (shape (Tensor [n] draws))) with [n; 1]%nat.
  change (data (Tensor [n] draws)) with draws.
  set (col := Tensor [n; 1]%nat draws).
  assert (Hcol : wf col) by (unfold wf, numel; simpl; lia).
  unfold tsub. rewrite map2b_scalar_l by done. rewrite bind_Ok.
  set (comp := Tensor (shape col) (Qcminus 1 <$> data col)).
  unfold np_concatenate. simpl. case_decide; [|done]. simpl.
  match goal with |- context [build ?s ?f] => set (cat := build s f) end.
  unfold np_max. simpl.
  repeat (rewrite new_axis_ok by (unfold rank; simpl; lia); simpl).
  unfold insert_at; simpl. f_equal. f_equal.
  apply list_eq_same_length with n;
    [by rewrite length_fmap|rewrite length_fmap, length_seq; unfold numel; lia|].
  intros k u v Hk. rewrite !list_lookup_fmap.
  rewrite lookup_seq_lt by (unfold numel; lia). simpl.
  destruct (lookup_lt_is_Some_2 draws k) as [d Hd]; [lia|]. rewrite Hd. simpl.
  intros [= <-] [= <-]. change (numel []) with 1%nat. rewrite Nat.div_1_r.
  assert (Hb0 : in_bounds [n; 2]%nat [k; 0]%nat) by (repeat constructor; lia).
  assert (Hb1 : in_bounds [n; 2]%nat [k; 1]%nat) by (repeat constructor; lia).
  unfold cat. rewrite !tnth_build by done. simpl.
  assert (Hr : ravel [n; 1]%nat [k; 0]%nat = k) by (unfold ravel, numel; lia).
  rewrite (tnth_data col [k; 0]%nat d) by (simpl shape; by rewrite Hr).
  rewrite (tnth_data comp [k; 0]%nat (1 - d)).
  2:{ unfold comp. simpl shape. rewrite Hr. simpl. by rewrite list_lookup_fmap, Hd. }
  done.
Qed.

Lemma index_rows_spec t index n r :
  shape t = n :: r -> Forall (fun i => (i < n)%nat) index ->
  exists t', index_rows t index = Ok t' /\ shape t' = length index :: r /\ wf t' /\
    forall i j js, index !! i = Some j -> in_bounds r js ->
      tnth t' (i :: js) = tnth t (j :: js).
Proof.
  intros Hs Hall. unfold index_rows. rewrite Hs, decide_True by done.
  eexists. split; [done|]. split; [done|]. split; [apply wf_build|].
  intros i j js Hi Hjs. rewrite tnth_build.
  - by rewrite Hi.
  - constructor; [|done]. by apply lookup_lt_Some in Hi.
Qed.

Lemma permutation_of_range_bounds n index :
  permutation_of_range n index ->
  length index = n /\ Forall (fun i => (i < n)%nat) index.
Proof.
  unfold permutation_of_range. intros Hp. split.
  - by rewrite Hp, length_seq.
  - rewrite Hp. apply Forall_forall. intros i Hi.
    apply elem_of_seq in Hi. lia.
Qed.

Lemma fmap_Qcmult_1 (l : list Qc) : Qcmult 1 <$> l = l.
Proof.
  induction l as [|v l IH]; csimpl; [done|]. by rewrite IH, Qcmult_1_l.
Qed.

Lemma zip_with_plus_zeros (l1 l2 : list Qc) :
  length l2 = length l1 ->
  zip_with Qcplus l1 (Qcmult (1 - 1) <$> l2) = l1.
Proof.
  revert l2. induction l1 as [|v l1 IH]; intros [|u l2] Hl; csimpl in *; try done.
  rewrite IH by lia. f_equal. ring.
Qed.

Lemma tensor_eta t : Tensor (shape t) (data t) = t.
Proof. by destruct t. Qed.

Lemma tmul_one_l t : wf t -> tmul (scalar 1) t = Ok t.
Proof.
  intros Hw. unfold tmul. rewrite map2b_scalar_l by done.
  by rewrite fmap_Qcmult_1, tensor_eta.
Qed.

Lemma tsub_one_one : tsub (scalar 1) (scalar 1) = Ok (scalar (1 - 1)).
Proof. unfold tsub. by rewrite map2b_scalar_l. Qed.

Lemma tmul_zero_l t :
  wf t -> tmul (scalar (1 - 1)) t = Ok (Tensor (shape t) (Qcmult (1 - 1) <$> data t)).
Proof. intros Hw. unfold tmul. by rewrite map2b_scalar_l. Qed.

Lemma tadd_zeros a b :
  wf a -> wf b -> shape b = shape a ->
  tadd a (Tensor (shape b) (Qcmult (1 - 1) <$> data b)) = Ok a.
Proof.
  intros Ha Hb Hs. unfold tadd. rewrite map2b_same_shape; simpl.
  - rewrite zip_with_plus_zeros, tensor_eta; [done|].
    unfold wf in *. by rewrite Ha, Hb, Hs.
  - done.
  - unfold wf; simpl. by rewrite length_fmap.
  - done.
Qed.

(** What [mixup_data] returns when [alpha <= 0]. *)
Lemma mixup_data_without_mixing {G : Type} (rng : rng_ops G) (x y : tensor)
    (criterion : criterion_fn) (alpha : Qc) (g : G) (n : nat) (rx ry : list nat) :
  alpha <= 0 ->
  wf x -> shape x = n :: rx -> rx <> [] ->
  wf y -> shape y = n :: ry ->
  permutation_of_range n (torch_randperm rng n g).1 ->
  regular_loss criterion ->
  exists m, mixup_data rng x y criterion alpha g = Ok (m, (torch_randperm rng n g).2) /\
    lam m = scalar 1 /\ mixed_x m = x /\ y_a m = y /\
    (forall pred, mixup_criterion m pred = tmean (criterion pred y)) /\
    (forall pred, mixup_acc m pred = (e ← teq pred y; item (tsum e))).
Proof.
  intros Halpha Hx Hsx Hrx Hy Hsy Hperm Hcrit.
  apply permutation_of_range_bounds in Hperm as [Hlen Hall].
  unfold mixup_data, size0. rewrite Hsx, bind_Ok.
  rewrite decide_False by (by apply Qcle_not_lt). rewrite bind_Ok.
  destruct (torch_randperm rng n g) as [index g'] eqn:Hrp. cbn [fst snd] in *.
  destruct (index_rows_spec x index n rx Hsx Hall) as (xi & Hxi & Hsxi & Hwxi & _).
  destruct (index_rows_spec y index n ry Hsy Hall) as (yi & Hyi & Hsyi & Hwyi & _).
  rewrite Hlen in Hsxi, Hsyi.
  eexists. cbv beta iota.
  rewrite (tmul_one_l x), bind_Ok, tsub_one_one, bind_Ok by done.
  unfold index_rows_all. rewrite decide_True.
  2:{ unfold rank. rewrite Hsx. destruct rx; [done|]. simpl. lia. }
  rewrite Hxi, bind_Ok. rewrite (tmul_zero_l xi), bind_Ok by done.
  rewrite (tadd_zeros x xi), bind_Ok by (done || congruence).
  rewrite Hyi, bind_Ok.
  rewrite (tmul_one_l y), bind_Ok, bind_Ok by done.
  rewrite (tmul_zero_l yi), bind_Ok by done.
  rewrite (tadd_zeros y yi), bind_Ok by (done || congruence).
  split; [done|]. cbn [lam mixed_x y_a mixup_criterion mixup_acc].
  repeat (split; [done|]). split; [|done].
  intros pred. destruct (Hcrit pred y yi) as [Hw1 Hs1].
  destruct (Hcrit pred yi y) as [Hw2 Hs2].
  rewrite tmul_one_l, bind_Ok, bind_Ok by done.
  rewrite tmul_zero_l, bind_Ok by done.
  by rewrite tadd_zeros, bind_Ok by done.
Qed.

(** C8: with [alpha <= 0] (and so with the 0 that [train] passes when
    [mixup] is off) [mixup_data] takes the coefficient 1: on a well-formed
    batch it returns the inputs [x] unchanged, [y] as first target, and a
    [mixup_criterion] that is the plain mean of [criterion(pred, y)]. *)
Theorem mixup_data_identity {G : Type} (rng : rng_ops G) (x y : tensor)
    (criterion : criterion_fn) (alpha : Qc) (g : G) (n : nat) (rx ry : list nat) :
  alpha <= 0 ->
  wf x -> shape x = n :: rx -> rx <> [] ->
  wf y -> shape y = n :: ry ->
  permutation_of_range n (torch_randperm rng n g).1 ->
  regular_loss criterion ->
  exists m, mixup_data rng x y criterion alpha g = Ok (m, (torch_randperm rng n g).2) /\
    lam m = scalar 1 /\ mixed_x m = x /\ y_a m = y /\
    forall pred, mixup_criterion m pred = tmean (criterion pred y).
Proof.
  intros Halpha Hx Hsx Hrx Hy Hsy Hperm Hcrit.
  destruct (mixup_data_without_mixing rng x y criterion alpha g n rx ry)
    as (m & Hm & Hlam & Hmx & Hya & Hc & _); try done.
  by exists m.
Qed.

Lemma map2b_ok op a b s :
  broadcast_shapes (shape a) (shape b) = Some s ->
  map2b op a b =
    Ok (build s (fun idx =>
          op (tnth a (bidx (shape a) idx)) (tnth b (bidx (shape b) idx)))).
Proof. intros Hs. unfold map2b. by rewrite Hs. Qed.

Lemma map2b_scalar_r op a q :
  wf a -> map2b op a (scalar q) = Ok (Tensor (shape a) ((fun v => op v q) <$> data a)).
Proof.
  intros Hw. unfold map2b. simpl shape at 2. rewrite broadcast_shapes_nil_r.
  f_equal. rewrite <- (build_tnth a (fun v => op v q) Hw). apply build_ext.
  intros idx Hb. by rewrite tnth_scalar, bidx_same.
Qed.

Lemma broadcast_shapes_lam_y n :
  broadcast_shapes [n; 1; 1; 1]%nat [n] = Some [n; 1; 1; n]%nat.
Proof.
  unfold broadcast_shapes.
  change (reverse [n; 1; 1; 1]%nat) with [1; 1; 1; n]%nat.
  change (reverse [n]) with [n]. simpl.
  by rewrite broadcast_dim_1_l.
Qed.

Lemma numel_lam n : numel [n; 1; 1; 1]%nat = n.
Proof. unfold numel. lia. Qed.

Lemma wf_lam n (l : list Qc) : length l = n -> wf (Tensor [n; 1; 1; 1]%nat l).
Proof. intros H. unfold wf. simpl. by rewrite numel_lam. Qed.

Lemma tnth_lam n (l : list Qc) i v :
  l !! i = Some v -> tnth (Tensor [n; 1; 1; 1]%nat l) [i; 0; 0; 0]%nat = v.
Proof.
  intros H. apply tnth_data. simpl shape. simpl data.
  replace (ravel [n; 1; 1; 1]%nat [i; 0; 0; 0]%nat) with i; [done|].
  unfold ravel, numel. lia.
Qed.

Lemma Qcsum_interpolate (l : list Qc) ca cb :
  Qcsum (zip_with Qcplus ((fun v => v * ca) <$> l)
                         ((fun v => v * cb) <$> (Qcminus 1 <$> l)))
  = Qcsum ((fun v => v * ca + (1 - v) * cb) <$> l).
Proof. induction l as [|v l IH]; csimpl; [done|]. by rewrite IH. Qed.

(** What [mixup_data] returns when [alpha > 0], on a batch of images. *)
Lemma mixup_data_with_mixing {G : Type} (rng : rng_ops G) (x y : tensor)
    (criterion : criterion_fn) (alpha : Qc) (g g1 g2 : G) (n c h w : nat)
    (draws : list Qc) (index : list nat) :
  0 < alpha ->
  wf x -> shape x = [n; c; h; w] -> wf y -> shape y = [n] -> (0 < n)%nat ->
  np_random_beta rng alpha alpha n g = (draws, g1) -> length draws = n ->
  torch_randperm rng n g1 = (index, g2) -> permutation_of_range n index ->
  exists m, mixup_data rng x y criterion alpha g = Ok (m, g2) /\
    lam m = Tensor [n; 1; 1; 1]%nat (lam_of <$> draws) /\
    shape (mixed_x m) = [n; c; h; w] /\
    (forall i j jc jh jw l xa xb,
       (lam_of <$> draws) !! i = Some l -> index !! i = Some j ->
       tget x [i; jc; jh; jw] = Some xa -> tget x [j; jc; jh; jw] = Some xb ->
       tget (mixed_x m) [i; jc; jh; jw] = Some (l * xa + (1 - l) * xb)) /\
    y_a m = y /\
    shape (y_b m) = [n] /\
    (forall i j, index !! i = Some j -> tget (y_b m) [i] = tget y [j]) /\
    (forall pred,
       mixup_criterion m pred =
         (u ← tmul (lam m) (criterion pred (y_a m));
          oml ← tsub (scalar 1) (lam m);
          v ← tmul oml (criterion pred (y_b m));
          s ← tadd u v; tmean s)) /\
    (forall pred ca cb,
       criterion pred (y_a m) = scalar ca -> criterion pred (y_b m) = scalar cb ->
       mixup_criterion m pred =
         Ok (scalar (Qcmean ((fun l => l * ca + (1 - l) * cb) <$> (lam_of <$> draws))))) /\
    (exists mixed_y,
       shape mixed_y = [n; 1; 1; n]%nat /\ wf mixed_y /\
       (forall pred, mixup_acc m pred = (e ← teq pred mixed_y; item (tsum e))) /\
       (forall i j l ya yb,
          (lam_of <$> draws) !! i = Some l ->
          tget y [j] = Some ya -> tget (y_b m) [j] = Some yb ->
          tget mixed_y [i; 0; 0; j]%nat = Some (l * ya + (1 - l) * yb))).
Proof.
  intros Halpha Hx Hsx Hy Hsy Hn Hbeta Hdl Hrp Hperm.
  apply permutation_of_range_bounds in Hperm as [Hlen Hall].
  set (lams := lam_of <$> draws).
  assert (Hll : length lams = n) by (unfold lams; by rewrite length_fmap).
  set (L := Tensor [n; 1; 1; 1]%nat lams).
  assert (HwL : wf L) by (by apply wf_lam).
  set (OML := Tensor [n; 1; 1; 1]%nat (Qcminus 1 <$> lams)).
  assert (HwO : wf OML) by (apply wf_lam; by rewrite length_fmap).
  destruct (index_rows_spec x index n [c; h; w] Hsx Hall)
    as (xi & Hxi & Hsxi & Hwxi & Hxi_at).
  destruct (index_rows_spec y index n [] Hsy Hall)
    as (yi & Hyi & Hsyi & Hwyi & Hyi_at).
  rewrite Hlen in Hsxi, Hsyi.
  unfold mixup_data, size0. rewrite Hsx, bind_Ok, decide_True, Hbeta by done.
  rewrite mixup_lam_eq by done. fold lams. fold L. rewrite !bind_Ok, Hrp.
  cbv beta iota. unfold tmul, tsub, tadd.
  rewrite (map2b_ok Qcmult L x [n; c; h; w]), bind_Ok
    by (rewrite Hsx; apply broadcast_shapes_lam_x).
  set (A := build [n; c; h; w] _).
  rewrite (map2b_scalar_l Qcminus 1 L), bind_Ok by done.
  change (Tensor (shape L) (Qcminus 1 <$> data L)) with OML.
  unfold index_rows_all. rewrite decide_True by (unfold rank; rewrite Hsx; simpl; lia).
  rewrite Hxi, bind_Ok.
  rewrite (map2b_ok Qcmult OML xi [n; c; h; w]), bind_Ok
    by (rewrite Hsxi; apply broadcast_shapes_lam_x).
  set (B := build [n; c; h; w] _).
  rewrite (map2b_ok Qcplus A B [n; c; h; w]), bind_Ok by apply broadcast_shapes_refl.
  set (M := build [n; c; h; w] _).
  rewrite Hyi, bind_Ok.
  rewrite (map2b_ok Qcmult L y [n; 1; 1; n]%nat), bind_Ok
    by (rewrite Hsy; apply broadcast_shapes_lam_y).
  set (P := build [n; 1; 1; n]%nat _).
  rewrite bind_Ok.
  rewrite (map2b_ok Qcmult OML yi [n; 1; 1; n]%nat), bind_Ok
    by (rewrite Hsyi; apply broadcast_shapes_lam_y).
  set (Q := build [n; 1; 1; n]%nat _).
  rewrite (map2b_ok Qcplus P Q [n; 1; 1; n]%nat), bind_Ok by apply broadcast_shapes_refl.
  set (MY := build [n; 1; 1; n]%nat _).
  eexists. split; [done|]. cbn [lam mixed_x y_a y_b mixup_criterion mixup_acc].
  split; [done|]. split; [done|]. split.
  { intros i j jc jh jw l xa xb Hl Hj Ha Hb.
    unfold tget in Ha, Hb. rewrite Hsx in Ha, Hb.
    destruct (decide (in_bounds [n; c; h; w] [i; jc; jh; jw])) as [Hbi|]; [|done].
    destruct (decide (in_bounds [n; c; h; w] [j; jc; jh; jw])) as [Hbj|]; [|done].
    assert (Hjs : in_bounds [c; h; w] [jc; jh; jw]) by (by apply Forall2_cons_1 in Hbi as [_ ?]).
    rewrite tget_tnth by (apply wf_build || done).
    f_equal. unfold M. rewrite tnth_build by done.
    change (shape A) with [n; c; h; w]. change (shape B) with [n; c; h; w].
    rewrite bidx_same by done.
    unfold A, B. rewrite !tnth_build by done.
    change (shape L) with [n; 1; 1; 1]%nat. change (shape OML) with [n; 1; 1; 1]%nat.
    rewrite Hsx, Hsxi, (bidx_lam_x n c h w) by done. rewrite bidx_same by done.
    unfold L, OML. rewrite (tnth_lam n lams i l) by done.
    rewrite (tnth_lam n _ i (1 - l)) by (by rewrite list_lookup_fmap, Hl).
    rewrite (Hxi_at i j [jc; jh; jw]) by done.
    rewrite (tnth_data x [i; jc; jh; jw] xa), (tnth_data x [j; jc; jh; jw] xb)
      by (by rewrite Hsx).
    done. }
  split; [done|]. split; [done|]. split.
  { intros i j Hj.
    assert (Hi : (i < n)%nat) by (apply lookup_lt_Some in Hj; lia).
    assert (Hjn : (j < n)%nat).
    { rewrite Forall_forall in Hall. apply Hall. by eapply list_elem_of_lookup_2. }
    rewrite !tget_tnth; [|done|rewrite Hsy; repeat constructor; lia
                         |done|rewrite Hsyi; repeat constructor; lia].
    f_equal. apply Hyi_at; [done|constructor]. }
  split.
  { intros pred. unfold tmul, tsub, tadd.
    by rewrite (map2b_scalar_l Qcminus 1 L) by done. }
  split.
  2:{ exists MY. split; [done|]. split; [apply wf_build|]. split; [done|].
      intros i j l ya yb Hl Ha Hb.
      assert (Hi : (i < n)%nat) by (apply lookup_lt_Some in Hl; lia).
      unfold tget in Ha, Hb. rewrite Hsy in Ha. rewrite Hsyi in Hb.
      destruct (decide (in_bounds [n] [j])) as [Hbj|]; [|done].
      assert (Hj : (j < n)%nat) by (by apply Forall2_cons_1 in Hbj as [? _]).
      assert (Hidx : in_bounds [n; 1; 1; n]%nat [i; 0; 0; j]%nat)
        by (repeat constructor; lia).
      rewrite tget_tnth by (apply wf_build || done). f_equal.
      unfold MY. rewrite tnth_build by done.
      change (shape P) with [n; 1; 1; n]%nat. change (shape Q) with [n; 1; 1; n]%nat.
      rewrite bidx_same by done.
      unfold P, Q. rewrite !tnth_build by done.
      change (shape L) with [n; 1; 1; 1]%nat. change (shape OML) with [n; 1; 1; 1]%nat.
      rewrite Hsy, Hsyi, (bidx_lam_x n 1 1 n) by done.
      replace (bidx [n] [i; 0; 0; j]%nat) with [j]
        by (unfold bidx; simpl; case_decide; [f_equal; lia|done]).
      unfold L, OML. rewrite (tnth_lam n lams i l) by done.
      rewrite (tnth_lam n _ i (1 - l)) by (by rewrite list_lookup_fmap, Hl).
      rewrite (tnth_data y [j] ya), (tnth_data yi [j] yb)
        by (by rewrite ?Hsy, ?Hsyi).
      done. }
  intros pred ca cb Ha Hb. rewrite Ha, Hb.
  rewrite (map2b_scalar_r Qcmult L ca), bind_Ok by done.
  rewrite bind_Ok.
  rewrite (map2b_scalar_r Qcmult _ cb), bind_Ok
    by (unfold wf; simpl; by rewrite length_fmap, numel_lam).
  rewrite map2b_same_shape, bind_Ok;
    [|unfold wf; simpl; by rewrite length_fmap, numel_lam
     |unfold wf; simpl; by rewrite !length_fmap, numel_lam|done].
  unfold tmean. simpl shape. rewrite numel_lam, decide_False by lia.
  simpl data. rewrite Qcsum_interpolate. unfold Qcmean.
  by rewrite length_fmap, Hll.
Qed.

(** What [mixup_data] does for [alpha > 0] on a batch of [n] images with
    their labels: it returns [lam * x + (1 - lam) * x[index]] read example by
    example with the coefficient of that example, and the targets [y] and
    [y[index]] for the one permutation [index] it drew.  Its
    [mixup_criterion] is the mean of
    [lam * criterion(pred, y_a) + (1 - lam) * criterion(pred, y_b)] as
    broadcasting reads it, where the coefficients have the shape
    [(n, 1, 1, 1)]: for a loss of one number that is the mean over the
    coefficients of the batch, and not the coefficient of each example on the
    loss of that example. *)
Theorem mixup_data_interpolates {G : Type} (rng : rng_ops G) (x y : tensor)
    (criterion : criterion_fn) (alpha : Qc) (g g1 g2 : G) (n c h w : nat)
    (draws : list Qc) (index : list nat) :
  0 < alpha ->
  wf x -> shape x = [n; c; h; w] -> wf y -> shape y = [n] -> (0 < n)%nat ->
  np_random_beta rng alpha alpha n g = (draws, g1) -> length draws = n ->
  torch_randperm rng n g1 = (index, g2) -> permutation_of_range n index ->
  exists m, mixup_data rng x y criterion alpha g = Ok (m, g2) /\
    lam m = Tensor [n; 1; 1; 1]%nat (lam_of <$> draws) /\
    shape (mixed_x m) = [n; c; h; w] /\
    (forall i j jc jh jw l xa xb,
       (lam_of <$> draws) !! i = Some l -> index !! i = Some j ->
       tget x [i; jc; jh; jw] = Some xa -> tget x [j; jc; jh; jw] = Some xb ->
       tget (mixed_x m) [i; jc; jh; jw] = Some (l * xa + (1 - l) * xb)) /\
    y_a m = y /\
    shape (y_b m) = [n] /\
    (forall i j, index !! i = Some j -> tget (y_b m) [i] = tget y [j]) /\
    (forall pred,
       mixup_criterion m pred =
         (u ← tmul (lam m) (criterion pred (y_a m));
          oml ← tsub (scalar 1) (lam m);
          v ← tmul oml (criterion pred (y_b m));
          s ← tadd u v; tmean s)) /\
    (forall pred ca cb,
       criterion pred (y_a m) = scalar ca -> criterion pred (y_b m) = scalar cb ->
       mixup_criterion m pred =
         Ok (scalar (Qcmean ((fun l => l * ca + (1 - l) * cb) <$> (lam_of <$> draws))))).
Proof.
  intros Halpha Hx Hsx Hy Hsy Hn Hbeta Hdl Hrp Hperm.
  destruct (mixup_data_with_mixing rng x y criterion alpha g g1 g2 n c h w
              draws index)
    as (m & Hm & Hlam & Hs & Hat & Hya & Hsb & Hyb & Heq & Hcrit & _); try done.
  exists m. repeat (split; [done|]). done.
Qed.

(** C9: for [alpha > 0] every coefficient [mixup_data] returns is the
    larger of a Beta draw and its complement, hence lies between 1/2 and 1. *)
Theorem mixup_lam_at_least_half {G : Type} (rng : rng_ops G) (x y : tensor)
    (criterion : criterion_fn) (alpha : Qc) (g g1 g' : G) (n : nat)
    (draws : list Qc) (m : mixup) :
  0 < alpha -> size0 x = Ok n ->
  np_random_beta rng alpha alpha n g = (draws, g1) -> beta_sample n draws ->
  mixup_data rng x y criterion alpha g = Ok (m, g') ->
  lam m = Tensor [n; 1; 1; 1]%nat (lam_of <$> draws) /\
  Forall (fun l => Q2Qc (1 # 2) <= l /\ l <= 1) (data (lam m)).
Proof.
  intros Halpha Hn Hbeta [Hlen Hunit] Hrun.
  assert (Hlam : lam m = Tensor [n; 1; 1; 1]%nat (lam_of <$> draws)).
  { unfold mixup_data in Hrun.
    rewrite Hn, bind_Ok, decide_True, Hbeta, mixup_lam_eq, !bind_Ok in Hrun by done.
    destruct (torch_randperm rng n g1) as [index g2].
    repeat match type of Hrun with
           | (?e ≫= _) = Ok _ =>
               destruct e as [?|?]; [rewrite bind_Ok in Hrun|discriminate Hrun]
           end.
    by injection Hrun as <- _. }
  split; [done|]. rewrite Hlam. simpl data.
  apply Forall_fmap. eapply Forall_impl; [exact Hunit|].
  intros d Hd. by apply lam_of_bounds.
Qed.

Lemma mixup_lam_at_least_half_witness :
  exists m g',
    mixup_data example_rng example_x example_y example_criterion
      (Q2Qc (4 # 10)) 0%nat = Ok (m, g') /\
    lam m = Tensor [2; 1; 1; 1]%nat (lam_of <$> [Q2Qc (3 # 10); Q2Qc (9 # 10)]) /\
    Forall (fun l => Q2Qc (1 # 2) <= l /\ l <= 1) (data (lam m)).
Proof.
  destruct (mixup_data example_rng example_x example_y example_criterion
              (Q2Qc (4 # 10)) 0%nat) as [[m g']|e] eqn:E.
  - exists m, g'. split; [done|].
    apply (mixup_lam_at_least_half example_rng example_x example_y
             example_criterion (Q2Qc (4 # 10)) 0%nat 1%nat g' 2
             [Q2Qc (3 # 10); Q2Qc (9 # 10)] m).
    + vm_compute. reflexivity.
    + reflexivity.
    + reflexivity.
    + split; [reflexivity|]. repeat constructor; vm_compute; discriminate.
    + exact E.
  - exfalso. vm_compute in E. discriminate E.
Defined.

Lemma mixup_data_interpolates_witness :
  exists m,
    mixup_data example_rng example_x example_y example_criterion
      (Q2Qc (4 # 10)) 0%nat = Ok (m, 2%nat) /\
    lam m = Tensor [2; 1; 1; 1]%nat [Q2Qc (7 # 10); Q2Qc (9 # 10)] /\
    tget (mixed_x m) [0; 0; 0; 1]%nat = Some (Q2Qc (13 # 5)) /\
    y_a m = example_y /\
    shape (y_b m) = [2]%nat.
Proof.
  destruct (mixup_data_interpolates example_rng example_x example_y
              example_criterion (Q2Qc (4 # 10)) 0%nat 1%nat 2%nat 2 1 1 2
              [Q2Qc (3 # 10); Q2Qc (9 # 10)] [1; 0]%nat)
    as (m & Hm & Hlam & Hs & Hat & Hya & Hsb & Hyb & Heq & Hcrit).
  - vm_compute. reflexivity.
  - reflexivity.
  - reflexivity.
  - reflexivity.
  - reflexivity.
  - lia.
  - reflexivity.
  - reflexivity.
  - reflexivity.
  - unfold permutation_of_range. simpl. apply perm_swap.
  - exists m. split; [exact Hm|]. split.
    { rewrite Hlam. compute_done. }
    split; [|split; [exact Hya|exact Hsb]].
    rewrite (Hat 0%nat 1%nat 0%nat 0%nat 1%nat (lam_of (Q2Qc (3 # 10))) 2 (2 + 2))
      by reflexivity.
    compute_done.
Defined.

(** C1, at an input where the code departs from it: a batch of two images
    with the labels 0 and 1, the coefficients 7/10 and 9/10, the permutation
    that swaps the two examples, and a loss per example (the squared error,
    not reduced).  For the prediction [0, 0] the two examples have the losses
    0 and 1 against their own labels and 1 and 0 against their partners'.
    The coefficients, of shape [(2, 1, 1, 1)], do not line up with the
    losses, of shape [(2)]: [mixup_criterion] takes the mean over the four
    pairs of a coefficient and an example and returns 1/2.  With the
    coefficient of each example on the losses of that example, as on its
    image, the mean is 3/5. *)
Theorem mixup_criterion_mixes_all_pairs :
  let y := Tensor [2]%nat [0; 1] in
  let pred := Tensor [2]%nat [0; 0] in
  exists m,
    mixup_data example_rng example_x y example_squared_error (Q2Qc (4 # 10)) 0%nat
      = Ok (m, 2%nat) /\
    lam m = Tensor [2; 1; 1; 1]%nat [Q2Qc (7 # 10); Q2Qc (9 # 10)] /\
    y_a m = y /\
    y_b m = Tensor [2]%nat [1; 0] /\
    example_squared_error pred (y_a m) = Tensor [2]%nat [0; 1] /\
    example_squared_error pred (y_b m) = Tensor [2]%nat [1; 0] /\
    mixup_criterion m pred = Ok (scalar (Q2Qc (1 # 2))) /\
    Qcmean (zip_with (fun l ab => l * ab.1 + (1 - l) * ab.2)
              (data (lam m))
              (zip (data (example_squared_error pred (y_a m)))
                   (data (example_squared_error pred (y_b m)))))
      = Q2Qc (3 # 5).
Proof.
  intros y pred.
  assert (H : (pm ← mixup_data example_rng example_x y example_squared_error
                      (Q2Qc (4 # 10)) 0%nat;
               loss ← mixup_criterion pm.1 pred;
               Ok (lam pm.1, y_a pm.1, y_b pm.1, loss, pm.2))
              = Ok (Tensor [2; 1; 1; 1]%nat [Q2Qc (7 # 10); Q2Qc (9 # 10)], y,
                    Tensor [2]%nat [1; 0], scalar (Q2Qc (1 # 2)), 2%nat))
    by compute_done.
  destruct (mixup_data example_rng example_x y example_squared_error
              (Q2Qc (4 # 10)) 0%nat) as [[m g]|e] eqn:E; [|discriminate H].
  rewrite bind_Ok in H. cbn [fst snd] in H.
  destruct (mixup_criterion m pred) as [loss|e] eqn:Ec; [|discriminate H].
  rewrite bind_Ok in H. injection H as Hlam Hya Hyb -> ->.
  exists m. rewrite Hlam, Hya, Hyb. split; [reflexivity|].
  repeat split; (exact Ec || compute_done).
Qed.

Lemma mixup_data_identity_witness :
  exists m,
    mixup_data example_rng example_x example_y example_criterion 0 0%nat
      = Ok (m, 1%nat) /\
    lam m = scalar 1 /\ mixed_x m = example_x /\ y_a m = example_y /\
    forall pred, mixup_criterion m pred = tmean (example_criterion pred example_y).
Proof.
  apply (mixup_data_identity example_rng example_x example_y example_criterion
           0 0%nat 2 [1; 1; 2]%nat []).
  - vm_compute. discriminate.
  - reflexivity.
  - reflexivity.
  - discriminate.
  - reflexivity.
  - reflexivity.
  - unfold permutation_of_range. simpl. apply perm_swap.
  - intros pred t1 t2. split; reflexivity.
Defined.

(** ** Test-time augmentation *)

#[local] Arguments view : simpl never.
#[local] Arguments select : simpl never.
#[local] Arguments narrow : simpl never.
#[local] Arguments mean_axis : simpl never.

Lemma filter_known_of_nat (r : list nat) :
  filter (fun d => d ≠ (-1)%Z) (Z.of_nat <$> r) = Z.of_nat <$> r.
Proof.
  induction r as [|d r IH]; csimpl; [done|].
  rewrite filter_cons_True by lia. by rewrite IH.
Qed.

Lemma to_nat_of_nat_fmap (r : list nat) : Z.to_nat <$> (Z.of_nat <$> r) = r.
Proof.
  induction r as [|d r IH]; csimpl; [done|]. by rewrite IH, Nat2Z.id.
Qed.

Lemma Forall_nonneg_of_nat (r : list nat) : Forall (fun d => (0 <= d)%Z) (Z.of_nat <$> r).
Proof. apply Forall_fmap, Forall_forall. intros d _. simpl. lia. Qed.

Lemma view_shape_infer_first total r :
  numel r <> 0%nat -> (total mod numel r = 0)%nat ->
  view_shape total ((-1)%Z :: (Z.of_nat <$> r)) = Some ((total / numel r)%nat :: r).
Proof.
  intros Hp Hm. unfold view_shape.
  rewrite filter_cons_False by (intros H; by apply H).
  rewrite filter_known_of_nat, to_nat_of_nat_fmap.
  rewrite decide_True by apply Forall_nonneg_of_nat.
  rewrite length_cons, length_fmap.
  replace (S (length r) - length r)%nat with 1%nat by lia.
  cbv beta iota. rewrite decide_True by (split; done). csimpl.
  do 2 f_equal.
  transitivity ((fun d => d) <$> r); [|by rewrite list_fmap_id].
  rewrite <- list_fmap_compose. apply list_fmap_ext. intros _ d _. simpl.
  rewrite decide_False by lia. apply Nat2Z.id.
Qed.

Lemma view_shape_infer_last total r :
  numel r <> 0%nat -> (total mod numel r = 0)%nat ->
  view_shape total ((Z.of_nat <$> r) ++ [(-1)%Z]) = Some (r ++ [(total / numel r)%nat]).
Proof.
  intros Hp Hm. unfold view_shape.
  rewrite filter_app, filter_known_of_nat.
  rewrite filter_cons_False by (intros H; by apply H).
  rewrite filter_nil, app_nil_r, to_nat_of_nat_fmap.
  rewrite decide_True by apply Forall_nonneg_of_nat.
  rewrite length_app, length_fmap. simpl length.
  replace (length r + 1 - length r)%nat with 1%nat by lia.
  cbv beta iota. rewrite decide_True by (split; done).
  rewrite fmap_app. csimpl. do 2 f_equal.
  transitivity ((fun d => d) <$> r); [|by rewrite list_fmap_id].
  rewrite <- list_fmap_compose. apply list_fmap_ext. intros _ d _. simpl.
  rewrite decide_False by lia. apply Nat2Z.id.
Qed.

Lemma view_ok t dims s :
  view_shape (length (data t)) dims = Some s -> view t dims = Ok (Tensor s (data t)).
Proof. intros H. unfold view. by rewrite H. Qed.

Lemma select_ok ax j t d :
  shape t !! ax = Some d -> (j < d)%nat ->
  select ax j t =
    Ok (build (delete ax (shape t)) (fun idx => tnth t (insert_at ax j idx))).
Proof. intros H Hj. unfold select. by rewrite H, decide_True. Qed.

Lemma narrow_ok ax n t d :
  shape t !! ax = Some d ->
  narrow ax n t = Ok (build (<[ax := (n `min` d)%nat]> (shape t)) (tnth t)).
Proof. intros H. unfold narrow. by rewrite H. Qed.

Lemma mean_axis_ok ax t d :
  shape t !! ax = Some d -> d <> 0%nat ->
  mean_axis ax t =
    Ok (build (delete ax (shape t)) (fun idx =>
          Qcsum (fiber t ax d idx) / Qc_of_nat d)).
Proof. intros H Hd. unfold mean_axis. by rewrite H, decide_False. Qed.

(** Row [b * n_aug + a] of the flat batch is view [a] of example [b]. *)
Lemma tnth_view_rows (d : list Qc) bs n_aug K b a k :
  tnth (Tensor [bs; n_aug; K] d) [b; a; k] =
  tnth (Tensor [(bs * n_aug)%nat; K] d) [(b * n_aug + a)%nat; k].
Proof.
  unfold tnth. simpl shape. simpl data. f_equal. f_equal.
  unfold ravel, numel. lia.
Qed.

Lemma tta_output_value {L : Type} (ops : learner_ops L) (l l' : L)
    (x out : tensor) (tta_mixing : Qc) (bs n_aug c h w K : nat) :
  wf x -> shape x = [bs; n_aug; c; h; w] ->
  (0 < bs)%nat -> (2 <= n_aug)%nat -> (0 < c * h * w)%nat ->
  forward ops l (Tensor [(bs * n_aug)%nat; c; h; w] (data x)) = (out, l') ->
  wf out -> shape out = [(bs * n_aug)%nat; K] ->
  exists output,
    tta_output ops l x tta_mixing = Ok (output, l') /\
    shape output = [bs; K] /\
    forall b k, (b < bs)%nat -> (k < K)%nat ->
      tget output [b; k] =
        Some ((1 - tta_mixing) * tnth out [(b * n_aug + (n_aug - 1))%nat; k]
              + tta_mixing *
                Qcmean ((fun a => tnth out [(b * n_aug + a)%nat; k])
                          <$> seq 0 (n_aug - 1))).
Proof.
  intros Hx Hsx Hbs Haug Hchw Hfw Hout Hsout.
  unfold tta_output. rewrite Hsx.
  assert (Hlx : length (data x) = (bs * n_aug * numel [c; h; w])%nat).
  { unfold wf in Hx. rewrite Hx, Hsx. unfold numel. lia. }
  assert (Hp : numel [c; h; w] <> 0%nat) by (unfold numel; nia).
  rewrite (view_ok x _ [(bs * n_aug)%nat; c; h; w]), bind_Ok, Hfw.
  2:{ change [(-1)%Z; Z.of_nat c; Z.of_nat h; Z.of_nat w]
        with ((-1)%Z :: (Z.of_nat <$> [c; h; w])).
      rewrite view_shape_infer_first by (done || (rewrite Hlx; apply Nat.Div0.mod_mul)).
      by rewrite Hlx, Nat.div_mul by done. }
  assert (Hlo : length (data out) = (K * numel [bs; n_aug])%nat).
  { unfold wf in Hout. rewrite Hout, Hsout. unfold numel. lia. }
  assert (Hq : numel [bs; n_aug] <> 0%nat) by (unfold numel; nia).
  rewrite (view_ok out _ [bs; n_aug; K]), bind_Ok.
  2:{ change [Z.of_nat bs; Z.of_nat n_aug; (-1)%Z]
        with ((Z.of_nat <$> [bs; n_aug]) ++ [(-1)%Z]).
      rewrite view_shape_infer_last by (done || (rewrite Hlo; apply Nat.Div0.mod_mul)).
      by rewrite Hlo, Nat.div_mul by done. }
  set (O3 := Tensor [bs; n_aug; K] (data out)).
  rewrite (select_ok 1 (n_aug - 1) O3 n_aug), bind_Ok by (done || lia).
  change (delete 1%nat (shape O3)) with [bs; K].
  set (last := build [bs; K] _).
  unfold tmul.
  rewrite (map2b_ok Qcmult _ last [bs; K]), bind_Ok by apply broadcast_shapes_nil_l.
  set (A := build [bs; K] _).
  rewrite (narrow_ok 1 (n_aug - 1) O3 n_aug), bind_Ok by done.
  change (<[1%nat := ((n_aug - 1) `min` n_aug)%nat]> (shape O3))
    with [bs; ((n_aug - 1) `min` n_aug)%nat; K].
  replace ((n_aug - 1) `min` n_aug)%nat with (n_aug - 1)%nat by lia.
  set (rest := build [bs; (n_aug - 1)%nat; K] _).
  rewrite (mean_axis_ok 1 rest (n_aug - 1)), bind_Ok by (done || lia).
  change (delete 1%nat (shape rest)) with [bs; K].
  set (rest_mean := build [bs; K] _).
  rewrite (map2b_ok Qcmult _ rest_mean [bs; K]), bind_Ok by apply broadcast_shapes_nil_l.
  set (B := build [bs; K] _).
  unfold tadd. rewrite (map2b_ok Qcplus A B [bs; K]), bind_Ok
    by apply broadcast_shapes_refl.
  eexists. split; [done|]. split; [done|].
  intros b k Hb Hk.
  assert (Hbk : in_bounds [bs; K] [b; k]) by (repeat constructor; lia).
  rewrite tget_tnth by (apply wf_build || done). f_equal.
  rewrite tnth_build by done.
  change (shape A) with [bs; K]. change (shape B) with [bs; K].
  rewrite bidx_same by done.
  unfold A, B. rewrite !tnth_build by done. rewrite !tnth_scalar.
  change (shape last) with [bs; K]. change (shape rest_mean) with [bs; K].
  rewrite bidx_same by done.
  unfold last, rest_mean. rewrite !tnth_build by done.
  unfold insert_at. simpl.
  unfold O3 at 1. rewrite tnth_view_rows.
  replace (Tensor [(bs * n_aug)%nat; K] (data out)) with out
    by (rewrite <- Hsout; by destruct out).
  f_equal. f_equal. unfold Qcmean, fiber.
  rewrite length_fmap, length_seq. f_equal. f_equal.
  apply list_fmap_ext. intros i a Ha. apply lookup_seq in Ha as [-> Ha].
  unfold insert_at. simpl. unfold rest.
  rewrite tnth_build by (repeat constructor; lia).
  unfold O3. rewrite tnth_view_rows.
  replace (Tensor [(bs * n_aug)%nat; K] (data out)) with out
    by (rewrite <- Hsout; by destruct out).
  done.
Qed.

(** C3, as amended: with [tta] on, the output of an example is
    [(1 - tta_mixing)] times the prediction for its last view plus
    [tta_mixing] times the average, with equal weights, of the predictions
    for its other views; the argmax and the loss are then taken of that
    output. *)
Theorem tta_output_blend {G L : Type} (ops : learner_ops L)
    (criterion : criterion_fn) (l l' : L)
    (x out : tensor) (tta_mixing : Qc) (bs n_aug c h w K : nat) :
  wf x -> shape x = [bs; n_aug; c; h; w] ->
  (0 < bs)%nat -> (2 <= n_aug)%nat -> (0 < c * h * w)%nat ->
  forward ops l (Tensor [(bs * n_aug)%nat; c; h; w] (data x)) = (out, l') ->
  wf out -> shape out = [(bs * n_aug)%nat; K] ->
  exists output,
    tta_output ops l x tta_mixing = Ok (output, l') /\
    shape output = [bs; K] /\
    (forall b k, (b < bs)%nat -> (k < K)%nat ->
      tget output [b; k] =
        Some ((1 - tta_mixing) * tnth out [(b * n_aug + (n_aug - 1))%nat; k]
              + tta_mixing *
                Qcmean ((fun a => tnth out [(b * n_aug + a)%nat; k])
                          <$> seq 0 (n_aug - 1)))) /\
    (forall epoch dl logging_frequency i y st (w0 : world G L),
       w_learner w0 = l ->
       validate_batch ops criterion epoch dl true tta_mixing logging_frequency
         i (x, y) (st, w0) =
       validate_score criterion epoch dl logging_frequency i y output l' st w0).
Proof.
  intros Hx Hsx Hbs Haug Hchw Hfw Hout Hsout.
  destruct (tta_output_value ops l l' x out tta_mixing bs n_aug c h w K)
    as (output & Ho & Hs & Hat); try done.
  exists output. repeat (split; [done|]).
  intros epoch dl lf i y st w0 Hw0. unfold validate_batch.
  by rewrite Hw0, Ho.
Qed.

(** ** The epoch loops *)

#[local] Arguments torch_argmax : simpl never.
#[local] Arguments log_progress : simpl never.
#[local] Arguments len : simpl never.
#[local] Arguments mixup_data : simpl never.
#[local] Arguments tta_output : simpl never.

(** *** Running statistics *)

Ltac bind_inv H :=
  repeat match type of H with
         | (?e ≫= _) = Ok _ =>
             let E := fresh "E" in
             destruct e eqn:E; [rewrite bind_Ok in H|discriminate H]
         | (let '(_, _) := ?p in _) = Ok _ => destruct p
         | (match ?p with (_, _) => _ end) = Ok _ => destruct p
         end.

Lemma train_batch_measure {G L : Type} (rng : rng_ops G) (ops : learner_ops L)
    (criterion : criterion_fn) epoch dl has_scheduler mixup alpha logging_frequency
    i x y st (w : world G L) st' w' :
  train_batch rng ops criterion epoch dl has_scheduler mixup alpha
    logging_frequency i (x, y) (st, w) = Ok (st', w') ->
  exists m, len y = Ok (m_size m) /\ st' = add_measure st m.
Proof.
  unfold train_batch. intros H. bind_inv H.
  match goal with E : Ok ?n = Ok ?n' |- _ => injection E as -> end.
  injection H as <- _.
  eexists (Measure _ _ _). split; reflexivity.
Qed.

Lemma validate_batch_measure {G L : Type} (ops : learner_ops L)
    (criterion : criterion_fn) epoch dl tta tta_mixing logging_frequency
    i x y st (w : world G L) st' w' :
  validate_batch ops criterion epoch dl tta tta_mixing
    logging_frequency i (x, y) (st, w) = Ok (st', w') ->
  exists m, len y = Ok (m_size m) /\ st' = add_measure st m.
Proof.
  unfold validate_batch, validate_score. intros H. bind_inv H.
  match goal with E : Ok ?n = Ok ?n' |- _ => injection E as -> end.
  injection H as <- _.
  eexists (Measure _ _ _). split; reflexivity.
Qed.

(** The loop invariant: the statistics are those at entry plus what the
    batches seen so far have added. *)
Lemma for_enumerate_measures {W : Type}
    (body : nat -> tensor * tensor -> stats * W -> result (stats * W)) :
  (forall i x y st w st' w',
     body i (x, y) (st, w) = Ok (st', w') ->
     exists m, len y = Ok (m_size m) /\ st' = add_measure st m) ->
  forall bs i st w st' w',
    for_enumerate body i bs (st, w) = Ok (st', w') ->
    exists ms,
      Forall2 (fun m xy => len xy.2 = Ok (m_size m)) ms bs /\
      st' = foldl add_measure st ms.
Proof.
  intros Hbody bs. induction bs as [|[x y] bs IH]; intros i st w st' w' H.
  - injection H as <- _. by exists [].
  - simpl in H. destruct (body i (x, y) (st, w)) as [[st1 w1]|] eqn:E; [|done].
    rewrite bind_Ok in H.
    destruct (Hbody _ _ _ _ _ _ _ E) as (m & Hm & ->).
    destruct (IH _ _ _ _ _ H) as (ms & Hms & ->).
    exists (m :: ms). split; [by constructor|done].
Qed.

Lemma foldl_add_measure st ms :
  foldl add_measure st ms =
    Stats (total st + sum_list (m_size <$> ms))
          (total_loss st + Qcsum ((fun m => m_loss m * Qc_of_nat (m_size m)) <$> ms))
          (total_correct st + Qcsum (m_correct <$> ms)).
Proof.
  revert st. induction ms as [|m ms IH]; intros st; csimpl.
  - destruct st. simpl. f_equal; [lia|ring|ring].
  - rewrite IH. unfold add_measure. simpl. f_equal; [lia|ring|ring].
Qed.

Lemma report_inv ph epoch st log fl fa log' :
  report ph epoch st log = Ok ((fl, fa), log') ->
  total st <> 0%nat /\
  fl = total_loss st / Qc_of_nat (total st) /\
  fa = total_correct st / Qc_of_nat (total st).
Proof.
  unfold report, py_div.
  destruct (decide (Qc_of_nat (total st) = 0)) as [Hz|Hz]; simpl; [discriminate|].
  intros [= <- <- _]. split; [|by split].
  intros E. apply Hz. rewrite E. by apply Qc_is_canon.
Qed.

(** When [train] or [validate] returns, its two results are the running
    sums over the batches, divided by the number of examples seen. *)
Lemma train_running_means {G L : Type} (rng : rng_ops G) (ops : learner_ops L)
    (criterion : criterion_fn) epoch dl has_scheduler mixup alpha logging_frequency
    (w w' : world G L) final_loss final_acc :
  train rng ops criterion epoch dl has_scheduler mixup alpha logging_frequency w
    = Ok ((final_loss, final_acc), w') ->
  exists ms,
    Forall2 (fun m xy => len xy.2 = Ok (m_size m)) ms (batches dl) /\
    sum_list (m_size <$> ms) <> 0%nat /\
    final_loss = Qcsum ((fun m => m_loss m * Qc_of_nat (m_size m)) <$> ms)
                 / Qc_of_nat (sum_list (m_size <$> ms)) /\
    final_acc = Qcsum (m_correct <$> ms) / Qc_of_nat (sum_list (m_size <$> ms)).
Proof.
  unfold train. intros H.
  destruct (for_enumerate _ _ _ _) as [[st w1]|] eqn:E; [|done].
  rewrite bind_Ok in H.
  destruct (report _ _ _ _) as [[[fl fa] log]|] eqn:R; [|done].
  injection H as <- <- _.
  apply for_enumerate_measures in E as (ms & Hms & ->);
    [|intros; by eapply train_batch_measure].
  apply report_inv in R as (Ht & -> & ->).
  rewrite foldl_add_measure in *. simpl in *.
  exists ms. split; [done|]. split; [done|].
  by rewrite !Qcplus_0_l.
Qed.

Lemma validate_running_means {G L : Type} (ops : learner_ops L)
    (criterion : criterion_fn) epoch dl tta tta_mixing logging_frequency
    (w w' : world G L) final_loss final_acc :
  validate ops criterion epoch dl tta tta_mixing logging_frequency w
    = Ok ((final_loss, final_acc), w') ->
  exists ms,
    Forall2 (fun m xy => len xy.2 = Ok (m_size m)) ms (batches dl) /\
    sum_list (m_size <$> ms) <> 0%nat /\
    final_loss = Qcsum ((fun m => m_loss m * Qc_of_nat (m_size m)) <$> ms)
                 / Qc_of_nat (sum_list (m_size <$> ms)) /\
    final_acc = Qcsum (m_correct <$> ms) / Qc_of_nat (sum_list (m_size <$> ms)).
Proof.
  unfold validate. intros H.
  destruct (for_enumerate _ _ _ _) as [[st w1]|] eqn:E; [|done].
  rewrite bind_Ok in H.
  destruct (report _ _ _ _) as [[[fl fa] log]|] eqn:R; [|done].
  injection H as <- <- _.
  apply for_enumerate_measures in E as (ms & Hms & ->);
    [|intros; by eapply validate_batch_measure].
  apply report_inv in R as (Ht & -> & ->).
  rewrite foldl_add_measure in *. simpl in *.
  exists ms. split; [done|]. split; [done|].
  by rewrite !Qcplus_0_l.
Qed.

Lemma Qc_of_nat_S n : Qc_of_nat (S n) = 1 + Qc_of_nat n.
Proof.
  unfold Qc_of_nat. rewrite Nat2Z.inj_succ, <- Z.add_1_l, Z2Qc_inj_add.
  by rewrite Z2Qc_inj_1.
Qed.

Lemma Qcsum_eq_count (la lb : list Qc) :
  Qcsum (zip_with (fun u v => if decide (u = v) then 1 else 0) la lb) =
  Qc_of_nat (length (filter (fun p => p.1 = p.2) (zip la lb))).
Proof.
  revert lb. induction la as [|u la IH]; intros [|v lb]; csimpl;
    try (by apply Qc_is_canon).
  rewrite IH. destruct (decide (u = v)) as [->|Hne].
  - rewrite filter_cons_True by done. csimpl. by rewrite Qc_of_nat_S.
  - rewrite filter_cons_False by done. ring.
Qed.

(** [(a == b).sum().item()] on tensors of one shape counts the positions
    at which they agree. *)
Lemma teq_count a b :
  wf a -> wf b -> shape a = shape b ->
  (e ← teq a b; item (tsum e)) = Ok (Qc_of_nat (count_equal a b)).
Proof.
  intros Ha Hb Hs. unfold teq. rewrite map2b_same_shape, bind_Ok by done.
  unfold tsum, item, scalar. simpl. by rewrite Qcsum_eq_count.
Qed.

Lemma wf_torch_argmax t pred : torch_argmax t = Ok pred -> wf pred.
Proof.
  unfold torch_argmax. destruct (reverse (shape t)) as [|d rs]; [by intros [= <-]|].
  case_decide; [done|]. intros [= <-]. apply wf_build.
Qed.

(** In [validate] a batch adds the number of its correct predictions. *)
Lemma validate_score_counts {G L : Type} (criterion : criterion_fn)
    epoch dl logging_frequency i y output (l : L) st (w : world G L) st' w' pred :
  validate_score criterion epoch dl logging_frequency i y output l st w
    = Ok (st', w') ->
  torch_argmax output = Ok pred -> wf y -> shape pred = shape y ->
  total_correct st' = total_correct st + Qc_of_nat (count_equal pred y).
Proof.
  unfold validate_score. intros H Hp Hy Hs. rewrite Hp, bind_Ok in H.
  bind_inv H. injection H as <- _. simpl.
  pose proof (teq_count pred y (wf_torch_argmax _ _ Hp) Hy Hs) as Hc.
  match goal with
  | E1 : teq pred y = Ok ?e, E2 : item (tsum ?e) = Ok ?c |- _ =>
      rewrite E1, bind_Ok, E2 in Hc; by injection Hc as ->
  end.
Qed.

(** In [train] without mixup a batch adds the number of its correct
    predictions too. *)
Lemma train_batch_counts_without_mixup {G L : Type} (rng : rng_ops G)
    (ops : learner_ops L) (criterion : criterion_fn)
    epoch dl has_scheduler alpha logging_frequency i x y st (w : world G L)
    st' w' n rx ry pred :
  wf x -> shape x = n :: rx -> rx <> [] -> wf y -> shape y = n :: ry ->
  permutation_of_range n (torch_randperm rng n (w_rng w)).1 ->
  regular_loss criterion ->
  train_batch rng ops criterion epoch dl has_scheduler false alpha
    logging_frequency i (x, y) (st, w) = Ok (st', w') ->
  torch_argmax (forward ops (zero_grad ops (w_learner w)) x).1 = Ok pred ->
  shape pred = shape y ->
  total_correct st' = total_correct st + Qc_of_nat (count_equal pred y).
Proof.
  intros Hx Hsx Hrx Hy Hsy Hperm Hcrit H Hp Hs.
  destruct (mixup_data_without_mixing rng x y criterion 0 (w_rng w) n rx ry)
    as (m & Hm & _ & Hmx & _ & _ & Hacc); try done.
  unfold train_batch in H. rewrite Hm, bind_Ok, Hmx in H.
  destruct (forward ops (zero_grad ops (w_learner w)) x) as [output l].
  simpl in Hp. rewrite Hp, bind_Ok in H.
  bind_inv H. injection H as <- _. simpl.
  pose proof (teq_count pred y (wf_torch_argmax _ _ Hp) Hy Hs) as Hc.
  match goal with
  | E : mixup_acc m pred = Ok ?c |- _ =>
      rewrite Hacc, Hc in E; by injection E as <-
  end.
Qed.

Lemma broadcast_shapes_pred_mixed n :
  broadcast_shapes [n] [n; 1; 1; n]%nat = Some [n; 1; 1; n]%nat.
Proof.
  unfold broadcast_shapes.
  change (reverse [n; 1; 1; n]%nat) with [n; 1; 1; n]%nat.
  change (reverse [n]) with [n]. simpl.
  by rewrite broadcast_dim_refl.
Qed.

Lemma Qcsum_ones {A : Type} (l : list A) :
  Qcsum ((fun _ => 1) <$> l) = Qc_of_nat (length l).
Proof.
  induction l as [|a l IH]; csimpl; [by apply Qc_is_canon|].
  by rewrite IH, Qc_of_nat_S.
Qed.

(** With mixup on, [mixup_acc] compares every prediction with the mixed
    label of every pair of examples: on a batch of [n] examples that all
    have the label [v] and are all predicted as [v], it counts [n * n]. *)
Lemma mixup_acc_counts_pairs {G : Type} (rng : rng_ops G) (x : tensor)
    (criterion : criterion_fn) (alpha : Qc) (g g1 g2 : G) (n c h w : nat)
    (draws : list Qc) (index : list nat) (v : Qc) :
  let y := Tensor [n] (replicate n v) in
  0 < alpha ->
  wf x -> shape x = [n; c; h; w] -> (0 < n)%nat ->
  np_random_beta rng alpha alpha n g = (draws, g1) -> length draws = n ->
  torch_randperm rng n g1 = (index, g2) -> permutation_of_range n index ->
  exists m, mixup_data rng x y criterion alpha g = Ok (m, g2) /\
    mixup_acc m y = Ok (Qc_of_nat (n * n)).
Proof.
  intros y Halpha Hx Hsx Hn Hbeta Hdl Hrp Hperm.
  assert (Hy : wf y) by (unfold wf, numel; simpl; rewrite length_replicate; lia).
  destruct (mixup_data_with_mixing rng x y criterion alpha g g1 g2 n c h w
              draws index)
    as (m & Hm & Hlam & Hs & Hat & Hya & Hsb & Hyb & Heq & Hcrit &
        MY & HsMY & HwMY & Hacc & HMY); try done.
  apply permutation_of_range_bounds in Hperm as [Hlen Hall].
  exists m. split; [done|]. rewrite Hacc. unfold teq.
  rewrite (map2b_ok _ y MY [n; 1; 1; n]%nat), bind_Ok
    by (rewrite HsMY; apply broadcast_shapes_pred_mixed).
  assert (Hget : forall j, (j < n)%nat -> tget y [j] = Some v).
  { intros j Hj. unfold tget. rewrite decide_True by (repeat constructor; done).
    simpl. replace (ravel [n] [j]) with j by (unfold ravel, numel; lia).
    by apply lookup_replicate_2. }
  rewrite (build_ext _ _ (fun _ => 1)).
  2:{ intros idx Hidx.
      destruct idx as [|i [|a [|b [|j [|? ?]]]]];
        try (apply Forall2_length in Hidx; discriminate Hidx).
      apply Forall2_cons_1 in Hidx as [Hi Hidx].
      apply Forall2_cons_1 in Hidx as [Ha Hidx].
      apply Forall2_cons_1 in Hidx as [Hb Hidx].
      apply Forall2_cons_1 in Hidx as [Hj _].
      assert (a = 0%nat) as -> by lia. assert (b = 0%nat) as -> by lia.
      destruct (lookup_lt_is_Some_2 (lam_of <$> draws) i) as [l Hl];
        [by rewrite length_fmap, Hdl|].
      destruct (lookup_lt_is_Some_2 index j) as [j' Hj']; [by rewrite Hlen|].
      assert (Hj'n : (j' < n)%nat).
      { rewrite Forall_forall in Hall. apply Hall. by eapply list_elem_of_lookup_2. }
      pose proof (HMY i j l v v Hl (Hget j Hj)) as HM.
      rewrite (Hyb j j' Hj'), (Hget j' Hj'n) in HM. specialize (HM eq_refl).
      rewrite tget_tnth in HM by (done || (rewrite HsMY; repeat constructor; lia)).
      injection HM as HM.
      rewrite HsMY, (bidx_same [n; 1; 1; n]%nat) by (repeat constructor; lia).
      rewrite HM.
      replace (bidx (shape y) [i; 0; 0; j]%nat) with [j]
        by (unfold bidx; simpl; case_decide; [f_equal; lia|done]).
      pose proof (Hget j Hj) as Hv. rewrite tget_tnth in Hv
        by (done || (repeat constructor; done)).
      injection Hv as ->.
      rewrite decide_True by ring. reflexivity. }
  unfold tsum, item, scalar, build. simpl. f_equal.
  rewrite Qcsum_ones, length_seq. f_equal. unfold numel. lia.
Qed.

(** C10: on a dataloader without batches [train] and [validate] return
    nothing: the division by the number of examples seen, which is 0,
    raises ZeroDivisionError. *)
Theorem train_validate_empty_dataloader {G L : Type} (rng : rng_ops G)
    (ops : learner_ops L) (criterion : criterion_fn) (epoch : Z) (n : nat)
    (has_scheduler mixup tta : bool) (alpha tta_mixing : Qc)
    (logging_frequency : Z) (w : world G L) :
  train rng ops criterion epoch (DataLoader [] n) has_scheduler mixup alpha
    logging_frequency w = Raise ZeroDivisionError /\
  validate ops criterion epoch (DataLoader [] n) tta tta_mixing
    logging_frequency w = Raise ZeroDivisionError.
Proof. done. Qed.

(** C4, at an input where the code departs from it: one batch of two
    examples, both of class 0 and both predicted as class 0.  With [mixup]
    on, [train] reports the accuracy 2; without it, and in [validate], the
    accuracy is 1.  The results are running means in all cases
    ([train_running_means], [validate_running_means]); what differs is the
    count a batch adds ([validate_score_counts],
    [train_batch_counts_without_mixup], [mixup_acc_counts_pairs]). *)
Theorem train_mixup_accuracy_above_one :
  (exists loss w',
     train example_rng example_ops example_criterion 0 example_loader
       false true (Q2Qc (4 # 10)) 50 example_world = Ok ((loss, 2), w')) /\
  (exists loss w',
     train example_rng example_ops example_criterion 0 example_loader
       false false (Q2Qc (4 # 10)) 50 example_world = Ok ((loss, 1), w')) /\
  (exists loss w',
     validate example_ops example_criterion 0 example_loader
       false (Q2Qc (6 # 10)) 50 example_world = Ok ((loss, 1), w')).
Proof.
  split; [|split].
  - exists 1, (World 2%nat 1%nat [LogInfo Training 1 2 0]). compute_done.
  - exists 1, (World 1%nat 1%nat [LogInfo Training 1 1 0]). compute_done.
  - exists 1, (World 0%nat 0%nat [LogInfo Validation 1 1 0]). compute_done.
Qed.

(** C3 as stated fails: for one example whose three views are predicted
    0, 0 and 1, and the default [tta_mixing] of 0.6, the output is 2/5 and not
    the plain average 1/3. *)
Lemma tta_output_not_plain_average :
  ~ (forall output l',
       tta_output pixel_ops () example_views (Q2Qc (6 # 10)) = Ok (output, l') ->
       tget output [0; 0]%nat =
         Some (view_average
                 (forward pixel_ops () (Tensor [3; 1; 1; 1]%nat (data example_views))).1
                 3 0 0)).
Proof.
  intros H.
  specialize (H (Tensor [1; 1]%nat [Q2Qc (2 # 5)]) () ltac:(compute_done)).
  revert H. compute_done.
Qed.

Lemma tta_output_blend_witness :
  exists output,
    tta_output pixel_ops () example_views (Q2Qc (6 # 10)) = Ok (output, ()) /\
    shape output = [1; 1]%nat /\
    tget output [0; 0]%nat = Some (Q2Qc (2 # 5)).
Proof.
  destruct (tta_output_blend (G := nat) pixel_ops example_criterion () ()
              example_views (Tensor [3; 1]%nat [0; 0; 1]) (Q2Qc (6 # 10))
              1 3 1 1 1 1)
    as (output & Ho & Hs & Hat & _).
  - reflexivity.
  - reflexivity.
  - lia.
  - lia.
  - simpl. lia.
  - reflexivity.
  - reflexivity.
  - reflexivity.
  - exists output. split; [exact Ho|]. split; [exact Hs|].
    rewrite (Hat 0 0)%nat by lia. compute_done.
Defined.

(** ** get_param_lr_maps *)

Local Close Scope Qc_scope.
Local Open Scope R_scope.

Lemma geom_point_first a b num : 0 < a -> 0 < b -> geom_point a b num 0 = a.
Proof.
  intros Ha Hb. unfold geom_point. simpl INR at 1.
  replace (0 / INR (num - 1)) with 0 by (unfold Rdiv; ring).
  rewrite Rpower_O; [ring|]. by apply Rdiv_lt_0_compat.
Qed.

Lemma geom_point_last a b num :
  0 < a -> 0 < b -> (1 < num)%nat -> geom_point a b num (num - 1) = b.
Proof.
  intros Ha Hb Hn. unfold geom_point.
  assert (INR (num - 1) <> 0) by (apply not_0_INR; lia).
  replace (INR (num - 1) / INR (num - 1)) with 1 by (by field).
  rewrite Rpower_1 by (by apply Rdiv_lt_0_compat). field. lra.
Qed.

Lemma geom_point_succ a b num i :
  0 < a -> 0 < b -> (1 < num)%nat ->
  geom_point a b num (S i) = geom_point a b num i * Rpower (b / a) (/ INR (num - 1)).
Proof.
  intros Ha Hb Hn. unfold geom_point.
  assert (INR (num - 1) <> 0) by (apply not_0_INR; lia).
  rewrite S_INR.
  replace ((INR i + 1) / INR (num - 1)) with (INR i / INR (num - 1) + / INR (num - 1))
    by (by field).
  rewrite Rpower_plus. ring.
Qed.

Lemma geomspace_positive start stop num :
  0 < start -> 0 < stop ->
  geomspace start stop num = Ok (geom_point start stop num <$> seq 0 num).
Proof.
  intros Ha Hb. unfold geomspace.
  destruct (Req_dec_T start 0) as [?|_]; [lra|].
  destruct (Req_dec_T stop 0) as [?|_]; [lra|].
  destruct (Rlt_dec start 0) as [?|_]; [lra|].
  destruct (Rlt_dec (start * stop) 0) as [Hneg|_].
  { assert (0 < start * stop) by (by apply Rmult_lt_0_compat). lra. }
  f_equal. rewrite !Rmult_1_l.
  assert (Hins0 : <[0%nat := start]> (geom_point start stop num <$> seq 0 num)
                  = geom_point start stop num <$> seq 0 num).
  { destruct num as [|k]; [done|]. simpl. f_equal. by rewrite geom_point_first. }
  rewrite Hins0.
  assert (Hins1 : (if decide (1 < num)%nat
                   then <[(num - 1)%nat := stop]> (geom_point start stop num <$> seq 0 num)
                   else geom_point start stop num <$> seq 0 num)
                  = geom_point start stop num <$> seq 0 num).
  { case_decide as Hn; [|done]. apply list_insert_id.
    rewrite list_lookup_fmap, lookup_seq_lt by lia. simpl.
    by rewrite geom_point_last. }
  rewrite Hins1.
  transitivity ((fun v => v) <$> (geom_point start stop num <$> seq 0 num));
    [|by rewrite list_fmap_id].
  apply list_fmap_ext. intros _ v _. lra.
Qed.

(** Which names [is_body] keeps: all but [out_fc] itself and the names
    under [out_fc.]. *)
Lemma split_head_cons sep c s :
  head (split sep (String c s)) =
    Some (if decide (c = sep) then EmptyString
          else String c (default EmptyString (head (split sep s)))).
Proof.
  simpl. case_decide; [done|]. by destruct (split sep s).
Qed.

Lemma head_split_prefix sep (p s : string) :
  (forall c, c ∈ list_ascii_of_string p -> c <> sep) ->
  head (split sep (p +:+ String sep s)) = Some p.
Proof.
  induction p as [|c p IH]; intros Hp.
  - simpl. by rewrite decide_True.
  - change (String c p +:+ String sep s)%string with (String c (p +:+ String sep s)).
    rewrite split_head_cons, decide_False.
    + rewrite IH; [done|]. intros c' Hc'. apply Hp. simpl. by right.
    + apply Hp. simpl. by left.
Qed.

Lemma is_body_head_params s : is_body ("out_fc." +:+ s) = false.
Proof.
  unfold is_body.
  change ("out_fc." +:+ s)%string with ("out_fc" +:+ String "."%char s)%string.
  rewrite head_split_prefix.
  - done.
  - intros c Hc. simpl in Hc.
    repeat (apply elem_of_cons in Hc as [->|Hc]; [done|]).
    by apply elem_of_nil in Hc.
Qed.


Lemma body_parameters_spec m name p :
  (name, p) ∈ body_parameters m <->
  (name, p) ∈ named_parameters m /\
  head (split "."%char name) <> Some "out_fc"%string.
Proof.
  unfold body_parameters. rewrite list_elem_of_filter. simpl.
  unfold is_body. rewrite bool_decide_eq_true.
  assert (Hd : default EmptyString (head (split "."%char name)) ≠ "out_fc"%string
               <-> head (split "."%char name) ≠ Some "out_fc"%string).
  { destruct name as [|c s]; [simpl; split; intros H; congruence|].
    rewrite split_head_cons. simpl. split; intros H; congruence. }
  rewrite Hd. tauto.
Qed.

Lemma geom_point_start a b num : a <> 0 -> 0 < b / a -> geom_point a b num 0 = a.
Proof.
  intros Ha Hr. unfold geom_point. simpl INR at 1.
  replace (0 / INR (num - 1)) with 0 by (unfold Rdiv; ring).
  rewrite Rpower_O by done. ring.
Qed.

Lemma geom_point_stop a b num :
  a <> 0 -> 0 < b / a -> (1 < num)%nat -> geom_point a b num (num - 1) = b.
Proof.
  intros Ha Hr Hn. unfold geom_point.
  assert (INR (num - 1) <> 0) by (apply not_0_INR; lia).
  replace (INR (num - 1) / INR (num - 1)) with 1 by (by field).
  rewrite Rpower_1 by done. by field.
Qed.

Lemma geom_point_step a b num i :
  (1 < num)%nat ->
  geom_point a b num (S i) = geom_point a b num i * Rpower (b / a) (/ INR (num - 1)).
Proof.
  intros Hn. unfold geom_point.
  assert (INR (num - 1) <> 0) by (apply not_0_INR; lia).
  rewrite S_INR.
  replace ((INR i + 1) / INR (num - 1)) with (INR i / INR (num - 1) + / INR (num - 1))
    by (by field).
  rewrite Rpower_plus. ring.
Qed.

(** Two endpoints that are not 0 and have one sign: [numpy.geomspace] gives
    the geometric progression from the one to the other, whether they are
    positive or negative. *)
Lemma geomspace_same_sign start stop num :
  0 < start * stop ->
  geomspace start stop num = Ok (geom_point start stop num <$> seq 0 num).
Proof.
  intros Hss. unfold geomspace.
  destruct (Req_dec_T start 0) as [->|Hs0]; [lra|].
  destruct (Req_dec_T stop 0) as [->|Ht0]; [lra|].
  destruct (Rlt_dec (start * stop) 0) as [?|_]; [lra|].
  assert (Hr : 0 < stop / start).
  { unfold Rdiv. replace (stop * / start) with (start * stop * (/ start * / start))
      by (by field).
    apply Rmult_lt_0_compat; [done|].
    rewrite <- Rinv_mult. apply Rinv_0_lt_compat.
    destruct (Rlt_dec start 0); nra. }
  f_equal.
  set (sgn := if Rlt_dec start 0 then if Rlt_dec stop 0 then -1 else 1 else 1).
  assert (Hsgn : sgn = 1 \/ sgn = -1).
  { unfold sgn. destruct (Rlt_dec start 0); [destruct (Rlt_dec stop 0)|]; auto. }
  assert (Hq : sgn * stop / (sgn * start) = stop / start).
  { destruct Hsgn as [-> | ->]; by field. }
  assert (Hpt : forall i, sgn * geom_point (sgn * start) (sgn * stop) num i
                          = geom_point start stop num i).
  { intros i. unfold geom_point. rewrite Hq.
    destruct Hsgn as [-> | ->]; ring. }
  assert (Hins0 : <[0%nat := sgn * start]>
                    (geom_point (sgn * start) (sgn * stop) num <$> seq 0 num)
                  = geom_point (sgn * start) (sgn * stop) num <$> seq 0 num).
  { destruct num as [|k]; [done|]. simpl. f_equal.
    rewrite geom_point_start; [done| |by rewrite Hq].
    destruct Hsgn as [-> | ->]; lra. }
  rewrite Hins0.
  assert (Hins1 :
    (if decide (1 < num)%nat
     then <[(num - 1)%nat := sgn * stop]>
            (geom_point (sgn * start) (sgn * stop) num <$> seq 0 num)
     else geom_point (sgn * start) (sgn * stop) num <$> seq 0 num)
    = geom_point (sgn * start) (sgn * stop) num <$> seq 0 num).
  { case_decide as Hn; [|done]. apply list_insert_id.
    rewrite list_lookup_fmap, lookup_seq_lt by lia. simpl.
    rewrite geom_point_stop; [done| |by rewrite Hq|done].
    destruct Hsgn as [-> | ->]; lra. }
  rewrite Hins1, <- list_fmap_compose.
  apply list_fmap_ext. intros _ i _. apply Hpt.
Qed.

(** C2, as amended: for a rate [base_lr] other than 0 and a pair of factors
    other than 0 and of one sign, [get_param_lr_maps] returns one group per
    body parameter, in their order, with learning rates in geometric
    progression from [base_lr * lower_bound_factor] to
    [base_lr * upper_bound_factor], and then one group with the parameters of
    [out_fc] and the learning rate [base_lr]. *)
Theorem get_param_lr_maps_range (m : model) (base_lr lo hi : R) :
  base_lr <> 0 -> 0 < lo * hi ->
  exists lrs q,
    get_param_lr_maps m base_lr (FactorRange lo hi) =
      Ok (zip_with (fun np lr => ParamGroup (OneParam np.2) lr) (body_parameters m) lrs
          ++ [ParamGroup (ParamIter (out_fc_parameters m)) base_lr]) /\
    length lrs = length (body_parameters m) /\
    (body_parameters m <> [] -> head lrs = Some (base_lr * lo)) /\
    ((1 < length (body_parameters m))%nat -> last lrs = Some (base_lr * hi)) /\
    0 < q /\
    (forall i a b, lrs !! i = Some a -> lrs !! S i = Some b -> b = a * q) /\
    (forall name p,
       (name, p) ∈ body_parameters m <->
       (name, p) ∈ named_parameters m /\
       head (split "."%char name) <> Some "out_fc"%string).
Proof.
  intros Hb Hlh.
  assert (Hlo : lo <> 0) by (intros ->; lra).
  assert (Hss : 0 < base_lr * lo * (base_lr * hi)).
  { replace (base_lr * lo * (base_lr * hi)) with (base_lr * base_lr * (lo * hi)) by ring.
    apply Rmult_lt_0_compat; [|done]. destruct (Rlt_dec base_lr 0); nra. }
  assert (Ha : base_lr * lo <> 0) by (by apply Rmult_integral_contrapositive).
  assert (Hr : 0 < base_lr * hi / (base_lr * lo)).
  { replace (base_lr * hi / (base_lr * lo))
      with (base_lr * lo * (base_lr * hi) * (/ (base_lr * lo) * / (base_lr * lo)))
      by (by field).
    apply Rmult_lt_0_compat; [done|].
    rewrite <- Rinv_mult. apply Rinv_0_lt_compat.
    destruct (Rlt_dec (base_lr * lo) 0); nra. }
  set (nb := length (body_parameters m)).
  exists (geom_point (base_lr * lo) (base_lr * hi) nb <$> seq 0 nb).
  exists (Rpower (base_lr * hi / (base_lr * lo)) (/ INR (nb - 1))).
  split; [|split; [|split; [|split; [|split; [|split]]]]];
    [| | | | | |apply body_parameters_spec].
  - unfold get_param_lr_maps. fold nb. by rewrite geomspace_same_sign.
  - by rewrite length_fmap, length_seq.
  - intros Hne. destruct (body_parameters m) as [|np l] eqn:E; [done|].
    subst nb. simpl. by rewrite geom_point_start.
  - intros Hn. rewrite last_lookup, length_fmap, length_seq.
    rewrite list_lookup_fmap, lookup_seq_lt by lia. simpl.
    replace (Init.Nat.pred nb) with (nb - 1)%nat by lia.
    by rewrite geom_point_stop.
  - unfold Rpower. apply exp_pos.
  - intros i a b Hi HSi.
    rewrite list_lookup_fmap in Hi, HSi.
    destruct (seq 0 nb !! S i) as [j|] eqn:Ej; [|done].
    apply lookup_seq in Ej as [-> Hlt].
    rewrite lookup_seq_lt in Hi by lia. simpl in *.
    injection Hi as <-. injection HSi as <-.
    apply geom_point_step. lia.
Qed.

Lemma get_param_lr_maps_range_witness :
  exists lrs q,
    get_param_lr_maps example_model 1 (FactorRange (/ 100) (/ 10)) =
      Ok (zip_with (fun np lr => ParamGroup (OneParam np.2) lr)
            (body_parameters example_model) lrs
          ++ [ParamGroup (ParamIter (out_fc_parameters example_model)) 1]) /\
    length lrs = length (body_parameters example_model) /\
    (body_parameters example_model <> [] -> head lrs = Some (1 * / 100)) /\
    ((1 < length (body_parameters example_model))%nat -> last lrs = Some (1 * / 10)) /\
    0 < q /\
    (forall i a b, lrs !! i = Some a -> lrs !! S i = Some b -> b = a * q) /\
    (forall name p,
       (name, p) ∈ body_parameters example_model <->
       (name, p) ∈ named_parameters example_model /\
       head (split "."%char name) <> Some "out_fc"%string).
Proof.
  apply (get_param_lr_maps_range example_model 1 (/ 100) (/ 10)); lra.
Defined.

(** C2 as stated fails: not for every rate and pair of factors are there
    rates in geometric progression.  With the rate 0 (or a factor 0)
    [numpy.geomspace] refuses the endpoint 0 and nothing is returned; with
    factors of two signs the rates between the first and the last are not
    numbers. *)
Lemma get_param_lr_maps_range_refused :
  get_param_lr_maps example_model 0 (FactorRange (/ 100) (/ 10)) = Raise ValueError /\
  get_param_lr_maps example_model 1 (FactorRange (-1) 1) = Raise NotANumber.
Proof.
  split.
  - unfold get_param_lr_maps, geomspace.
    destruct (Req_dec_T (0 * / 100) 0) as [_|Hn]; [done|]. exfalso. apply Hn. ring.
  - unfold get_param_lr_maps, geomspace.
    destruct (Req_dec_T (1 * -1) 0) as [?|_]; [lra|].
    destruct (Req_dec_T (1 * 1) 0) as [?|_]; [lra|].
    destruct (Rlt_dec (1 * -1 * (1 * 1)) 0) as [_|Hn]; [|exfalso; apply Hn; lra].
    reflexivity.
Qed.

Lemma get_param_lr_maps_float (m : model) (base_lr f : R) :
  get_param_lr_maps m base_lr (FloatFactor f) =
    Ok [ ParamGroup (NamedParams (body_parameters m)) (base_lr * f);
         ParamGroup (ParamIter (out_fc_parameters m)) base_lr ].
Proof. done. Qed.

(** C5, at an input where the code departs from it: for a float factor the
    first group does not hold the body parameters but the list
    [body_parameters] of (name, parameter) pairs, which no optimizer of torch
    accepts as parameters; the other branch unpacks the pairs. *)
Theorem get_param_lr_maps_float_names :
  exists g_body g_head,
    get_param_lr_maps example_model 1 (FloatFactor (/ 10)) = Ok [g_body; g_head] /\
    params g_body =
      NamedParams [ ("conv1.weight"%string, 0%nat); ("conv1.bias"%string, 1%nat);
                    ("layer1.0.weight"%string, 2%nat) ] /\
    (forall ps, params g_body <> ParamIter ps) /\
    (forall p, params g_body <> OneParam p) /\
    lr g_body = 1 * / 10 /\
    params g_head = ParamIter [3%nat; 4%nat] /\ lr g_head = 1.
Proof.
  eexists _, _. rewrite get_param_lr_maps_float. split; [done|].
  simpl. repeat split; done.
Qed.






Local Close Scope R_scope.

(** ** checkpoint_state *)

Lemma os_path_join_plain (dir name : string) :
  String.prefix "/" name = false -> dir <> EmptyString -> endswith "/" dir = false ->
  os_path_join dir name = (dir +:+ "/" +:+ name)%string.
Proof.
  intros Hn Hd He. unfold os_path_join. rewrite Hn, He.
  by rewrite bool_decide_eq_false_2.
Qed.

(** C6: [checkpoint_state] writes, under [save_dir/epoch_<epoch>.pth], a
    record with exactly the eight named fields; its scheduler field is None
    when there is no scheduler and the state of the scheduler otherwise.  No
    other file changes. *)
Theorem checkpoint_state_writes {SD : Type} (model : saved_model SD) (epoch : Z)
    (optimizer : stateful SD) (scheduler : option (stateful SD))
    (train_loss train_acc val_loss val_acc : Qc)
    (fs : gmap string (gmap string (py_value SD))) :
  let path := os_path_join (save_dir model) ("epoch_" +:+ pretty epoch +:+ ".pth") in
  let fs' := checkpoint_state model epoch optimizer scheduler
               train_loss train_acc val_loss val_acc fs in
  exists record,
    fs' !! path = Some record /\
    (forall other, other <> path -> fs' !! other = fs !! other) /\
    dom record = list_to_set
      [ "model_state_dict"; "optimizer_state_dict"; "scheduler_state_dict";
        "train_loss"; "train_acc"; "val_loss"; "val_acc"; "epoch" ]%string /\
    record !! "model_state_dict"%string = Some (PyStateDict (model_state_dict model)) /\
    record !! "optimizer_state_dict"%string = Some (PyStateDict (state_dict optimizer)) /\
    record !! "scheduler_state_dict"%string =
      Some (match scheduler with
            | None => PyNone
            | Some s => PyStateDict (state_dict s)
            end) /\
    record !! "train_loss"%string = Some (PyFloat train_loss) /\
    record !! "train_acc"%string = Some (PyFloat train_acc) /\
    record !! "val_loss"%string = Some (PyFloat val_loss) /\
    record !! "val_acc"%string = Some (PyFloat val_acc) /\
    record !! "epoch"%string = Some (PyInt epoch) /\
    (save_dir model <> EmptyString -> endswith "/" (save_dir model) = false ->
     path = (save_dir model +:+ "/epoch_" +:+ pretty epoch +:+ ".pth")%string).
Proof.
  intros path fs'. eexists. split.
  { unfold fs', checkpoint_state, torch_save. apply lookup_insert_eq. }
  split.
  { intros other Hne. unfold fs', checkpoint_state, torch_save.
    by apply lookup_insert_ne. }
  split.
  { rewrite dom_list_to_map_L. done. }
  repeat (split; [done|]).
  intros Hd He. unfold path. by rewrite os_path_join_plain.
Qed.

(** ** setup_logging_streams *)

Lemma list_remove_app_fresh h l r :
  (h ∉ l) -> list_remove h (l ++ h :: r) = l ++ r.
Proof.
  induction l as [|a l IH]; intros Hn; simpl.
  - by rewrite decide_True.
  - rewrite decide_False by (intros ->; apply Hn; by left).
    rewrite IH; [done|]. intros Hin. apply Hn. by right.
Qed.

Lemma fresh_handler_unknown s :
  logging_wf s -> fresh (dom (handler_objects s)) ∉ log_handlers s.
Proof.
  intros Hwf Hin. unfold logging_wf in Hwf. rewrite Forall_forall in Hwf.
  apply (is_fresh (dom (handler_objects s))). by apply Hwf.
Qed.

(** Lines 57-62 and 65-70: the new handler is put last, at level DEBUG and
    with the formatter; the handlers there were are as they were. *)
Lemma attach_new_handler t f line s h s0 :
  logging_wf s -> new_handler t s = (h, s0) ->
  let s' := print line (addHandler h (setFormatter h f (setLevel h DEBUG s0))) in
  (h ∉ dom (handler_objects s)) /\
  log_handlers s' = log_handlers s ++ [h] /\
  handler_objects s' = <[h := LogHandler t DEBUG (Some f) false]> (handler_objects s) /\
  printed s' = printed s ++ [line] /\
  logging_wf s'.
Proof.
  intros Hwf [= <- <-] s'. pose proof (fresh_handler_unknown s Hwf) as Hnew.
  set (h := fresh (dom (handler_objects s))) in *.
  assert (Hobj : handler_objects s' =
                 <[h := LogHandler t DEBUG (Some f) false]> (handler_objects s)).
  { unfold s', print, addHandler, setFormatter, setLevel. simpl.
    rewrite decide_False by done. simpl. by rewrite !alter_insert_eq. }
  assert (Hlog : log_handlers s' = log_handlers s ++ [h]).
  { unfold s', print, addHandler, setFormatter, setLevel. simpl.
    by rewrite decide_False by done. }
  split; [apply is_fresh|]. split; [done|]. split; [done|].
  split.
  { unfold s', print, addHandler, setFormatter, setLevel. simpl.
    by rewrite decide_False by done. }
  unfold logging_wf. rewrite Hlog, Hobj, dom_insert_L. apply Forall_app. split.
  - eapply Forall_impl; [exact Hwf|]. intros a Ha. simpl in Ha. set_solver.
  - constructor; [set_solver|constructor].
Qed.

(** What [setup_logging_streams] leaves: the handlers it made, in the
    order file, stdout, after those of the logger. *)
Lemma setup_logging_streams_spec model (log_to_file log_to_stdout : bool) s :
  logging_wf s ->
  let formatter :=
    LogFormatter "[%(name)s][%(asctime)s][%(levelname)s]: %(message)s"
                 "%m:%d:%Y:%I:%M:%S" in
  let made :=
    (if log_to_file
     then [LogHandler (FileTarget (os_path_join (log_dir model) "metrics.log"))
             DEBUG (Some formatter) false]
     else []) ++
    (if log_to_stdout then [LogHandler StdoutTarget DEBUG (Some formatter) false]
     else []) in
  let lines :=
    (if log_to_file
     then ["Logging to " +:+ os_path_join (log_dir model) "metrics.log"] else []) ++
    (if log_to_stdout then ["Logging to STDOUT"] else []) in
  exists handlers s',
    setup_logging_streams model log_to_file log_to_stdout s
      = (clear_handlers handlers, s') /\
    log_handlers s' = log_handlers s ++ handlers /\
    NoDup handlers /\
    Forall (fun h => h ∉ dom (handler_objects s)) handlers /\
    (fun h => handler_objects s' !! h) <$> handlers = Some <$> made /\
    printed s' = printed s ++ lines /\
    (forall h, h ∈ dom (handler_objects s) ->
       handler_objects s' !! h = handler_objects s !! h) /\
    (forall h, h ∈ dom (handler_objects s') ->
       h ∈ dom (handler_objects s) \/ h ∈ handlers) /\
    logging_wf s'.
Proof.
  intros Hwf formatter made lines. unfold setup_logging_streams. fold formatter.
  destruct log_to_file, log_to_stdout; subst made lines; cbn [app].
  - destruct (new_handler (FileTarget _) s) as [fh s0] eqn:E1.
    destruct (attach_new_handler _ formatter
                ("Logging to " +:+ os_path_join (log_dir model) "metrics.log")
                s fh s0 Hwf E1) as (Hf1 & Hl1 & Ho1 & Hp1 & Hwf1).
    set (s1 := print (String.append _ _) _) in *.
    destruct (new_handler StdoutTarget s1) as [ch s2] eqn:E2.
    destruct (attach_new_handler _ formatter "Logging to STDOUT"
                s1 ch s2 Hwf1 E2) as (Hf2 & Hl2 & Ho2 & Hp2 & Hwf2).
    set (s3 := print "Logging to STDOUT" _) in *.
    assert (Hne : ch <> fh).
    { intros ->. apply Hf2. rewrite Ho1, dom_insert_L. set_solver. }
    assert (Hch : ch ∉ dom (handler_objects s)).
    { intros Hin. apply Hf2. rewrite Ho1, dom_insert_L. set_solver. }
    exists [fh; ch], s3. split; [done|]. split.
    { rewrite Hl2, Hl1. by rewrite <- app_assoc. }
    split.
    { apply NoDup_cons. split; [|apply NoDup_singleton].
      intros Hin%list_elem_of_singleton. congruence. }
    split; [by repeat constructor|]. split.
    { cbn [fmap list_fmap]. rewrite Ho2, Ho1.
      rewrite lookup_insert_ne, lookup_insert_eq, lookup_insert_eq by done. done. }
    split; [by rewrite Hp2, Hp1, <- app_assoc|].
    split.
    { intros h Hh. rewrite Ho2, Ho1.
      rewrite !lookup_insert_ne;
        [done|intros ->; by apply Hf1|intros ->; by apply Hch]. }
    split; [|done].
    intros h. rewrite Ho2, Ho1, !dom_insert_L, !elem_of_union, !elem_of_singleton.
    intros [->|[->|?]]; [right; right; by left|right; by left|by left].
  - destruct (new_handler (FileTarget _) s) as [fh s0] eqn:E1.
    destruct (attach_new_handler _ formatter
                ("Logging to " +:+ os_path_join (log_dir model) "metrics.log")
                s fh s0 Hwf E1) as (Hf1 & Hl1 & Ho1 & Hp1 & Hwf1).
    set (s1 := print _ _) in *.
    exists [fh], s1. split; [done|]. split; [done|].
    split; [apply NoDup_singleton|].
    split; [by repeat constructor|]. split.
    { cbn [fmap list_fmap]. by rewrite Ho1, lookup_insert_eq. }
    split; [done|].
    split.
    { intros h Hh. rewrite Ho1.
      rewrite lookup_insert_ne; [done|intros ->; by apply Hf1]. }
    split; [|done].
    intros h. rewrite Ho1, dom_insert_L, elem_of_union, elem_of_singleton.
    intros [->|?]; [right; by left|by left].
  - destruct (new_handler StdoutTarget s) as [ch s0] eqn:E1.
    destruct (attach_new_handler _ formatter "Logging to STDOUT"
                s ch s0 Hwf E1) as (Hf1 & Hl1 & Ho1 & Hp1 & Hwf1).
    set (s1 := print _ _) in *.
    exists [ch], s1. split; [done|]. split; [done|].
    split; [apply NoDup_singleton|].
    split; [by repeat constructor|]. split.
    { cbn [fmap list_fmap]. by rewrite Ho1, lookup_insert_eq. }
    split; [done|].
    split.
    { intros h Hh. rewrite Ho1.
      rewrite lookup_insert_ne; [done|intros ->; by apply Hf1]. }
    split; [|done].
    intros h. rewrite Ho1, dom_insert_L, elem_of_union, elem_of_singleton.
    intros [->|?]; [right; by left|by left].
  - exists [], s. split; [done|]. split; [by rewrite app_nil_r|].
    split; [constructor|]. split; [constructor|]. split; [done|].
    split; [by rewrite app_nil_r|].
    split; [done|]. split; [|done]. intros h Hh. by left.
Qed.

Lemma removeHandler_objects h s :
  handler_objects (removeHandler h s) = handler_objects s.
Proof. unfold removeHandler. by destruct (decide _). Qed.

(** The loop of [clear_handlers] on the logger: handlers that stand
    together in the logger's list, behind a prefix that has none of them,
    are taken out and the others keep their order. *)
Lemma clear_loop_log_handlers handlers : forall s l r,
  log_handlers s = l ++ handlers ++ r ->
  Forall (fun h => h ∉ l) handlers ->
  log_handlers
    (foldl (fun s handler => removeHandler handler (close handler s)) s handlers)
  = l ++ r.
Proof.
  induction handlers as [|h hs IH]; intros s l r Hs Hl; [done|].
  apply Forall_cons in Hl as [Hh Hl]. cbn [foldl].
  apply IH; [|done].
  unfold removeHandler. cbn [close log_handlers].
  rewrite decide_True.
  - cbn [log_handlers]. rewrite Hs. cbn [app]. by rewrite list_remove_app_fresh.
  - rewrite Hs. apply elem_of_app. right. by left.
Qed.

(** The loop of [clear_handlers] on the handler objects: the handlers of
    the list are closed and nothing else is touched. *)
Lemma clear_loop_handler_objects handlers : forall s h,
  handler_objects
    (foldl (fun s handler => removeHandler handler (close handler s)) s handlers)
    !! h
  = if decide (h ∈ handlers)
    then (fun o => LogHandler (h_target o) (h_level o) (h_formatter o) true)
           <$> handler_objects s !! h
    else handler_objects s !! h.
Proof.
  induction handlers as [|a hs IH]; intros s h.
  - cbn [foldl]. rewrite decide_False; [done|]. apply not_elem_of_nil.
  - cbn [foldl]. rewrite IH, removeHandler_objects. cbn [close handler_objects].
    destruct (decide (h = a)) as [->|Hne].
    + rewrite lookup_alter_eq. rewrite (decide_True (P := a ∈ a :: hs)) by by left.
      destruct (decide (a ∈ hs)); [|done].
      by destruct (handler_objects s !! a).
    + rewrite lookup_alter_ne by done.
      destruct (decide (h ∈ hs)) as [Hin|Hin].
      * rewrite decide_True; [done|by right].
      * rewrite decide_False; [done|].
        intros [->|?]%elem_of_cons; done.
Qed.

Lemma clear_loop_printed handlers : forall s,
  printed
    (foldl (fun s handler => removeHandler handler (close handler s)) s handlers)
  = printed s.
Proof.
  induction handlers as [|h hs IH]; intros s; [done|].
  cbn [foldl]. rewrite IH. unfold removeHandler. by destruct (decide _).
Qed.

(** Handlers made after a state was well formed are not on its logger. *)
Lemma fresh_handlers_unknown s handlers :
  logging_wf s ->
  Forall (fun h => h ∉ dom (handler_objects s)) handlers ->
  Forall (fun h => h ∉ log_handlers s) handlers.
Proof.
  intros Hwf Hfr. eapply Forall_impl; [exact Hfr|]. intros h Hh Hin. apply Hh.
  unfold logging_wf in Hwf. rewrite Forall_forall in Hwf. by apply Hwf.
Qed.

(** X1: setup_logging_streams puts one new handler per enabled stream
    behind the handlers the logger has, the file handler for
    <log_dir>/metrics.log before the one for stdout, each open, at level
    DEBUG and with the formatter of lines 51-54; it prints one line per
    handler and changes no handler that was there. *)
Theorem setup_logging_streams_attaches model (log_to_file log_to_stdout : bool) s :
  logging_wf s ->
  let s' := (setup_logging_streams model log_to_file log_to_stdout s).2 in
  let formatter :=
    LogFormatter "[%(name)s][%(asctime)s][%(levelname)s]: %(message)s"
                 "%m:%d:%Y:%I:%M:%S" in
  exists handlers,
    log_handlers s' = log_handlers s ++ handlers /\
    NoDup handlers /\
    Forall (fun h => h ∉ dom (handler_objects s)) handlers /\
    (fun h => handler_objects s' !! h) <$> handlers
      = Some <$>
        ((if log_to_file
          then [LogHandler (FileTarget (os_path_join (log_dir model) "metrics.log"))
                  DEBUG (Some formatter) false]
          else []) ++
         (if log_to_stdout
          then [LogHandler StdoutTarget DEBUG (Some formatter) false] else [])) /\
    printed s'
      = printed s ++
        (if log_to_file
         then ["Logging to " +:+ os_path_join (log_dir model) "metrics.log"]
         else []) ++
        (if log_to_stdout then ["Logging to STDOUT"] else []) /\
    (forall h, h ∈ dom (handler_objects s) ->
       handler_objects s' !! h = handler_objects s !! h).
Proof.
  intros Hwf s' formatter.
  destruct (setup_logging_streams_spec model log_to_file log_to_stdout s Hwf)
    as (handlers & s1 & Hs & Hl & Hnd & Hfr & Hmade & Hpr & Hold & _ & _).
  subst s'. rewrite Hs. cbn [snd]. by exists handlers.
Qed.

(** X2: the closure that setup_logging_streams returns undoes it on the
    logger: after it the logger has the handlers it had before the set-up,
    in the same order; the handlers that were there are untouched, every
    handler made by the set-up is closed, and one line is printed. *)
Theorem clear_handlers_restores model (log_to_file log_to_stdout : bool) s :
  logging_wf s ->
  let r := setup_logging_streams model log_to_file log_to_stdout s in
  let s'' := r.1 r.2 in
  log_handlers s'' = log_handlers s /\
  (forall h, h ∈ dom (handler_objects s) ->
     handler_objects s'' !! h = handler_objects s !! h) /\
  (forall h o, h ∉ dom (handler_objects s) ->
     handler_objects s'' !! h = Some o -> h_closed o = true) /\
  printed s'' = printed r.2 ++ ["Cleared all logging handlers"].
Proof.
  intros Hwf r s''.
  destruct (setup_logging_streams_spec model log_to_file log_to_stdout s Hwf)
    as (handlers & s1 & Hs & Hl & Hnd & Hfr & Hmade & Hpr & Hold & Hdom & Hwf1).
  subst s'' r. rewrite Hs. cbn [fst snd]. unfold clear_handlers.
  cbn [print log_handlers handler_objects printed].
  split.
  { rewrite <- (app_nil_r (log_handlers s)).
    apply clear_loop_log_handlers; [by rewrite app_nil_r|].
    by apply fresh_handlers_unknown. }
  split.
  { intros h Hh. rewrite clear_loop_handler_objects.
    rewrite decide_False; [by apply Hold|].
    intros Hin. rewrite Forall_forall in Hfr. by apply (Hfr h). }
  split; [|by rewrite clear_loop_printed].
  intros h o Hh. rewrite clear_loop_handler_objects.
  destruct (decide (h ∈ handlers)) as [Hin|Hin].
  - destruct (handler_objects s1 !! h); [|done]. by intros [= <-].
  - intros Ho. destruct (Hdom h) as [?|?]; [|done..].
    apply elem_of_dom. by exists o.
Qed.

(** X3: two set-ups, one after the other, do not get in each other's way.
    The closure of the first takes only the first's handlers off the logger
    and leaves those of the second as they are, and the other way round;
    after both closures, in either order, the logger has the handlers it
    had at the start. *)
Theorem clear_handlers_independent model1 model2
    (file1 stdout1 file2 stdout2 : bool) s :
  logging_wf s ->
  let r1 := setup_logging_streams model1 file1 stdout1 s in
  let r2 := setup_logging_streams model2 file2 stdout2 r1.2 in
  exists new1 new2,
    log_handlers r1.2 = log_handlers s ++ new1 /\
    log_handlers r2.2 = log_handlers s ++ new1 ++ new2 /\
    log_handlers (r1.1 r2.2) = log_handlers s ++ new2 /\
    log_handlers (r2.1 r2.2) = log_handlers s ++ new1 /\
    (forall h, h ∈ new2 ->
       handler_objects (r1.1 r2.2) !! h = handler_objects r2.2 !! h) /\
    (forall h, h ∈ new1 ->
       handler_objects (r2.1 r2.2) !! h = handler_objects r2.2 !! h) /\
    log_handlers (r2.1 (r1.1 r2.2)) = log_handlers s /\
    log_handlers (r1.1 (r2.1 r2.2)) = log_handlers s.
Proof.
  intros Hwf r1 r2.
  destruct (setup_logging_streams_spec model1 file1 stdout1 s Hwf)
    as (new1 & s1 & Hs1 & Hl1 & _ & Hfr1 & _ & _ & _ & _ & Hwf1).
  subst r2 r1. rewrite Hs1. cbn [fst snd].
  destruct (setup_logging_streams_spec model2 file2 stdout2 s1 Hwf1)
    as (new2 & s2 & Hs2 & Hl2 & _ & Hfr2 & _ & _ & _ & _ & Hwf2).
  rewrite Hs2. cbn [fst snd].
  pose proof (fresh_handlers_unknown s new1 Hwf Hfr1) as Hn1.
  pose proof (fresh_handlers_unknown s1 new2 Hwf1 Hfr2) as Hn2.
  rewrite Hl1 in Hn2.
  assert (Hn2l : Forall (fun h => h ∉ log_handlers s) new2).
  { eapply Forall_impl; [exact Hn2|]. intros h Hh Hin. apply Hh.
    apply elem_of_app. by left. }
  assert (Hdisj : forall h, h ∈ new2 -> h ∉ new1).
  { intros h Hh Hin. rewrite Forall_forall in Hn2. apply (Hn2 h Hh).
    apply elem_of_app. by right. }
  assert (Hc1 : log_handlers (clear_handlers new1 s2) = log_handlers s ++ new2).
  { unfold clear_handlers. cbn [print log_handlers].
    apply clear_loop_log_handlers; [|done]. by rewrite Hl2, Hl1, <- app_assoc. }
  assert (Hc2 : log_handlers (clear_handlers new2 s2) = log_handlers s ++ new1).
  { unfold clear_handlers. cbn [print log_handlers].
    rewrite <- (app_nil_r (log_handlers s ++ new1)).
    apply clear_loop_log_handlers; [|done]. by rewrite Hl2, Hl1, app_nil_r. }
  exists new1, new2. split; [done|].
  split; [by rewrite Hl2, Hl1, <- app_assoc|].
  split; [done|]. split; [done|]. split.
  { intros h Hh. unfold clear_handlers. cbn [print handler_objects].
    rewrite clear_loop_handler_objects. rewrite decide_False; [done|by apply Hdisj]. }
  split.
  { intros h Hh. unfold clear_handlers. cbn [print handler_objects].
    rewrite clear_loop_handler_objects. rewrite decide_False; [done|].
    intros Hin. by apply (Hdisj h). }
  split.
  - unfold clear_handlers at 1. cbn [print log_handlers].
    rewrite <- (app_nil_r (log_handlers s)).
    apply clear_loop_log_handlers; [|done]. by rewrite Hc1, app_nil_r.
  - unfold clear_handlers at 1. cbn [print log_handlers].
    rewrite <- (app_nil_r (log_handlers s)).
    apply clear_loop_log_handlers; [|done]. by rewrite Hc2, app_nil_r.
Qed.

Lemma setup_logging_streams_attaches_witness :
  exists handlers,
    log_handlers
      (setup_logging_streams example_logged_model true true
         example_logging_state).2
      = [0%nat] ++ handlers /\
    NoDup handlers.
Proof.
  destruct (setup_logging_streams_attaches example_logged_model true true
              example_logging_state)
    as (handlers & Hl & Hnd & _).
  - unfold logging_wf. compute_done.
  - by exists handlers.
Defined.

Lemma clear_handlers_restores_witness :
  let r := setup_logging_streams example_logged_model true true
             example_logging_state in
  log_handlers r.2 = [0; 1; 2]%nat /\
  log_handlers (r.1 r.2) = [0%nat].
Proof.
  intros r. split; [reflexivity|].
  apply (clear_handlers_restores example_logged_model true true
           example_logging_state).
  unfold logging_wf. compute_done.
Defined.

Lemma clear_handlers_independent_witness :
  let r1 := setup_logging_streams example_logged_model true false
              example_logging_state in
  let r2 := setup_logging_streams example_logged_model false true r1.2 in
  exists new1 new2,
    log_handlers r1.2 = [0%nat] ++ new1 /\
    log_handlers r2.2 = [0%nat] ++ new1 ++ new2 /\
    log_handlers (r1.1 r2.2) = [0%nat] ++ new2.
Proof.
  intros r1 r2.
  destruct (clear_handlers_independent example_logged_model example_logged_model
              true false false true example_logging_state)
    as (new1 & new2 & H1 & H2 & H3 & _).
  - unfold logging_wf. compute_done.
  - by exists new1, new2.
Defined.

(** ** validate on a classifier *)

Local Open Scope Qc_scope.

Lemma Qc_of_nat_eq_0 n : Qc_of_nat n = 0 -> n = 0%nat.
Proof.
  intros H. apply (f_equal (fun q => Qnum (this q))) in H. simpl in H. lia.
Qed.

Lemma Qcdiv_nonzero a b : a <> 0 -> b <> 0 -> a / b <> 0.
Proof.
  intros Ha Hb H. unfold Qcdiv in H.
  apply Qcmult_integral in H as [H|H]; [done|].
  apply (Qcmult_inv_r b) in Hb. rewrite H, Qcmult_0_r in Hb. discriminate Hb.
Qed.

Lemma py_div_ok a b : b <> 0 -> py_div a b = Ok (a / b).
Proof. intros Hb. unfold py_div. by rewrite decide_False. Qed.

(** [torch.argmax(output, -1)] of the scores of [n] examples over [K]
    classes, [K] not 0, is one class per example. *)
Lemma torch_argmax_classes output n K :
  shape output = [n; K] -> (0 < K)%nat ->
  exists prediction,
    torch_argmax output = Ok prediction /\ wf prediction /\ shape prediction = [n].
Proof.
  intros Hs HK. unfold torch_argmax. rewrite Hs. cbn [reverse rev_append].
  rewrite decide_False by lia. eexists. split; [done|]. split; [apply wf_build|done].
Qed.

(** The block that logs the progress goes through whenever no division in
    it is by zero, and logs at the iterations after the first that the
    logging frequency divides. *)
Lemma log_progress_ok ph epoch i dl logging_frequency st log :
  logging_frequency <> 0%Z -> total st <> 0%nat -> dataset_len dl <> 0%nat ->
  batches dl <> [] ->
  log_progress ph epoch i dl logging_frequency st log =
    Ok (if decide ((Z.of_nat i `mod` logging_frequency)%Z = 0%Z /\ (0 < i)%nat)
        then log ++ [LogDebug ph epoch i (length (batches dl))
                       (total_loss st / Qc_of_nat (total st))
                       (total_correct st / Qc_of_nat (dataset_len dl))
                       ((total_correct st / Qc_of_nat (dataset_len dl))
                        / (Qc_of_nat i / Qc_of_nat (length (batches dl))))]
        else log).
Proof.
  intros Hf Ht Hd Hb. unfold log_progress, py_mod.
  rewrite decide_False, bind_Ok by done.
  destruct (decide _) as [[_ Hi]|_]; [|done].
  assert (Hlen : Qc_of_nat (length (batches dl)) <> 0).
  { intros E%Qc_of_nat_eq_0. by destruct (batches dl). }
  assert (Hi' : Qc_of_nat i <> 0) by (intros E%Qc_of_nat_eq_0; lia).
  rewrite (py_div_ok (total_loss st)), bind_Ok
    by (intros E%Qc_of_nat_eq_0; done).
  rewrite (py_div_ok (total_correct st)), !bind_Ok
    by (intros E%Qc_of_nat_eq_0; done).
  rewrite (py_div_ok (Qc_of_nat i)), bind_Ok by done.
  by rewrite py_div_ok, bind_Ok by by apply Qcdiv_nonzero.
Qed.

(** One turn of the loop of [validate] on a batch of [n] examples that the
    network scores over [K] classes. *)
Lemma validate_batch_ok {G L : Type} (ops : learner_ops L)
    (criterion : criterion_fn) epoch dl tta_mixing logging_frequency i x y st
    (w : world G L) n K output l' :
  forward ops (w_learner w) x = (output, l') ->
  wf y -> shape y = [n] -> (0 < n)%nat -> shape output = [n; K] -> (0 < K)%nat ->
  length (data (criterion output y)) = 1%nat ->
  logging_frequency <> 0%Z -> dataset_len dl <> 0%nat -> batches dl <> [] ->
  exists prediction,
    torch_argmax output = Ok prediction /\
    shape prediction = [n] /\
    let st' := add_measure st
                 (Measure (default 0 (head (data (criterion output y))))
                          (Qc_of_nat (count_equal prediction y)) n) in
    validate_batch ops criterion epoch dl false tta_mixing logging_frequency i
      (x, y) (st, w)
    = Ok (st',
          World (w_rng w) l'
            (if decide ((Z.of_nat i `mod` logging_frequency)%Z = 0%Z /\ (0 < i)%nat)
             then w_log w ++
                  [LogDebug Validation epoch i (length (batches dl))
                     (total_loss st' / Qc_of_nat (total st'))
                     (total_correct st' / Qc_of_nat (dataset_len dl))
                     ((total_correct st' / Qc_of_nat (dataset_len dl))
                      / (Qc_of_nat i / Qc_of_nat (length (batches dl))))]
             else w_log w)).
Proof.
  intros Hfw Hy Hsy Hn Hso HK Hc Hf Hd Hb.
  destruct (torch_argmax_classes output n K Hso HK) as (prediction & Hp & Hwp & Hsp).
  pose proof (teq_count prediction y Hwp Hy (eq_trans Hsp (eq_sym Hsy))) as Hcount.
  destruct (teq prediction y) as [e|] eqn:He; [|discriminate Hcount].
  rewrite bind_Ok in Hcount.
  destruct (data (criterion output y)) as [|q [|? ?]] eqn:Hq; try discriminate Hc.
  assert (Hitem : item (criterion output y) = Ok q) by (unfold item; by rewrite Hq).
  exists prediction. split; [done|]. split; [done|]. intros st'.
  unfold validate_batch. cbv beta iota. rewrite Hfw, bind_Ok.
  unfold validate_score. rewrite Hp, bind_Ok. cbv zeta.
  rewrite Hitem, bind_Ok.
  unfold len. rewrite Hsy, !bind_Ok. rewrite He, bind_Ok, Hcount, !bind_Ok.
  rewrite (log_progress_ok Validation epoch i dl logging_frequency); try done.
  simpl. lia.
Qed.

(** The loop of [validate]: the statistics grow by the measures of the
    batches, the network only sees the inputs, the random numbers are left
    alone and the log grows by the debug lines. *)
Lemma validate_loop_ok {G L : Type} (ops : learner_ops L)
    (criterion : criterion_fn) epoch dl tta_mixing logging_frequency K :
  (0 < K)%nat -> logging_frequency <> 0%Z -> dataset_len dl <> 0%nat ->
  batches dl <> [] ->
  forall bs i st (w : world G L),
    Forall (scored_batch ops criterion K) bs ->
    exists debug,
      for_enumerate
        (validate_batch ops criterion epoch dl false tta_mixing logging_frequency)
        i bs (st, w)
      = Ok (foldl add_measure st (validate_measures ops criterion (w_learner w) bs),
            World (w_rng w)
              (foldl (fun l xy => (forward ops l xy.1).2) (w_learner w) bs)
              (w_log w ++ debug)) /\
      (fun e => match e with
                | LogDebug ph ep j n _ _ _ => Some (ph, ep, j, n)
                | LogInfo _ _ _ _ => None
                end) <$> debug
      = (fun j => Some (Validation, epoch, j, length (batches dl))) <$>
        filter (fun j => (Z.of_nat j `mod` logging_frequency)%Z = 0%Z /\ (0 < j)%nat)
          (seq i (length bs)).
Proof.
  intros HK Hf Hd Hb bs.
  induction bs as [|[x y] bs IH]; intros i st w Hbs.
  - exists []. split; [|done]. destruct w. cbn. by rewrite app_nil_r.
  - apply Forall_cons in Hbs as [(Hy & n & Hn & Hsy & Hfw) Hbs]. cbn [fst snd] in *.
    destruct (forward ops (w_learner w) x) as [output l'] eqn:F.
    destruct (Hfw (w_learner w)) as [Hso Hc]. rewrite F in Hso, Hc. cbn [fst] in Hso, Hc.
    destruct (validate_batch_ok ops criterion epoch dl tta_mixing logging_frequency
                i x y st w n K output l' F Hy Hsy Hn Hso HK Hc Hf Hd Hb)
      as (prediction & Hp & _ & Hstep).
    cbv zeta in Hstep. cbn [for_enumerate]. rewrite Hstep, bind_Ok.
    cbn [validate_measures foldl fst snd]. rewrite F, Hp, Hsy. cbn [hd snd].
    match goal with
    | |- context [for_enumerate _ _ _ (?st1, ?w1)] =>
        destruct (IH (S i) st1 w1 Hbs) as (debug & Hloop & Hdebug)
    end.
    cbn [w_rng w_learner w_log] in Hloop.
    cbn [length seq]. rewrite filter_cons.
    destruct (decide _) as [Hi|Hi].
    + eexists (_ :: debug). split.
      * rewrite Hloop. by rewrite <- app_assoc.
      * cbn [fmap list_fmap]. by rewrite <- Hdebug.
    + exists debug. by split.
Qed.

Lemma Qc_of_nat_le a b : (a <= b)%nat -> Qc_of_nat a <= Qc_of_nat b.
Proof.
  intros H. unfold Qc_of_nat, Qc_of_Z, Qcle, Q2Qc. simpl.
  rewrite ?Qred_correct. unfold Qle. simpl. lia.
Qed.

Lemma Qc_of_nat_add a b : Qc_of_nat (a + b) = Qc_of_nat a + Qc_of_nat b.
Proof. unfold Qc_of_nat. by rewrite Nat2Z.inj_add, Z2Qc_inj_add. Qed.

Lemma Qc_of_nat_0 : Qc_of_nat 0 = 0.
Proof. by apply Qc_is_canon. Qed.

(** A fraction of a whole that is not empty lies between 0 and 1. *)
Lemma Qcdiv_fraction a n :
  0 <= a -> a <= Qc_of_nat n -> n <> 0%nat ->
  0 <= a / Qc_of_nat n /\ a / Qc_of_nat n <= 1.
Proof.
  intros H0 H1 Hn.
  assert (Hne : Qc_of_nat n <> 0) by (intros E%Qc_of_nat_eq_0; done).
  assert (Hpos : 0 < Qc_of_nat n).
  { apply Qcle_lt_or_eq in H0 as H0'. pose proof (Qc_of_nat_le 0 n ltac:(lia)) as Hle.
    rewrite Qc_of_nat_0 in Hle. apply Qcle_lt_or_eq in Hle as [?|E]; [done|].
    by destruct Hne. }
  split; apply (Qcmult_lt_0_le_reg_r _ _ (Qc_of_nat n) Hpos);
    rewrite (Qcmult_comm (a / Qc_of_nat n)), Qcmult_div_r by done.
  - by rewrite Qcmult_0_l.
  - by rewrite Qcmult_1_l.
Qed.

Lemma count_equal_le a b : (count_equal a b <= length (data b))%nat.
Proof.
  unfold count_equal. etrans; [apply length_filter|].
  rewrite length_zip. lia.
Qed.

Lemma validate_measures_sizes {L : Type} (ops : learner_ops L) criterion bs :
  forall l, m_size <$> validate_measures ops criterion l bs
            = (fun xy => hd 0%nat (shape xy.2)) <$> bs.
Proof.
  induction bs as [|[x y] bs IH]; intros l; [done|].
  cbn [validate_measures]. destruct (forward ops l x) as [output l'].
  cbn [fmap list_fmap m_size snd]. f_equal. apply IH.
Qed.

(** The correct predictions of a batch are no more than its examples. *)
Lemma validate_measures_correct {L : Type} (ops : learner_ops L) criterion bs :
  Forall (fun xy => wf xy.2 /\ exists n, shape xy.2 = [n]) bs ->
  forall l,
    Forall (fun m => 0 <= m_correct m /\ m_correct m <= Qc_of_nat (m_size m))
      (validate_measures ops criterion l bs).
Proof.
  induction bs as [|[x y] bs IH]; intros Hbs l; [constructor|].
  apply Forall_cons in Hbs as [(Hy & n & Hsy) Hbs]. cbn [snd] in *.
  cbn [validate_measures]. destruct (forward ops l x) as [output l'].
  constructor; [|by apply IH]. cbn [m_correct m_size]. split.
  - rewrite <- Qc_of_nat_0. apply Qc_of_nat_le. lia.
  - apply Qc_of_nat_le. etrans; [apply count_equal_le|].
    rewrite Hy, Hsy. simpl. unfold numel. lia.
Qed.

Lemma Qcsum_bounded (ms : list measure) :
  Forall (fun m => 0 <= m_correct m /\ m_correct m <= Qc_of_nat (m_size m)) ms ->
  0 <= Qcsum (m_correct <$> ms) /\
  Qcsum (m_correct <$> ms) <= Qc_of_nat (sum_list (m_size <$> ms)).
Proof.
  induction 1 as [|m ms [H0 H1] _ [IH0 IH1]]; csimpl.
  - rewrite Qc_of_nat_0. split; apply Qcle_refl.
  - rewrite Qc_of_nat_add. split.
    + rewrite <- (Qcplus_0_l 0). by apply Qcplus_le_compat.
    + by apply Qcplus_le_compat.
Qed.

Lemma scored_batches_total {L : Type} (ops : learner_ops L) criterion K bs l :
  Forall (scored_batch ops criterion K) bs -> bs <> [] ->
  sum_list (m_size <$> validate_measures ops criterion l bs) <> 0%nat.
Proof.
  intros Hbs Hne. rewrite validate_measures_sizes.
  destruct bs as [|[x y] bs]; [done|].
  apply Forall_cons in Hbs as [(_ & n & Hn & Hsy & _) _]. cbn [snd] in Hsy.
  csimpl. rewrite Hsy. simpl. lia.
Qed.

(** What [validate] does on a classifier when it does not use augmented
    views. *)
Lemma validate_classifier_spec {G L : Type} (ops : learner_ops L)
    (criterion : criterion_fn) epoch dl tta_mixing logging_frequency K
    (w : world G L) :
  (0 < K)%nat -> logging_frequency <> 0%Z -> dataset_len dl <> 0%nat ->
  batches dl <> [] ->
  Forall (scored_batch ops criterion K) (batches dl) ->
  let ms := validate_measures ops criterion
              (set_training ops false (w_learner w)) (batches dl) in
  exists debug,
    validate ops criterion epoch dl false tta_mixing logging_frequency w
    = Ok ((mean_loss ms, accuracy ms),
          World (w_rng w)
            (foldl (fun l xy => (forward ops l xy.1).2)
               (set_training ops false (w_learner w)) (batches dl))
            (w_log w ++ debug
             ++ [LogInfo Validation (mean_loss ms) (accuracy ms) epoch])) /\
    (fun e => match e with
              | LogDebug ph ep j n _ _ _ => Some (ph, ep, j, n)
              | LogInfo _ _ _ _ => None
              end) <$> debug
    = (fun j => Some (Validation, epoch, j, length (batches dl))) <$>
      filter (fun j => (Z.of_nat j `mod` logging_frequency)%Z = 0%Z /\ (0 < j)%nat)
        (seq 0 (length (batches dl))).
Proof.
  intros HK Hf Hd Hb Hbs ms.
  destruct (validate_loop_ok ops criterion epoch dl tta_mixing logging_frequency K
              HK Hf Hd Hb (batches dl) 0%nat (Stats 0 0 0)
              (World (w_rng w) (set_training ops false (w_learner w)) (w_log w)) Hbs)
    as (debug & Hloop & Hdebug).
  cbn [w_rng w_learner w_log] in Hloop. fold ms in Hloop.
  exists debug. split; [|done].
  unfold validate. rewrite Hloop, bind_Ok. cbv beta iota. cbn [w_rng w_learner w_log].
  rewrite foldl_add_measure. cbn [total total_loss total_correct].
  pose proof (scored_batches_total ops criterion K (batches dl)
                (set_training ops false (w_learner w)) Hbs Hb) as Ht.
  fold ms in Ht.
  assert (Hq : Qc_of_nat (0 + sum_list (m_size <$> ms)) <> 0).
  { intros E%Qc_of_nat_eq_0. simpl in E. done. }
  unfold report. cbn [total total_loss total_correct].
  rewrite !py_div_ok, !bind_Ok by done.
  unfold mean_loss, accuracy. rewrite !Qcplus_0_l, Nat.add_0_l.
  by rewrite <- app_assoc.
Qed.

(** X4: on a data loader that is not empty, of batches of labels for which
    the network gives one score per example and class and the criterion one
    number, validate without augmented views returns: it reports the mean of
    the batch losses weighted by the batch sizes and the share of the
    examples whose highest score is at their label.  It leaves the random
    numbers alone and the network only ever sees the inputs, in eval mode. *)
Theorem validate_reports_weighted_means {G L : Type} (ops : learner_ops L)
    (criterion : criterion_fn) epoch dl tta_mixing logging_frequency K
    (w : world G L) :
  (0 < K)%nat -> logging_frequency <> 0%Z -> dataset_len dl <> 0%nat ->
  batches dl <> [] ->
  Forall (scored_batch ops criterion K) (batches dl) ->
  let ms := validate_measures ops criterion
              (set_training ops false (w_learner w)) (batches dl) in
  exists w',
    validate ops criterion epoch dl false tta_mixing logging_frequency w
      = Ok ((mean_loss ms, accuracy ms), w') /\
    w_rng w' = w_rng w /\
    w_learner w' = foldl (fun l xy => (forward ops l xy.1).2)
                     (set_training ops false (w_learner w)) (batches dl).
Proof.
  intros HK Hf Hd Hb Hbs ms.
  destruct (validate_classifier_spec ops criterion epoch dl tta_mixing
              logging_frequency K w HK Hf Hd Hb Hbs) as (debug & Hv & _).
  eexists. split; [exact Hv|]. by split.
Qed.

(** X5: under the same conditions the accuracy that validate returns lies
    between 0 and 1. *)
Theorem validate_accuracy_in_unit_interval {G L : Type} (ops : learner_ops L)
    (criterion : criterion_fn) epoch dl tta_mixing logging_frequency K
    (w : world G L) :
  (0 < K)%nat -> logging_frequency <> 0%Z -> dataset_len dl <> 0%nat ->
  batches dl <> [] ->
  Forall (scored_batch ops criterion K) (batches dl) ->
  exists final_loss final_acc w',
    validate ops criterion epoch dl false tta_mixing logging_frequency w
      = Ok ((final_loss, final_acc), w') /\
    0 <= final_acc /\ final_acc <= 1.
Proof.
  intros HK Hf Hd Hb Hbs.
  destruct (validate_classifier_spec ops criterion epoch dl tta_mixing
              logging_frequency K w HK Hf Hd Hb Hbs) as (debug & Hv & _).
  do 3 eexists. split; [exact Hv|].
  pose proof (scored_batches_total ops criterion K (batches dl)
                (set_training ops false (w_learner w)) Hbs Hb) as Ht.
  assert (Hbs' : Forall (fun xy => wf xy.2 /\ exists n, shape xy.2 = [n]) (batches dl)).
  { eapply Forall_impl; [exact Hbs|]. intros xy (Hy & n & _ & Hs & _). eauto. }
  destruct (Qcsum_bounded _ (validate_measures_correct ops criterion (batches dl) Hbs'
                               (set_training ops false (w_learner w)))) as [H0 H1].
  by apply Qcdiv_fraction.
Qed.

(** X6: under the same conditions validate adds to the log one debug line
    for each iteration after the first whose number the logging frequency
    divides, in order, each with the epoch and the number of batches, and
    after them one info line with the two values it returns. *)
Theorem validate_log_lines {G L : Type} (ops : learner_ops L)
    (criterion : criterion_fn) epoch dl tta_mixing logging_frequency K
    (w : world G L) :
  (0 < K)%nat -> logging_frequency <> 0%Z -> dataset_len dl <> 0%nat ->
  batches dl <> [] ->
  Forall (scored_batch ops criterion K) (batches dl) ->
  exists final_loss final_acc w' debug,
    validate ops criterion epoch dl false tta_mixing logging_frequency w
      = Ok ((final_loss, final_acc), w') /\
    w_log w' = w_log w ++ debug ++ [LogInfo Validation final_loss final_acc epoch] /\
    (fun e => match e with
              | LogDebug ph ep j n _ _ _ => Some (ph, ep, j, n)
              | LogInfo _ _ _ _ => None
              end) <$> debug
    = (fun j => Some (Validation, epoch, j, length (batches dl))) <$>
      filter (fun j => (Z.of_nat j `mod` logging_frequency)%Z = 0%Z /\ (0 < j)%nat)
        (seq 0 (length (batches dl))).
Proof.
  intros HK Hf Hd Hb Hbs.
  destruct (validate_classifier_spec ops criterion epoch dl tta_mixing
              logging_frequency K w HK Hf Hd Hb Hbs) as (debug & Hv & Hdebug).
  do 3 eexists. exists debug. split; [exact Hv|]. by split.
Qed.

Lemma example_batch_scored :
  scored_batch example_ops example_criterion 2 (example_x, example_y).
Proof.
  split; [reflexivity|].
  exists 2%nat. split; [lia|]. split; [reflexivity|].
  intros l. split; reflexivity.
Defined.

Lemma example_loader_scored :
  Forall (scored_batch example_ops example_criterion 2) (batches example_loader).
Proof. apply Forall_cons_2; [exact example_batch_scored|constructor]. Defined.

Lemma example_loader3_scored :
  Forall (scored_batch example_ops example_criterion 2) (batches example_loader3).
Proof.
  unfold example_loader3, batches.
  repeat (apply Forall_cons_2; [exact example_batch_scored|]). constructor.
Defined.

Lemma validate_reports_weighted_means_witness :
  exists w',
    validate example_ops example_criterion 1%Z example_loader false
      (Q2Qc (6 # 10)) 50%Z example_world
    = Ok ((mean_loss (validate_measures example_ops example_criterion 0%nat
                        [(example_x, example_y)]),
           accuracy (validate_measures example_ops example_criterion 0%nat
                       [(example_x, example_y)])), w') /\
    w_rng w' = 0%nat /\
    w_learner w' = 0%nat.
Proof.
  apply (validate_reports_weighted_means example_ops example_criterion 1%Z
           example_loader (Q2Qc (6 # 10)) 50%Z 2 example_world).
  - lia.
  - discriminate.
  - discriminate.
  - discriminate.
  - exact example_loader_scored.
Defined.

Lemma validate_accuracy_in_unit_interval_witness :
  exists final_loss final_acc w',
    validate example_ops example_criterion 1%Z example_loader false
      (Q2Qc (6 # 10)) 50%Z example_world = Ok ((final_loss, final_acc), w') /\
    0 <= final_acc /\ final_acc <= 1.
Proof.
  apply (validate_accuracy_in_unit_interval example_ops example_criterion 1%Z
           example_loader (Q2Qc (6 # 10)) 50%Z 2 example_world).
  - lia.
  - discriminate.
  - discriminate.
  - discriminate.
  - exact example_loader_scored.
Defined.

Lemma validate_log_lines_witness :
  exists final_loss final_acc w' debug,
    validate example_ops example_criterion 1%Z example_loader3 false
      (Q2Qc (6 # 10)) 2%Z example_world = Ok ((final_loss, final_acc), w') /\
    w_log w' = debug ++ [LogInfo Validation final_loss final_acc 1%Z] /\
    (fun e => match e with
              | LogDebug ph ep j n _ _ _ => Some (ph, ep, j, n)
              | LogInfo _ _ _ _ => None
              end) <$> debug
    = [Some (Validation, 1%Z, 2%nat, 3%nat)].
Proof.
  destruct (validate_log_lines example_ops example_criterion 1%Z
              example_loader3 (Q2Qc (6 # 10)) 2%Z 2 example_world)
    as (final_loss & final_acc & w' & debug & Hv & Hlog & Hdebug).
  - lia.
  - discriminate.
  - discriminate.
  - discriminate.
  - exact example_loader3_scored.
  - exists final_loss, final_acc, w', debug. 
    split; [exact Hv|].
    split; [exact Hlog|]. rewrite Hdebug. reflexivity.
Defined.

(** ** A logging frequency of zero *)

Lemma log_progress_zero_frequency ph epoch i dl st log :
  log_progress ph epoch i dl 0 st log = Raise ZeroDivisionError.
Proof. unfold log_progress, py_mod. by rewrite decide_True. Qed.

Lemma train_batch_zero_frequency {G L : Type} (rng : rng_ops G)
    (ops : learner_ops L) (criterion : criterion_fn) epoch dl has_scheduler
    mixup alpha i xy (acc : stats * world G L) :
  exists e, train_batch rng ops criterion epoch dl has_scheduler mixup alpha 0
              i xy acc = Raise e.
Proof.
  destruct (train_batch _ _ _ _ _ _ _ _ _ _ _ _) as [r|e] eqn:H; [|by exists e].
  exfalso. unfold train_batch in H. destruct acc as [st w], xy as [x y].
  bind_inv H.
  match goal with
  | E : log_progress _ _ _ _ _ _ _ = Ok _ |- _ =>
      rewrite log_progress_zero_frequency in E; discriminate E
  end.
Qed.

Lemma validate_batch_zero_frequency {G L : Type} (ops : learner_ops L)
    (criterion : criterion_fn) epoch dl tta tta_mixing i xy
    (acc : stats * world G L) :
  exists e, validate_batch ops criterion epoch dl tta tta_mixing 0 i xy acc
            = Raise e.
Proof.
  destruct (validate_batch _ _ _ _ _ _ _ _ _ _) as [r|e] eqn:H; [|by exists e].
  exfalso. unfold validate_batch, validate_score in H.
  destruct acc as [st w], xy as [x y].
  bind_inv H.
  match goal with
  | E : log_progress _ _ _ _ _ _ _ = Ok _ |- _ =>
      rewrite log_progress_zero_frequency in E; discriminate E
  end.
Qed.

(** X7: with a logging frequency of 0 neither train nor validate returns
    on a data loader that has a batch: if nothing fails before, the first
    batch ends in the division of the iteration number by 0. *)
Theorem zero_logging_frequency_raises {G L : Type} (rng : rng_ops G)
    (ops : learner_ops L) (criterion : criterion_fn) (epoch : Z) (dl : dataloader)
    (has_scheduler mixup tta : bool) (alpha tta_mixing : Qc) (w : world G L) :
  batches dl <> [] ->
  (exists e, train rng ops criterion epoch dl has_scheduler mixup alpha 0 w
             = Raise e) /\
  (exists e, validate ops criterion epoch dl tta tta_mixing 0 w = Raise e).
Proof.
  intros Hb. destruct (batches dl) as [|xy bs] eqn:Hbs; [done|]. split.
  - unfold train. rewrite Hbs. cbn [for_enumerate].
    match goal with
    | |- context [train_batch ?r ?o ?c ?ep ?d ?hs ?mx ?al 0 ?i ?b ?a] =>
        destruct (train_batch_zero_frequency r o c ep d hs mx al i b a) as [e He];
        rewrite He
    end.
    by exists e.
  - unfold validate. rewrite Hbs. cbn [for_enumerate].
    match goal with
    | |- context [validate_batch ?o ?c ?ep ?d ?t ?tm 0 ?i ?b ?a] =>
        destruct (validate_batch_zero_frequency o c ep d t tm i b a) as [e He];
        rewrite He
    end.
    by exists e.
Qed.

Lemma zero_logging_frequency_raises_witness :
  (exists e, train example_rng example_ops example_criterion 1%Z example_loader
               true false (Q2Qc (4 # 10)) 0 example_world = Raise e) /\
  (exists e, validate example_ops example_criterion 1%Z example_loader false
               (Q2Qc (6 # 10)) 0 example_world = Raise e).
Proof.
  apply (zero_logging_frequency_raises example_rng example_ops example_criterion
           1%Z example_loader true false false (Q2Qc (4 # 10)) (Q2Qc (6 # 10))
           example_world).
  discriminate.
Defined.

(** ** train without mixup *)

Lemma tmean_item t :
  wf t -> data t <> [] -> (loss ← tmean t; item loss) = Ok (Qcmean (data t)).
Proof.
  intros Hw Hd. unfold tmean. rewrite decide_False.
  - rewrite bind_Ok. unfold Qcmean. by rewrite Hw.
  - rewrite <- Hw. by destruct (data t).
Qed.

(** One turn of the loop of [train], mixup off, on a batch of [n] images
    that the network scores over [K] classes. *)
Lemma train_batch_ok {G L : Type} (rng : rng_ops G) (ops : learner_ops L)
    (criterion : criterion_fn) epoch dl has_scheduler alpha logging_frequency
    i x y st (w : world G L) n rx K output l1 :
  regular_loss criterion ->
  permutation_of_range n (torch_randperm rng n (w_rng w)).1 ->
  forward ops (zero_grad ops (w_learner w)) x = (output, l1) ->
  wf x -> shape x = n :: rx -> rx <> [] ->
  wf y -> shape y = [n] -> (0 < n)%nat -> shape output = [n; K] -> (0 < K)%nat ->
  data (criterion output y) <> [] ->
  logging_frequency <> 0%Z -> dataset_len dl <> 0%nat -> batches dl <> [] ->
  exists m prediction,
    mixup_data rng x y criterion 0 (w_rng w)
      = Ok (m, (torch_randperm rng n (w_rng w)).2) /\
    torch_argmax output = Ok prediction /\
    let st' := add_measure st
                 (Measure (Qcmean (data (criterion output y)))
                          (Qc_of_nat (count_equal prediction y)) n) in
    let l2 := backward_and_step ops l1 x (mixup_criterion m) in
    train_batch rng ops criterion epoch dl has_scheduler false alpha
      logging_frequency i (x, y) (st, w)
    = Ok (st',
          World (torch_randperm rng n (w_rng w)).2
            (if has_scheduler then scheduler_step ops l2 else l2)
            (if decide ((Z.of_nat i `mod` logging_frequency)%Z = 0%Z /\ (0 < i)%nat)
             then w_log w ++
                  [LogDebug Training epoch i (length (batches dl))
                     (total_loss st' / Qc_of_nat (total st'))
                     (total_correct st' / Qc_of_nat (dataset_len dl))
                     ((total_correct st' / Qc_of_nat (dataset_len dl))
                      / (Qc_of_nat i / Qc_of_nat (length (batches dl))))]
             else w_log w)).
Proof.
  intros Hreg Hperm Hfw Hx Hsx Hrx Hy Hsy Hn Hso HK Hc Hf Hd Hb.
  destruct (mixup_data_without_mixing rng x y criterion 0 (w_rng w) n rx [])
    as (m & Hm & _ & Hmx & _ & Hcrit & Hacc); try done.
  destruct (torch_argmax_classes output n K Hso HK) as (prediction & Hp & Hwp & Hsp).
  pose proof (teq_count prediction y Hwp Hy (eq_trans Hsp (eq_sym Hsy))) as Hcount.
  rewrite <- Hacc in Hcount.
  destruct (Hreg output y y) as [Hwc _].
  pose proof (tmean_item (criterion output y) Hwc Hc) as Hloss.
  rewrite <- Hcrit in Hloss.
  destruct (mixup_criterion m output) as [loss|] eqn:Hl; [|discriminate Hloss].
  rewrite bind_Ok in Hloss.
  exists m, prediction. split; [done|]. split; [done|]. intros st' l2.
  unfold train_batch. cbv beta iota. rewrite Hm, bind_Ok. cbv beta iota.
  rewrite Hmx, Hfw. rewrite Hp, bind_Ok, Hl, bind_Ok, Hloss, bind_Ok.
  unfold len. rewrite Hsy, !bind_Ok. rewrite Hcount, !bind_Ok.
  rewrite (log_progress_ok Training epoch i dl logging_frequency); try done.
  simpl. lia.
Qed.

(** The loop of [train], mixup off: the statistics grow by the measures of
    the batches, one permutation is drawn per batch and the log grows by
    the debug lines. *)
Lemma train_loop_ok {G L : Type} (rng : rng_ops G) (ops : learner_ops L)
    (criterion : criterion_fn) epoch dl has_scheduler alpha logging_frequency K :
  regular_loss criterion ->
  (forall n g, permutation_of_range n (torch_randperm rng n g).1) ->
  (0 < K)%nat -> logging_frequency <> 0%Z -> dataset_len dl <> 0%nat ->
  batches dl <> [] ->
  forall bs i st (w : world G L),
    Forall (image_batch ops criterion K) bs ->
    exists l' debug,
      for_enumerate
        (train_batch rng ops criterion epoch dl has_scheduler false alpha
           logging_frequency)
        i bs (st, w)
      = Ok (foldl add_measure st
              (train_measures rng ops criterion has_scheduler
                 (w_rng w) (w_learner w) bs),
            World
              (foldl (fun g xy => (torch_randperm rng (hd 0%nat (shape xy.1)) g).2)
                 (w_rng w) bs)
              l' (w_log w ++ debug)) /\
      m_size <$> train_measures rng ops criterion has_scheduler
                   (w_rng w) (w_learner w) bs
        = (fun xy => hd 0%nat (shape xy.2)) <$> bs /\
      Forall (fun m => 0 <= m_correct m /\ m_correct m <= Qc_of_nat (m_size m))
        (train_measures rng ops criterion has_scheduler (w_rng w) (w_learner w) bs) /\
      (fun e => match e with
                | LogDebug ph ep j n _ _ _ => Some (ph, ep, j, n)
                | LogInfo _ _ _ _ => None
                end) <$> debug
      = (fun j => Some (Training, epoch, j, length (batches dl))) <$>
        filter (fun j => (Z.of_nat j `mod` logging_frequency)%Z = 0%Z /\ (0 < j)%nat)
          (seq i (length bs)).
Proof.
  intros Hreg Hperm HK Hf Hd Hb bs.
  induction bs as [|[x y] bs IH]; intros i st w Hbs.
  - exists (w_learner w), []. destruct w. cbn. rewrite app_nil_r.
    split; [done|]. split; [done|]. split; [constructor|done].
  - apply Forall_cons in Hbs
      as [(Hx & Hy & n & rx & Hn & Hsx & Hrx & Hsy & Hfw) Hbs].
    cbn [fst snd] in *.
    destruct (forward ops (zero_grad ops (w_learner w)) x) as [output l1] eqn:F.
    destruct (Hfw (zero_grad ops (w_learner w))) as [Hso Hc].
    rewrite F in Hso, Hc. cbn [fst] in Hso, Hc.
    destruct (train_batch_ok rng ops criterion epoch dl has_scheduler alpha
                logging_frequency i x y st w n rx K output l1 Hreg
                (Hperm n (w_rng w)) F Hx Hsx Hrx Hy Hsy Hn Hso HK Hc Hf Hd Hb)
      as (m & prediction & Hm & Hp & Hstep).
    cbv zeta in Hstep. cbn [for_enumerate]. rewrite Hstep, bind_Ok.
    cbn [train_measures foldl fst snd]. rewrite Hm, F, Hp, Hsy, Hsx. cbn [hd].
    match goal with
    | |- context [for_enumerate _ _ _ (?st1, ?w1)] =>
        destruct (IH (S i) st1 w1 Hbs) as (l' & debug & Hloop & Hsz & Hcor & Hdebug)
    end.
    cbn [w_rng w_learner w_log] in Hloop, Hsz, Hcor.
    assert (Hcount : 0 <= Qc_of_nat (count_equal prediction y) /\
                     Qc_of_nat (count_equal prediction y) <= Qc_of_nat n).
    { split.
      - rewrite <- Qc_of_nat_0. apply Qc_of_nat_le. lia.
      - apply Qc_of_nat_le. etrans; [apply count_equal_le|].
        rewrite Hy, Hsy. unfold numel. lia. }
    cbn [length seq]. rewrite filter_cons.
    destruct (decide _) as [Hi|Hi].
    + exists l'. eexists (_ :: debug). split; [|split; [|split]].
      * rewrite Hloop. by rewrite <- app_assoc.
      * cbn [fmap list_fmap m_size snd]. by rewrite Hsz, Hsy.
      * by constructor.
      * cbn [fmap list_fmap]. by rewrite <- Hdebug.
    + exists l', debug. split; [done|]. split; [|split; [|done]].
      * cbn [fmap list_fmap m_size snd]. by rewrite Hsz, Hsy.
      * by constructor.
Qed.

(** What [train] does on a classifier with mixup off. *)
Lemma train_classifier_spec {G L : Type} (rng : rng_ops G) (ops : learner_ops L)
    (criterion : criterion_fn) epoch dl has_scheduler alpha logging_frequency K
    (w : world G L) :
  regular_loss criterion ->
  (forall n g, permutation_of_range n (torch_randperm rng n g).1) ->
  (0 < K)%nat -> logging_frequency <> 0%Z -> dataset_len dl <> 0%nat ->
  batches dl <> [] ->
  Forall (image_batch ops criterion K) (batches dl) ->
  let ms := train_measures rng ops criterion has_scheduler (w_rng w)
              (set_training ops true (w_learner w)) (batches dl) in
  exists l' debug,
    train rng ops criterion epoch dl has_scheduler false alpha logging_frequency w
    = Ok ((mean_loss ms, accuracy ms),
          World
            (foldl (fun g xy => (torch_randperm rng (hd 0%nat (shape xy.1)) g).2)
               (w_rng w) (batches dl))
            l'
            (w_log w ++ debug
             ++ [LogInfo Training (mean_loss ms) (accuracy ms) epoch])) /\
    0 <= accuracy ms /\ accuracy ms <= 1 /\
    (fun e => match e with
              | LogDebug ph ep j n _ _ _ => Some (ph, ep, j, n)
              | LogInfo _ _ _ _ => None
              end) <$> debug
    = (fun j => Some (Training, epoch, j, length (batches dl))) <$>
      filter (fun j => (Z.of_nat j `mod` logging_frequency)%Z = 0%Z /\ (0 < j)%nat)
        (seq 0 (length (batches dl))).
Proof.
  intros Hreg Hperm HK Hf Hd Hb Hbs ms.
  destruct (train_loop_ok rng ops criterion epoch dl has_scheduler alpha
              logging_frequency K Hreg Hperm HK Hf Hd Hb (batches dl) 0%nat
              (Stats 0 0 0)
              (World (w_rng w) (set_training ops true (w_learner w)) (w_log w)) Hbs)
    as (l' & debug & Hloop & Hsz & Hcor & Hdebug).
  cbn [w_rng w_learner w_log] in Hloop, Hsz, Hcor. fold ms in Hloop, Hsz, Hcor.
  assert (Ht : sum_list (m_size <$> ms) <> 0%nat).
  { rewrite Hsz. destruct (batches dl) as [|[x y] bs]; [done|].
    apply Forall_cons in Hbs as [(_ & _ & n & rx & Hn & _ & _ & Hsy & _) _].
    cbn [snd] in Hsy. csimpl. rewrite Hsy. simpl. lia. }
  exists l', debug. split; [|split; [|split; [|done]]].
  - unfold train. rewrite Hloop, bind_Ok. cbv beta iota.
    cbn [w_rng w_learner w_log].
    rewrite foldl_add_measure. cbn [total total_loss total_correct].
    assert (Hq : Qc_of_nat (0 + sum_list (m_size <$> ms)) <> 0).
    { intros E%Qc_of_nat_eq_0. simpl in E. done. }
    unfold report. cbn [total total_loss total_correct].
    rewrite !py_div_ok, !bind_Ok by done.
    unfold mean_loss, accuracy. rewrite !Qcplus_0_l, Nat.add_0_l.
    by rewrite <- app_assoc.
  - destruct (Qcsum_bounded ms Hcor) as [H0 H1]. by apply Qcdiv_fraction.
  - destruct (Qcsum_bounded ms Hcor) as [H0 H1]. by apply Qcdiv_fraction.
Qed.

(** X8: with mixup off, on a data loader that is not empty, of batches of
    images and labels for which the network gives one score per example and
    class, train returns: it reports the mean of the batch losses weighted
    by the batch sizes and the share of the examples whose highest score is
    at their label, which lies between 0 and 1. *)
Theorem train_without_mixup_reports_means {G L : Type} (rng : rng_ops G)
    (ops : learner_ops L) (criterion : criterion_fn) epoch dl has_scheduler
    alpha logging_frequency K (w : world G L) :
  regular_loss criterion ->
  (forall n g, permutation_of_range n (torch_randperm rng n g).1) ->
  (0 < K)%nat -> logging_frequency <> 0%Z -> dataset_len dl <> 0%nat ->
  batches dl <> [] ->
  Forall (image_batch ops criterion K) (batches dl) ->
  let ms := train_measures rng ops criterion has_scheduler (w_rng w)
              (set_training ops true (w_learner w)) (batches dl) in
  exists w',
    train rng ops criterion epoch dl has_scheduler false alpha logging_frequency w
      = Ok ((mean_loss ms, accuracy ms), w') /\
    0 <= accuracy ms /\ accuracy ms <= 1.
Proof.
  intros Hreg Hperm HK Hf Hd Hb Hbs ms.
  destruct (train_classifier_spec rng ops criterion epoch dl has_scheduler alpha
              logging_frequency K w Hreg Hperm HK Hf Hd Hb Hbs)
    as (l' & debug & Ht & H0 & H1 & _).
  eexists. split; [exact Ht|]. by split.
Qed.

(** X9: with mixup off train still draws one permutation per batch from
    the random number generator, and nothing else. *)
Theorem train_without_mixup_draws_permutations {G L : Type} (rng : rng_ops G)
    (ops : learner_ops L) (criterion : criterion_fn) epoch dl has_scheduler
    alpha logging_frequency K (w : world G L) :
  regular_loss criterion ->
  (forall n g, permutation_of_range n (torch_randperm rng n g).1) ->
  (0 < K)%nat -> logging_frequency <> 0%Z -> dataset_len dl <> 0%nat ->
  batches dl <> [] ->
  Forall (image_batch ops criterion K) (batches dl) ->
  exists res w',
    train rng ops criterion epoch dl has_scheduler false alpha logging_frequency w
      = Ok (res, w') /\
    w_rng w' = foldl (fun g xy => (torch_randperm rng (hd 0%nat (shape xy.1)) g).2)
                 (w_rng w) (batches dl).
Proof.
  intros Hreg Hperm HK Hf Hd Hb Hbs.
  destruct (train_classifier_spec rng ops criterion epoch dl has_scheduler alpha
              logging_frequency K w Hreg Hperm HK Hf Hd Hb Hbs)
    as (l' & debug & Ht & _).
  do 2 eexists. split; [exact Ht|]. done.
Qed.

Lemma example_criterion_regular : regular_loss example_criterion.
Proof. intros pred t1 t2. split; reflexivity. Defined.

Lemma example_rng_permutes n g :
  permutation_of_range n (torch_randperm example_rng n g).1.
Proof. apply reverse_Permutation. Defined.

Lemma example_loader_images :
  Forall (image_batch example_ops example_criterion 2) (batches example_loader).
Proof.
  apply Forall_cons_2; [|constructor].
  split; [reflexivity|]. split; [reflexivity|].
  exists 2%nat, [1; 1; 2]%nat. split; [lia|]. split; [reflexivity|].
  split; [discriminate|]. split; [reflexivity|].
  intros l. split; [reflexivity|discriminate].
Defined.

Lemma train_without_mixup_reports_means_witness :
  exists w',
    train example_rng example_ops example_criterion 1%Z example_loader true false
      (Q2Qc (4 # 10)) 50%Z example_world
    = Ok ((mean_loss (train_measures example_rng example_ops example_criterion
                        true 0%nat 0%nat [(example_x, example_y)]),
           accuracy (train_measures example_rng example_ops example_criterion
                       true 0%nat 0%nat [(example_x, example_y)])), w') /\
    0 <= accuracy (train_measures example_rng example_ops example_criterion
                     true 0%nat 0%nat [(example_x, example_y)]) /\
    accuracy (train_measures example_rng example_ops example_criterion
                true 0%nat 0%nat [(example_x, example_y)]) <= 1.
Proof.
  apply (train_without_mixup_reports_means example_rng example_ops
           example_criterion 1%Z example_loader true (Q2Qc (4 # 10)) 50%Z 2
           example_world).
  - exact example_criterion_regular.
  - exact example_rng_permutes.
  - lia.
  - discriminate.
  - discriminate.
  - discriminate.
  - exact example_loader_images.
Defined.

Lemma train_without_mixup_draws_permutations_witness :
  exists res w',
    train example_rng example_ops example_criterion 1%Z example_loader true false
      (Q2Qc (4 # 10)) 50%Z example_world = Ok (res, w') /\
    w_rng w' = 1%nat.
Proof.
  apply (train_without_mixup_draws_permutations example_rng example_ops
           example_criterion 1%Z example_loader true (Q2Qc (4 # 10)) 50%Z 2
           example_world).
  - exact example_criterion_regular.
  - exact example_rng_permutes.
  - lia.
  - discriminate.
  - discriminate.
  - discriminate.
  - exact example_loader_images.
Defined.

(** ** mixup_data: range and edge cases *)

Lemma wf_map2b op a b t : map2b op a b = Ok t -> wf t.
Proof.
  unfold map2b. destruct (broadcast_shapes _ _); [|done].
  intros [= <-]. apply wf_build.
Qed.

Lemma mixup_data_wf_mixed_x {G : Type} (rng : rng_ops G) x y criterion alpha g m g' :
  mixup_data rng x y criterion alpha g = Ok (m, g') -> wf (mixed_x m).
Proof.
  unfold mixup_data. intros H. bind_inv H. injection H as <- _.
  cbn [mixed_x]. by eapply wf_map2b.
Qed.

(** A number between two numbers of a range is in the range. *)
Lemma Qc_convex_range (l xa xb lo hi : Qc) :
  0 <= l -> l <= 1 -> lo <= xa -> xa <= hi -> lo <= xb -> xb <= hi ->
  lo <= l * xa + (1 - l) * xb /\ l * xa + (1 - l) * xb <= hi.
Proof.
  intros Hl0 Hl1 Ha0 Ha1 Hb0 Hb1. qc_to_q. split; Lqa.nra.
Qed.

Lemma tget_in_data t idx v : tget t idx = Some v -> v ∈ data t.
Proof.
  unfold tget. case_decide; [|done]. apply list_elem_of_lookup_2.
Qed.

Lemma tget_is_Some t idx : wf t -> in_bounds (shape t) idx -> is_Some (tget t idx).
Proof.
  intros Hw Hi. unfold tget. rewrite decide_True by done.
  apply lookup_lt_is_Some. rewrite Hw. by apply ravel_lt.
Qed.

(** X10: mixup keeps the range of the pixels.  With mixup on, if every
    value of the batch lies between [lo] and [hi], so does every value of
    the mixed batch. *)
Theorem mixup_data_keeps_range {G : Type} (rng : rng_ops G) (x y : tensor)
    (criterion : criterion_fn) (alpha : Qc) (g g1 g2 : G) (n c h w : nat)
    (draws : list Qc) (index : list nat) (lo hi : Qc) :
  0 < alpha ->
  wf x -> shape x = [n; c; h; w] -> wf y -> shape y = [n] -> (0 < n)%nat ->
  np_random_beta rng alpha alpha n g = (draws, g1) -> beta_sample n draws ->
  torch_randperm rng n g1 = (index, g2) -> permutation_of_range n index ->
  Forall (fun v => lo <= v /\ v <= hi) (data x) ->
  exists m, mixup_data rng x y criterion alpha g = Ok (m, g2) /\
    Forall (fun v => lo <= v /\ v <= hi) (data (mixed_x m)).
Proof.
  intros Halpha Hx Hsx Hy Hsy Hn Hbeta [Hdl Hdr] Hrp Hperm Hrange.
  destruct (mixup_data_with_mixing rng x y criterion alpha g g1 g2 n c h w
              draws index)
    as (m & Hm & _ & Hs & Hat & _); try done.
  exists m. split; [done|].
  pose proof (mixup_data_wf_mixed_x _ _ _ _ _ _ _ _ Hm) as Hwm.
  apply permutation_of_range_bounds in Hperm as [Hlen Hall].
  rewrite Forall_forall in Hrange. rewrite Forall_forall in Hall.
  apply Forall_lookup. intros k v Hk.
  assert (Hkn : (k < numel [n; c; h; w])%nat).
  { rewrite <- Hs, <- Hwm. by eapply lookup_lt_Some. }
  pose proof (unravel_in_bounds _ _ Hkn) as Hib.
  destruct (unravel [n; c; h; w] k) as [|i [|jc [|jh [|jw [|? ?]]]]] eqn:Hu;
    try (apply Forall2_length in Hib; discriminate Hib).
  assert (Hget : tget (mixed_x m) [i; jc; jh; jw] = Some v).
  { unfold tget. rewrite Hs, decide_True by done.
    by rewrite <- Hu, ravel_unravel. }
  pose proof Hib as Hib'.
  apply Forall2_cons_1 in Hib' as [Hi Hrest].
  destruct (lookup_lt_is_Some_2 (lam_of <$> draws) i) as [l Hl];
    [by rewrite length_fmap, Hdl|].
  destruct (lookup_lt_is_Some_2 index i) as [j Hj]; [by rewrite Hlen|].
  assert (Hjn : (j < n)%nat) by (apply Hall; by eapply list_elem_of_lookup_2).
  destruct (tget_is_Some x [i; jc; jh; jw] Hx) as [xa Hxa]; [by rewrite Hsx|].
  destruct (tget_is_Some x [j; jc; jh; jw] Hx) as [xb Hxb].
  { rewrite Hsx. by constructor. }
  rewrite (Hat i j jc jh jw l xa xb Hl Hj Hxa Hxb) in Hget. injection Hget as <-.
  apply list_lookup_fmap_Some in Hl as (d & -> & Hd).
  rewrite Forall_forall in Hdr.
  destruct (lam_of_bounds d) as [Hl0 Hl1];
    [apply Hdr; by eapply list_elem_of_lookup_2|].
  destruct (Hrange xa (tget_in_data _ _ _ Hxa)) as [Ha0 Ha1].
  destruct (Hrange xb (tget_in_data _ _ _ Hxb)) as [Hb0 Hb1].
  apply Qc_convex_range; try done.
  eapply Qcle_trans; [|exact Hl0]. by apply Qc_is_canon || done.
Qed.

Lemma mixup_data_keeps_range_witness :
  exists m,
    mixup_data example_rng example_x example_y example_criterion
      (Q2Qc (4 # 10)) 0%nat = Ok (m, 2%nat) /\
    Forall (fun v => 1 <= v /\ v <= 2 + 2) (data (mixed_x m)).
Proof.
  apply (mixup_data_keeps_range example_rng example_x example_y
           example_criterion (Q2Qc (4 # 10)) 0%nat 1%nat 2%nat 2 1 1 2
           [Q2Qc (3 # 10); Q2Qc (9 # 10)] [1; 0]%nat 1 (2 + 2)).
  - vm_compute. reflexivity.
  - reflexivity.
  - reflexivity.
  - reflexivity.
  - reflexivity.
  - lia.
  - reflexivity.
  - split; [reflexivity|]. repeat constructor; vm_compute; discriminate.
  - reflexivity.
  - unfold permutation_of_range. simpl. apply perm_swap.
  - repeat constructor; vm_compute; discriminate.
Defined.

Lemma broadcast_shapes_lam_vectors n d :
  broadcast_shapes [n; 1; 1; 1]%nat [n; d] = Some [n; 1; n; d]%nat.
Proof.
  unfold broadcast_shapes.
  change (reverse [n; 1; 1; 1]%nat) with [1; 1; 1; n]%nat.
  change (reverse [n; d]) with [d; n]. simpl.
  by rewrite !broadcast_dim_1_l.
Qed.

Lemma bidx_vectors n d i k j :
  (k < n)%nat -> (j < d)%nat -> bidx [n; d] [i; 0; k; j]%nat = [k; j].
Proof.
  intros Hk Hj. unfold bidx; simpl. f_equal; [|f_equal]; case_decide; lia.
Qed.

Lemma bidx_lam_vectors n i k j :
  (i < n)%nat -> bidx [n; 1; 1; 1]%nat [i; 0; k; j]%nat = [i; 0; 0; 0]%nat.
Proof. intros Hi. unfold bidx; simpl. f_equal. case_decide; lia. Qed.

(** X11: mixup is made for batches of images.  On a batch of [n] vectors,
    of shape [(n, d)], the coefficients of shape [(n, 1, 1, 1)] do not line
    up with the examples: mixup_data does not fail but returns a mixed batch
    of shape [(n, 1, n, d)], which holds every example mixed with every
    coefficient. *)
Theorem mixup_data_on_vectors {G : Type} (rng : rng_ops G) (x y : tensor)
    (criterion : criterion_fn) (alpha : Qc) (g g1 g2 : G) (n d : nat)
    (draws : list Qc) (index : list nat) :
  0 < alpha ->
  wf x -> shape x = [n; d] -> wf y -> shape y = [n] ->
  np_random_beta rng alpha alpha n g = (draws, g1) -> length draws = n ->
  torch_randperm rng n g1 = (index, g2) -> permutation_of_range n index ->
  exists m, mixup_data rng x y criterion alpha g = Ok (m, g2) /\
    shape (mixed_x m) = [n; 1; n; d]%nat /\
    (forall i k k' j l xa xb,
       (lam_of <$> draws) !! i = Some l -> index !! k = Some k' ->
       tget x [k; j] = Some xa -> tget x [k'; j] = Some xb ->
       tget (mixed_x m) [i; 0; k; j]%nat = Some (l * xa + (1 - l) * xb)).
Proof.
  intros Halpha Hx Hsx Hy Hsy Hbeta Hdl Hrp Hperm.
  apply permutation_of_range_bounds in Hperm as [Hlen Hall].
  set (lams := lam_of <$> draws).
  assert (Hll : length lams = n) by (unfold lams; by rewrite length_fmap).
  set (L := Tensor [n; 1; 1; 1]%nat lams).
  assert (HwL : wf L) by (by apply wf_lam).
  set (OML := Tensor [n; 1; 1; 1]%nat (Qcminus 1 <$> lams)).
  destruct (index_rows_spec x index n [d] Hsx Hall)
    as (xi & Hxi & Hsxi & Hwxi & Hxi_at).
  destruct (index_rows_spec y index n [] Hsy Hall)
    as (yi & Hyi & Hsyi & Hwyi & Hyi_at).
  rewrite Hlen in Hsxi, Hsyi.
  unfold mixup_data, size0. rewrite Hsx, bind_Ok, decide_True, Hbeta by done.
  rewrite mixup_lam_eq by done. fold lams. fold L. rewrite !bind_Ok, Hrp.
  cbv beta iota. unfold tmul, tsub, tadd.
  rewrite (map2b_ok Qcmult L x [n; 1; n; d]%nat), bind_Ok
    by (rewrite Hsx; apply broadcast_shapes_lam_vectors).
  set (A := build [n; 1; n; d]%nat _).
  rewrite (map2b_scalar_l Qcminus 1 L), bind_Ok by done.
  change (Tensor (shape L) (Qcminus 1 <$> data L)) with OML.
  unfold index_rows_all. rewrite decide_True by (unfold rank; rewrite Hsx; simpl; lia).
  rewrite Hxi, bind_Ok.
  rewrite (map2b_ok Qcmult OML xi [n; 1; n; d]%nat), bind_Ok
    by (rewrite Hsxi; apply broadcast_shapes_lam_vectors).
  set (B := build [n; 1; n; d]%nat _).
  rewrite (map2b_ok Qcplus A B [n; 1; n; d]%nat), bind_Ok by apply broadcast_shapes_refl.
  set (M := build [n; 1; n; d]%nat _).
  rewrite Hyi, bind_Ok.
  rewrite (map2b_ok Qcmult L y [n; 1; 1; n]%nat), bind_Ok
    by (rewrite Hsy; apply broadcast_shapes_lam_y).
  set (P := build [n; 1; 1; n]%nat _).
  rewrite bind_Ok.
  rewrite (map2b_ok Qcmult OML yi [n; 1; 1; n]%nat), bind_Ok
    by (rewrite Hsyi; apply broadcast_shapes_lam_y).
  set (Q := build [n; 1; 1; n]%nat _).
  rewrite (map2b_ok Qcplus P Q [n; 1; 1; n]%nat), bind_Ok by apply broadcast_shapes_refl.
  eexists. split; [done|]. cbn [mixed_x]. split; [done|].
  intros i k k' j l xa xb Hl Hk Ha Hb.
  assert (Hi : (i < n)%nat) by (apply lookup_lt_Some in Hl; lia).
  unfold tget in Ha, Hb. rewrite Hsx in Ha, Hb.
  destruct (decide (in_bounds [n; d] [k; j])) as [Hbk|]; [|done].
  destruct (decide (in_bounds [n; d] [k'; j])) as [Hbk'|]; [|done].
  pose proof Hbk as Hbk2. apply Forall2_cons_1 in Hbk2 as [Hkn Hbj].
  apply Forall2_cons_1 in Hbj as [Hjd _].
  assert (Hidx : in_bounds [n; 1; n; d]%nat [i; 0; k; j]%nat)
    by (repeat constructor; lia).
  rewrite tget_tnth by (apply wf_build || done).
  f_equal. unfold M. rewrite tnth_build by done.
  change (shape A) with [n; 1; n; d]%nat. change (shape B) with [n; 1; n; d]%nat.
  rewrite bidx_same by done.
  unfold A, B. rewrite !tnth_build by done.
  change (shape L) with [n; 1; 1; 1]%nat. change (shape OML) with [n; 1; 1; 1]%nat.
  rewrite Hsx, Hsxi, (bidx_lam_vectors n i k j), (bidx_vectors n d i k j) by done.
  unfold L, OML. rewrite (tnth_lam n lams i l) by done.
  rewrite (tnth_lam n _ i (1 - l)) by (by rewrite list_lookup_fmap, Hl).
  rewrite (Hxi_at k k' [j]) by (done || by constructor).
  rewrite (tnth_data x [k; j] xa), (tnth_data x [k'; j] xb) by (by rewrite Hsx).
  done.
Qed.

Lemma mixup_data_on_vectors_witness :
  exists m,
    mixup_data example_rng example_vectors example_y example_criterion
      (Q2Qc (4 # 10)) 0%nat = Ok (m, 2%nat) /\
    shape (mixed_x m) = [2; 1; 2; 2]%nat /\
    tget (mixed_x m) [0; 0; 1; 0]%nat = Some (Q2Qc (12 # 5)).
Proof.
  destruct (mixup_data_on_vectors example_rng example_vectors example_y
              example_criterion (Q2Qc (4 # 10)) 0%nat 1%nat 2%nat 2 2
              [Q2Qc (3 # 10); Q2Qc (9 # 10)] [1; 0]%nat)
    as (m & Hm & Hs & Hat).
  - vm_compute. reflexivity.
  - reflexivity.
  - reflexivity.
  - reflexivity.
  - reflexivity.
  - reflexivity.
  - reflexivity.
  - reflexivity.
  - unfold permutation_of_range. simpl. apply perm_swap.
  - exists m. split; [exact Hm|]. split; [exact Hs|].
    rewrite (Hat 0%nat 1%nat 0%nat 0%nat (lam_of (Q2Qc (3 # 10))) (1 + 2) 1)
      by reflexivity.
    compute_done.
Defined.

(** X12: mixup_data needs a batch of at least two dimensions, whether it
    mixes or not: on a tensor of no or of one dimension it raises
    IndexError, at [x.size()[0]] or at [x[index, :]]. *)
Theorem mixup_data_needs_two_dimensions {G : Type} (rng : rng_ops G)
    (x y : tensor) (criterion : criterion_fn) (alpha : Qc) (g : G) :
  (rank x < 2)%nat ->
  (0 < alpha ->
   length (np_random_beta rng alpha alpha (hd 0%nat (shape x)) g).1
   = hd 0%nat (shape x)) ->
  mixup_data rng x y criterion alpha g = Raise IndexError.
Proof.
  intros Hr Hdraws. unfold mixup_data, size0, rank in *.
  destruct (shape x) as [|n [|? ?]] eqn:Hsx; [done| |simpl in Hr; lia].
  rewrite bind_Ok. cbn [hd] in Hdraws.
  assert (Hrows : forall index, index_rows_all x index = Raise IndexError).
  { intros index. unfold index_rows_all, rank. rewrite Hsx.
    by rewrite decide_False by (simpl; lia). }
  destruct (decide (0 < alpha)) as [Ha|Ha].
  - destruct (np_random_beta rng alpha alpha n g) as [draws g1] eqn:Hb.
    rewrite mixup_lam_eq by (by apply Hdraws). rewrite !bind_Ok.
    destruct (torch_randperm rng n g1) as [index g2].
    unfold tmul, tsub.
    rewrite (map2b_ok Qcmult _ x [n; 1; 1; n]%nat), bind_Ok
      by (rewrite Hsx; apply broadcast_shapes_lam_y).
    rewrite (map2b_ok Qcminus (scalar 1) _ [n; 1; 1; 1]%nat), bind_Ok
      by apply broadcast_shapes_nil_l.
    by rewrite Hrows.
  - rewrite bind_Ok. destruct (torch_randperm rng n g) as [index g2].
    unfold tmul. rewrite (map2b_ok Qcmult (scalar 1) x [n]), bind_Ok
      by (rewrite Hsx; apply broadcast_shapes_nil_l).
    rewrite tsub_one_one, bind_Ok. by rewrite Hrows.
Qed.

Lemma mixup_data_needs_two_dimensions_witness :
  mixup_data example_rng example_y example_y example_criterion 0 0%nat
    = Raise IndexError.
Proof.
  apply (mixup_data_needs_two_dimensions example_rng example_y example_y
           example_criterion 0 0%nat).
  - unfold rank. simpl. lia.
  - intros H. vm_compute in H. discriminate H.
Defined.

Lemma Qc_of_nat_mul a b : Qc_of_nat (a * b) = Qc_of_nat a * Qc_of_nat b.
Proof. unfold Qc_of_nat. by rewrite Nat2Z.inj_mul, Z2Qc_inj_mul. Qed.

Lemma log_progress_first ph epoch dl logging_frequency st log :
  logging_frequency <> 0%Z ->
  log_progress ph epoch 0 dl logging_frequency st log = Ok log.
Proof.
  intros Hf. unfold log_progress, py_mod. rewrite decide_False, bind_Ok by done.
  rewrite decide_False; [done|]. intros [_ H]. lia.
Qed.

(** X13: with mixup on, train counts correct predictions over pairs of
    examples.  On a data loader of one batch of [n] images that all have
    the label [v], for a network that predicts [v] for every image, train
    reports the accuracy [n], not 1. *)
Theorem train_mixup_accuracy_is_batch_size {G L : Type} (rng : rng_ops G)
    (ops : learner_ops L) (criterion : criterion_fn) (epoch : Z) (x : tensor)
    (has_scheduler : bool) (alpha : Qc) (logging_frequency : Z) (w : world G L)
    (n c h wd dataset_len : nat) (draws : list Qc) (index : list nat) (v : Qc)
    (g1 g2 : G) :
  let y := Tensor [n] (replicate n v) in
  0 < alpha ->
  wf x -> shape x = [n; c; h; wd] -> (0 < n)%nat ->
  np_random_beta rng alpha alpha n (w_rng w) = (draws, g1) -> length draws = n ->
  torch_randperm rng n g1 = (index, g2) -> permutation_of_range n index ->
  (forall l x', shape x' = [n; c; h; wd] ->
     torch_argmax (forward ops l x').1 = Ok y) ->
  (forall pred t, exists q, criterion pred t = scalar q) ->
  logging_frequency <> 0%Z ->
  exists loss w',
    train rng ops criterion epoch (DataLoader [(x, y)] dataset_len)
      has_scheduler true alpha logging_frequency w
    = Ok ((loss, Qc_of_nat n), w').
Proof.
  intros y Halpha Hx Hsx Hn Hbeta Hdl Hrp Hperm Hpred Hscalar Hf.
  assert (Hy : wf y) by (unfold wf, numel; simpl; rewrite length_replicate; lia).
  destruct (mixup_acc_counts_pairs rng x criterion alpha (w_rng w) g1 g2 n c h wd
              draws index v Halpha Hx Hsx Hn Hbeta Hdl Hrp Hperm)
    as (m & Hm & Hacc).
  fold y in Hm, Hacc.
  destruct (mixup_data_with_mixing rng x y criterion alpha (w_rng w) g1 g2 n c h wd
              draws index)
    as (m' & Hm' & _ & Hsm & _ & _ & _ & _ & _ & Hcrit & _); try done.
  rewrite Hm in Hm'. injection Hm' as <-.
  unfold train. cbn [batches for_enumerate w_rng w_learner w_log].
  unfold train_batch. cbv beta iota. cbn [w_rng w_learner w_log].
  rewrite Hm, bind_Ok. cbv beta iota.
  destruct (forward ops (zero_grad ops (set_training ops true (w_learner w)))
              (mixed_x m)) as [output l1] eqn:F.
  pose proof (Hpred (zero_grad ops (set_training ops true (w_learner w)))
                (mixed_x m) Hsm) as Hp.
  rewrite F in Hp. cbn [fst] in Hp. rewrite Hp, bind_Ok.
  destruct (Hscalar output (y_a m)) as [ca Hca].
  destruct (Hscalar output (y_b m)) as [cb Hcb].
  rewrite (Hcrit output ca cb Hca Hcb), bind_Ok.
  change (item (scalar ?q)) with (Ok q). rewrite bind_Ok.
  change (len y) with (Ok n). rewrite !bind_Ok. rewrite Hacc, !bind_Ok.
  rewrite log_progress_first, bind_Ok by done.
  rewrite !bind_Ok. cbv beta iota. cbn [w_rng w_learner w_log].
  unfold report. cbn [total total_loss total_correct].
  assert (Hq : Qc_of_nat (0 + n) <> 0).
  { intros E%Qc_of_nat_eq_0. lia. }
  rewrite !py_div_ok, !bind_Ok by done.
  do 2 eexists. do 2 f_equal. f_equal.
  rewrite Qcplus_0_l, Nat.add_0_l, Qc_of_nat_mul.
  rewrite Nat.add_0_l in Hq. by field.
Qed.

Lemma train_mixup_accuracy_is_batch_size_witness :
  exists loss w',
    train example_rng example_ops example_criterion 1%Z
      (DataLoader [(example_x, Tensor [2]%nat (replicate 2 0))] 2)
      true true (Q2Qc (4 # 10)) 50%Z example_world
    = Ok ((loss, Qc_of_nat 2), w').
Proof.
  apply (train_mixup_accuracy_is_batch_size example_rng example_ops
           example_criterion 1%Z example_x true (Q2Qc (4 # 10)) 50%Z example_world
           2 1 1 2 2 [Q2Qc (3 # 10); Q2Qc (9 # 10)] [1; 0]%nat 0 1%nat 2%nat).
  - vm_compute. reflexivity.
  - reflexivity.
  - reflexivity.
  - lia.
  - reflexivity.
  - reflexivity.
  - reflexivity.
  - unfold permutation_of_range. simpl. apply perm_swap.
  - intros l x' Hs. unfold example_ops, forward. rewrite Hs. cbn [fst hd].
    compute_done.
  - intros pred t. eexists. reflexivity.
  - discriminate.
Defined.

(** ** Test-time augmentation: the weight of a plain average, and one view *)

Lemma Qcsum_app (l1 l2 : list Qc) : Qcsum (l1 ++ l2) = Qcsum l1 + Qcsum l2.
Proof.
  induction l1 as [|v l1 IH]; csimpl; [by rewrite Qcplus_0_l|].
  rewrite IH. ring.
Qed.

(** With the weight [m / (m + 1)] on the mean of [m] values and the rest on
    one more value, the blend is the mean of all [m + 1]. *)
Lemma Qc_blend_is_mean (vs : list Qc) (v : Qc) :
  vs <> [] ->
  (1 - Qc_of_nat (length vs) / Qc_of_nat (S (length vs))) * v
  + Qc_of_nat (length vs) / Qc_of_nat (S (length vs)) * Qcmean vs
  = Qcmean (vs ++ [v]).
Proof.
  intros Hne. unfold Qcmean. rewrite Qcsum_app, length_app. simpl length.
  replace (length vs + 1)%nat with (S (length vs)) by lia.
  rewrite Qc_of_nat_S. simpl Qcsum. rewrite Qcplus_0_r.
  assert (Hm : Qc_of_nat (length vs) <> 0).
  { intros E%Qc_of_nat_eq_0. by destruct vs. }
  assert (Hn : 1 + Qc_of_nat (length vs) <> 0).
  { rewrite <- Qc_of_nat_S. intros E%Qc_of_nat_eq_0. done. }
  field. by split.
Qed.

(** X14: for [n_aug] views and [tta_mixing = (n_aug - 1) / n_aug] the
    output of validate's test-time augmentation is the plain average over
    all views: at that weight every view counts the same. *)
Theorem tta_output_plain_average {L : Type} (ops : learner_ops L) (l l' : L)
    (x out : tensor) (tta_mixing : Qc) (bs n_aug c h w K : nat) :
  wf x -> shape x = [bs; n_aug; c; h; w] ->
  (0 < bs)%nat -> (2 <= n_aug)%nat -> (0 < c * h * w)%nat ->
  forward ops l (Tensor [(bs * n_aug)%nat; c; h; w] (data x)) = (out, l') ->
  wf out -> shape out = [(bs * n_aug)%nat; K] ->
  tta_mixing = Qc_of_nat (n_aug - 1) / Qc_of_nat n_aug ->
  exists output,
    tta_output ops l x tta_mixing = Ok (output, l') /\
    shape output = [bs; K] /\
    forall b k, (b < bs)%nat -> (k < K)%nat ->
      tget output [b; k] = Some (view_average out n_aug b k).
Proof.
  intros Hx Hsx Hbs Haug Hchw Hfw Hout Hsout Hmix.
  destruct (tta_output_value ops l l' x out tta_mixing bs n_aug c h w K)
    as (output & Ho & Hs & Hat); try done.
  exists output. split; [done|]. split; [done|].
  intros b k Hb Hk. rewrite (Hat b k Hb Hk). f_equal.
  unfold view_average.
  destruct n_aug as [|m]; [lia|]. replace (S m - 1)%nat with m in * by lia.
  rewrite seq_S, fmap_app. cbn [fmap list_fmap]. rewrite Nat.add_0_l.
  set (vs := (fun a => tnth out [(b * S m + a)%nat; k]) <$> seq 0 m).
  assert (Hlen : length vs = m) by (unfold vs; by rewrite length_fmap, length_seq).
  rewrite Hmix, <- Hlen. apply Qc_blend_is_mean.
  intros E. rewrite E in Hlen. simpl in Hlen. lia.
Qed.

Lemma tta_output_plain_average_witness :
  exists output,
    tta_output pixel_ops () example_views (Q2Qc (2 # 3)) = Ok (output, ()) /\
    shape output = [1; 1]%nat /\
    forall b k, (b < 1)%nat -> (k < 1)%nat ->
      tget output [b; k]
      = Some (view_average (Tensor [3; 1]%nat [0; 0; 1]) 3 b k).
Proof.
  apply (tta_output_plain_average pixel_ops () () example_views
           (Tensor [3; 1]%nat [0; 0; 1]) (Q2Qc (2 # 3)) 1 3 1 1 1 1).
  - reflexivity.
  - reflexivity.
  - lia.
  - lia.
  - lia.
  - reflexivity.
  - reflexivity.
  - reflexivity.
  - vm_compute. apply Qc_is_canon. reflexivity.
Defined.

(** X15: test-time augmentation needs two views.  With one view per example
    the mean over the other views is taken of nothing and is not a number,
    whatever the weight. *)
Theorem tta_output_single_view {L : Type} (ops : learner_ops L) (l l' : L)
    (x out : tensor) (tta_mixing : Qc) (bs c h w K : nat) :
  wf x -> shape x = [bs; 1%nat; c; h; w] ->
  (0 < bs)%nat -> (0 < c * h * w)%nat ->
  forward ops l (Tensor [(bs * 1)%nat; c; h; w] (data x)) = (out, l') ->
  wf out -> shape out = [(bs * 1)%nat; K] ->
  tta_output ops l x tta_mixing = Raise NotANumber.
Proof.
  intros Hx Hsx Hbs Hchw Hfw Hout Hsout.
  unfold tta_output. rewrite Hsx.
  assert (Hlx : length (data x) = (bs * 1 * numel [c; h; w])%nat).
  { unfold wf in Hx. rewrite Hx, Hsx. unfold numel. lia. }
  assert (Hp : numel [c; h; w] <> 0%nat) by (unfold numel; nia).
  rewrite (view_ok x _ [(bs * 1)%nat; c; h; w]), bind_Ok, Hfw.
  2:{ change [(-1)%Z; Z.of_nat c; Z.of_nat h; Z.of_nat w]
        with ((-1)%Z :: (Z.of_nat <$> [c; h; w])).
      rewrite view_shape_infer_first by (done || (rewrite Hlx; apply Nat.Div0.mod_mul)).
      by rewrite Hlx, Nat.div_mul by done. }
  assert (Hlo : length (data out) = (K * numel [bs; 1%nat])%nat).
  { unfold wf in Hout. rewrite Hout, Hsout. unfold numel. lia. }
  assert (Hq : numel [bs; 1%nat] <> 0%nat) by (unfold numel; nia).
  rewrite (view_ok out _ [bs; 1%nat; K]), bind_Ok.
  2:{ change [Z.of_nat bs; Z.of_nat 1; (-1)%Z]
        with ((Z.of_nat <$> [bs; 1%nat]) ++ [(-1)%Z]).
      rewrite view_shape_infer_last by (done || (rewrite Hlo; apply Nat.Div0.mod_mul)).
      by rewrite Hlo, Nat.div_mul by done. }
  set (O3 := Tensor [bs; 1%nat; K] (data out)).
  change (1 - 1)%nat with 0%nat.
  rewrite (select_ok 1 0 O3 1), bind_Ok by (done || lia).
  change (delete 1%nat (shape O3)) with [bs; K].
  set (last := build [bs; K] _).
  unfold tmul.
  rewrite (map2b_ok Qcmult _ last [bs; K]), bind_Ok by apply broadcast_shapes_nil_l.
  rewrite (narrow_ok 1 0 O3 1), bind_Ok by done.
  unfold mean_axis.
  change (shape (build (<[1%nat:=(0 `min` 1)%nat]> (shape O3)) (tnth O3)) !! 1%nat)
    with (Some 0%nat).
  cbv beta iota. by rewrite decide_True.
Qed.

Lemma tta_output_single_view_witness :
  tta_output pixel_ops () (Tensor [2; 1; 1; 1; 1]%nat [0; 1]) (Q2Qc (6 # 10))
    = Raise NotANumber.
Proof.
  apply (tta_output_single_view pixel_ops () () (Tensor [2; 1; 1; 1; 1]%nat [0; 1])
           (Tensor [2; 1]%nat [0; 1]) (Q2Qc (6 # 10)) 2 1 1 1 1).
  - reflexivity.
  - reflexivity.
  - lia.
  - lia.
  - reflexivity.
  - reflexivity.
  - reflexivity.
Defined.

(** ** get_param_lr_maps: a rate of zero, and the order of the rates *)

Local Close Scope Qc_scope.
Local Open Scope R_scope.

(** X16: a pair of factors cannot freeze the body.  When the base learning
    rate or one of the two factors is 0, numpy.geomspace refuses the zero
    endpoint and get_param_lr_maps raises ValueError, whatever the model. *)
Theorem get_param_lr_maps_zero_rate (m : model) (base_lr lo hi : R) :
  base_lr = 0 \/ lo = 0 \/ hi = 0 ->
  get_param_lr_maps m base_lr (FactorRange lo hi) = Raise ValueError.
Proof.
  intros H. unfold get_param_lr_maps, geomspace.
  destruct (Req_dec_T (base_lr * lo) 0) as [|Hlo]; [done|].
  destruct (Req_dec_T (base_lr * hi) 0) as [|Hhi]; [done|].
  exfalso. destruct H as [-> | [-> | ->] ].
  - apply Hlo. ring.
  - apply Hlo. ring.
  - apply Hhi. ring.
Qed.

Lemma get_param_lr_maps_zero_rate_witness :
  get_param_lr_maps example_model 1 (FactorRange 0 1) = Raise ValueError.
Proof.
  apply (get_param_lr_maps_zero_rate example_model 1 0 1).
  right. left. reflexivity.
Defined.

Lemma geom_point_le a b num i j :
  0 < a -> a <= b -> (i <= j)%nat ->
  geom_point a b num i <= geom_point a b num j.
Proof.
  intros Ha Hab Hij. unfold geom_point.
  apply Rmult_le_compat_l; [lra|].
  apply Rle_Rpower.
  - apply (Rmult_le_reg_r a); [done|]. unfold Rdiv.
    rewrite Rmult_assoc, Rinv_l by lra. lra.
  - apply Rmult_le_compat_r.
    + destruct (Req_dec_T (INR (num - 1)) 0) as [->|Hne].
      * rewrite Rinv_0. lra.
      * left. apply Rinv_0_lt_compat.
        pose proof (pos_INR (num - 1)). lra.
    + by apply le_INR.
Qed.

Lemma geom_point_bounds a b num i :
  0 < a -> a <= b -> (i < num)%nat ->
  a <= geom_point a b num i /\ geom_point a b num i <= b.
Proof.
  intros Ha Hab Hi. split.
  - rewrite <- (geom_point_first a b num) at 1 by lra.
    apply geom_point_le; [done..|lia].
  - destruct (decide (1 < num)%nat) as [Hn|Hn].
    + rewrite <- (geom_point_last a b num) at 2 by (lra || done).
      apply geom_point_le; [done..|lia].
    + assert (i = 0%nat) as -> by lia. rewrite geom_point_first by lra. done.
Qed.

(** X17: for two factors in rising order the learning rates of the body
    rise with the position of the parameter in the model, and all lie
    between [base_lr * lower_bound_factor] and
    [base_lr * upper_bound_factor]. *)
Theorem get_param_lr_maps_range_ordered (m : model) (base_lr lo hi : R) :
  0 < base_lr -> 0 < lo -> lo <= hi ->
  exists groups,
    get_param_lr_maps m base_lr (FactorRange lo hi) = Ok groups /\
    length groups = S (length (body_parameters m)) /\
    (forall i g, (i < length (body_parameters m))%nat -> groups !! i = Some g ->
       base_lr * lo <= lr g /\ lr g <= base_lr * hi) /\
    (forall i j gi gj, (i <= j)%nat -> (j < length (body_parameters m))%nat ->
       groups !! i = Some gi -> groups !! j = Some gj -> lr gi <= lr gj).
Proof.
  intros Hb Hlo Hhi.
  assert (Ha : 0 < base_lr * lo) by (by apply Rmult_lt_0_compat).
  assert (Hab : base_lr * lo <= base_lr * hi) by (apply Rmult_le_compat_l; lra).
  assert (Hz : 0 < base_lr * hi) by lra.
  set (nb := length (body_parameters m)).
  set (lrs := geom_point (base_lr * lo) (base_lr * hi) nb <$> seq 0 nb).
  assert (Hlen : length (zip_with (fun np lr => ParamGroup (OneParam np.2) lr)
                           (body_parameters m) lrs) = nb).
  { rewrite length_zip_with. unfold lrs. rewrite length_fmap, length_seq.
    fold nb. lia. }
  assert (Hat : forall i g, (i < nb)%nat ->
            (zip_with (fun np lr => ParamGroup (OneParam np.2) lr)
               (body_parameters m) lrs ++
             [ParamGroup (ParamIter (out_fc_parameters m)) base_lr]) !! i = Some g ->
            lr g = geom_point (base_lr * lo) (base_lr * hi) nb i).
  { intros i g Hi Hg. rewrite lookup_app_l in Hg by (by rewrite Hlen).
    apply lookup_zip_with_Some in Hg as (np & r & -> & _ & Hr).
    unfold lrs in Hr. rewrite list_lookup_fmap, lookup_seq_lt in Hr by done.
    simpl in Hr. by injection Hr as <-. }
  eexists. split.
  { unfold get_param_lr_maps. fold nb. rewrite geomspace_positive by done.
    fold lrs. reflexivity. }
  split; [rewrite length_app, Hlen; simpl; lia|]. split.
  - intros i g Hi Hg. rewrite (Hat i g Hi Hg). by apply geom_point_bounds.
  - intros i j gi gj Hij Hj Hgi Hgj.
    rewrite (Hat i gi ltac:(lia) Hgi), (Hat j gj Hj Hgj). by apply geom_point_le.
Qed.

Lemma get_param_lr_maps_range_ordered_witness :
  exists groups,
    get_param_lr_maps example_model 1 (FactorRange (/ 100) (/ 10)) = Ok groups /\
    length groups = S (length (body_parameters example_model)) /\
    (forall i g, (i < length (body_parameters example_model))%nat ->
       groups !! i = Some g -> 1 * / 100 <= lr g /\ lr g <= 1 * / 10) /\
    (forall i j gi gj, (i <= j)%nat ->
       (j < length (body_parameters example_model))%nat ->
       groups !! i = Some gi -> groups !! j = Some gj -> lr gi <= lr gj).
Proof.
  apply (get_param_lr_maps_range_ordered example_model 1 (/ 100) (/ 10)); lra.
Defined.

Local Close Scope R_scope.
Local Open Scope Qc_scope.

(** ** get_param_lr_maps: which parameters are the head *)

(** A string is its part before the first separator, alone or followed by
    the separator and a rest. *)
Lemma split_head_spec sep (s p : string) :
  head (split sep s) = Some p ->
  s = p \/ exists r, s = (p +:+ String sep r)%string.
Proof.
  revert p. induction s as [|c s IH]; intros p.
  - simpl. intros [= <-]. by left.
  - rewrite split_head_cons. intros [= <-]. case_decide as Hc.
    + subst c. right. by exists s.
    + destruct (head (split sep s)) as [p'|] eqn:Hp'.
      * destruct (IH p' eq_refl) as [->|[r ->]]; simpl.
        -- by left.
        -- right. by exists r.
      * destruct s as [|c' s']; [discriminate Hp'|].
        rewrite split_head_cons in Hp'. discriminate Hp'.
Qed.

(** X19: the head of the model, for get_param_lr_maps, is the parameter
    named [out_fc] and the parameters whose names start with [out_fc.]; every
    other name, [out_fc2.weight] for one, counts as body. *)
Theorem is_body_false_iff (name : string) :
  is_body name = false <->
  name = "out_fc"%string \/ exists s, name = ("out_fc." +:+ s)%string.
Proof.
  split.
  - unfold is_body. rewrite bool_decide_eq_false. intros H.
    apply dec_stable in H.
    destruct (head (split "."%char name)) as [p|] eqn:Hp.
    + simpl in H. subst p. apply split_head_spec in Hp as [->|[r ->]].
      * by left.
      * right. by exists r.
    + simpl in H. discriminate H.
  - intros [->|[s ->]]; [done|]. apply is_body_head_params.
Qed.

(** ** checkpoint_state: one file per epoch *)

Lemma string_app_length (s t : string) :
  String.length (s +:+ t) = (String.length s + String.length t)%nat.
Proof. induction s as [|a s IH]; simpl; [done|]. by rewrite IH. Qed.

Lemma string_app_inj_r (t s1 s2 : string) : s1 +:+ t = s2 +:+ t -> s1 = s2.
Proof.
  revert s2. induction s1 as [|a s1 IH]; intros [|b s2] H; simpl in H.
  - done.
  - apply (f_equal String.length) in H.
    rewrite !string_app_length in H. simpl in H. lia.
  - apply (f_equal String.length) in H.
    rewrite !string_app_length in H. simpl in H. lia.
  - injection H as -> H. f_equal. by apply IH.
Qed.

Lemma checkpoint_name_inj (e1 e2 : Z) :
  checkpoint_name e1 = checkpoint_name e2 -> e1 = e2.
Proof.
  unfold checkpoint_name. intros H.
  apply (inj (String.app "epoch_")) in H.
  apply string_app_inj_r in H. by apply (inj pretty) in H.
Qed.

(** The paths of the checkpoints of two epochs in one directory differ. *)
Lemma checkpoint_path_inj (dir : string) (e1 e2 : Z) :
  os_path_join dir (checkpoint_name e1) = os_path_join dir (checkpoint_name e2) ->
  e1 = e2.
Proof.
  unfold os_path_join.
  change (String.prefix "/" (checkpoint_name e1)) with false.
  change (String.prefix "/" (checkpoint_name e2)) with false.
  cbv beta iota. intros H. apply checkpoint_name_inj.
  destruct (bool_decide (dir = EmptyString) || endswith "/" dir).
  - by apply (inj (String.app dir)) in H.
  - apply (inj (String.app dir)) in H. by apply (inj (String.app "/")) in H.
Qed.

(** X18: the checkpoints of a run are one file per epoch.  Saving epoch
    [e2] after epoch [e1] leaves the file of [e1] as it is when the epochs
    differ, and replaces it when they are the same: of two checkpoints of
    one epoch only the later is kept. *)
Theorem checkpoint_state_one_file_per_epoch {SD : Type} (model : saved_model SD)
    (e1 e2 : Z) (optimizer1 optimizer2 : stateful SD)
    (scheduler1 scheduler2 : option (stateful SD))
    (tl1 ta1 vl1 va1 tl2 ta2 vl2 va2 : Qc)
    (fs : gmap string (gmap string (py_value SD))) :
  let fs1 := checkpoint_state model e1 optimizer1 scheduler1 tl1 ta1 vl1 va1 fs in
  let fs2 := checkpoint_state model e2 optimizer2 scheduler2 tl2 ta2 vl2 va2 fs1 in
  let path := fun e => os_path_join (save_dir model) (checkpoint_name e) in
  (e1 <> e2 ->
   path e1 <> path e2 /\ fs2 !! path e1 = fs1 !! path e1 /\
   (fs2 !! path e1 ≫= (.!! "epoch"%string)) = Some (PyInt e1) /\
   (fs2 !! path e2 ≫= (.!! "epoch"%string)) = Some (PyInt e2)) /\
  (e1 = e2 ->
   fs2 = checkpoint_state model e2 optimizer2 scheduler2 tl2 ta2 vl2 va2 fs).
Proof.
  intros fs1 fs2 path. split.
  - intros Hne.
    assert (Hp : path e1 <> path e2).
    { intros E. by apply Hne, (checkpoint_path_inj (save_dir model)). }
    split; [done|].
    assert (H1 : fs2 !! path e1 = fs1 !! path e1).
    { unfold fs2, checkpoint_state, torch_save. by rewrite lookup_insert_ne. }
    split; [done|]. split.
    + rewrite H1. unfold fs1, checkpoint_state, torch_save.
      by rewrite lookup_insert_eq.
    + unfold fs2, checkpoint_state, torch_save. by rewrite lookup_insert_eq.
  - intros ->. unfold fs2, fs1, checkpoint_state, torch_save.
    by rewrite insert_insert_eq.
Qed.

Lemma checkpoint_state_one_file_per_epoch_witness :
  let model := SavedModel tt "ckpt" in
  let fs2 :=
    checkpoint_state model 2 (Stateful tt) None 1 1 1 1
      (checkpoint_state model 1 (Stateful tt) None 0 0 0 0 ∅) in
  (fs2 !! "ckpt/epoch_1.pth"%string ≫= (.!! "epoch"%string)) = Some (PyInt 1) /\
  (fs2 !! "ckpt/epoch_2.pth"%string ≫= (.!! "epoch"%string)) = Some (PyInt 2).
Proof.
  intros model fs2.
  destruct (checkpoint_state_one_file_per_epoch model 1 2 (Stateful tt)
              (Stateful tt) None None 0 0 0 0 1 1 1 1 ∅) as [H _].
  destruct H as (_ & _ & H1 & H2); [lia|].
  split; [exact H1|exact H2].
Defined.
